(** * OmnichannelTranscript: the PDF transcript workflow

    A shallow embedding of
    [ee/apps/omnichannel-transcript/src/OmnichannelTranscript.ts]:
    request intake ([requestTranscript]), the concurrency-limited worker
    ([workOnPdf]), attachment resolution ([getFiles]), rendering
    ([doRender] and the stream's end callback) and the notification paths
    ([pdfFailed], [pdfComplete]).

    The class is I/O orchestration.  Its collaborators (document store,
    queue, upload, messaging, translation and settings services, the PDF
    worker) live in other packages; they are modelled as a [World] that
    holds the collections and a journal of the calls made, plus a record
    [Services] of the pure answers the collaborators give.  Every call to
    a collaborator may throw: the world carries a script of faults, one
    entry consumed per call.  Concurrency ([Promise.all]) is modelled by
    running the tasks one at a time in a completion order taken from a
    second script of the world, so that every statement below holds for
    every completion order and every pattern of faults. *)

From stdpp Require Import gmap strings list.
From Stdlib Require Import ZArith Lia Ascii.

(** ** Data model *)

(** [new Error(message)]. *)
Record Error := mkError { message : string }.

Global Instance Error_eq_dec : EqDecision Error.
Proof. solve_decision. Defined.

Inductive Result (A : Type) : Type :=
| Ok (a : A)
| Err (e : Error).
Arguments Ok {A} a.
Arguments Err {A} e.

(** [WorkDetails] and [WorkDetailsWithSource]. *)
Record WorkDetails := { wd_rid : string; wd_userId : string }.

Record WorkDetailsWithSource := { rid : string; userId : string; from : string }.

(** The fields of an omnichannel room the service reads or writes.  The
    optional booleans [open] and [pdfTranscriptRequested] are [false] when
    absent (they are only tested for truthiness); [servedBy] and [v] carry
    the [_id] of the agent and of the visitor. *)
Record Room := {
  room_id : string;
  open : bool;
  servedBy : option string;
  v : option string;
  pdfTranscriptRequested : bool;
  pdfTranscriptFileId : option string;
  closedAt : option Z }.

Record User := {
  user_id : string;
  user_name : option string;
  user_username : option string;
  utcOffset : option Z }.

Record Visitor := {
  visitor_id : string;
  visitor_name : option string;
  visitor_username : option string }.

Definition Buffer := list Byte.byte.

Record Upload := {
  upload_id : string;
  upload_name : string;
  upload_type : string;
  upload_rid : string;
  upload_userId : string;
  upload_size : nat }.

Record UploadDetails := {
  ud_name : string;
  ud_type : string;
  ud_rid : string;
  ud_userId : string;
  ud_size : nat }.

Record Attachment := {
  type : option string;
  image_type : option string;
  title : option string;
  title_link : option string;
  description : option string }.

Record FileRef := { file_id : string; file_name : string }.

Record Message := {
  msg_id : string;
  msg_rid : string;
  ts : Z;
  u : string;
  msg : string;
  md : option string;
  t : option string;
  attachments : option (list Attachment);
  files : option (list FileRef) }.

(** An element of [MessageWithFiles.files]. *)
Record FileEntry := { name : option string; buffer : option Buffer }.

Record MessageWithFiles := {
  mf_id : string;
  mf_ts : Z;
  mf_u : string;
  mf_msg : string;
  mf_md : option string;
  mf_files : list FileEntry }.

Record WorkerData := {
  siteName : string;
  visitor : option Visitor;
  agent : option User;
  wd_closedAt : option Z;
  wd_messages : list MessageWithFiles;
  timezone : string;
  dateFormat : string;
  timeAndDateFormat : string;
  translations : list (string * string) }.

(** A render stream on which [doRender] has registered its [data] and [end]
    handlers: what the [end] closure captures, and the chunks the stream
    delivers before it ends. *)
Record RenderStream := {
  rs_details : WorkDetailsWithSource;
  rs_data : WorkerData;
  rs_transcriptText : string;
  rs_chunks : list Buffer }.

(** The journal of calls that change something outside the service. *)
Inductive Effect :=
| QueueWork (queue handler template : string) (details : WorkDetailsWithSource)
| SetTranscriptRequestedPdfById (room : string)
| UnsetTranscriptRequestedPdfById (room : string)
| SetPdfTranscriptFileIdById (room fileId : string)
| CreateDirectMessage (to sender : string)
| SendMessage (fromId room text : string)
| SendFileMessage (roomId sender : string) (file : Upload) (text : string)
| UploadFile (uploader : string) (content : Buffer) (details : UploadDetails).

Inductive LogEntry :=
| LogLog (line : string)
| LogError (line : string)
| LogDebug (line : string)
| LogErrorObj (line : string) (err : Error).

(** Modelled from the spec: the answers of the collaborators, whose code is
    in other packages: the PDF worker ([isMimeTypeValid],
    [renderToStream]), the upload service ([getFileBuffer], the id of a new
    upload), the messaging service (the room id of a direct conversation),
    the translation and settings services, the timezone helpers of
    [@rocket.chat/tools], [JSON.stringify] and the date formatter. *)
Record Services := {
  svc_isMimeTypeValid : option string → bool;
  svc_renderToStream : string → WorkerData → list Buffer;
  svc_getFileBuffer : string → Upload → Buffer;
  svc_uploadId : string → UploadDetails → string;
  svc_directRoomId : string → string → string;
  svc_translateToServerLanguage : string → string;
  svc_translate : string → User → string;
  svc_settings : string → string;
  svc_guessTimezone : string;
  svc_guessTimezoneFromOffset : Z → string;
  svc_stringify : Attachment → string;
  svc_today : string }.

(** The collections, the service's two public counters, the journals, and
    the two scripts: [faults] says which of the coming collaborator calls
    throw, [picks] in which order concurrent tasks complete. *)
Record World := {
  rooms : gmap string Room;
  users : gmap string User;
  visitors : gmap string Visitor;
  messages : list Message;
  uploads : gmap string Upload;
  streams : list RenderStream;
  effects : list Effect;
  logs : list LogEntry;
  maxNumberOfConcurrentJobs : Z;
  currentJobNumber : Z;
  faults : list (option Error);
  picks : list nat }.

Definition set_rooms (f : gmap string Room → gmap string Room) (w : World) : World :=
  {| rooms := f (rooms w); users := users w; visitors := visitors w;
     messages := messages w; uploads := uploads w; streams := streams w;
     effects := effects w; logs := logs w;
     maxNumberOfConcurrentJobs := maxNumberOfConcurrentJobs w;
     currentJobNumber := currentJobNumber w;
     faults := faults w; picks := picks w |}.

Definition set_uploads (f : gmap string Upload → gmap string Upload) (w : World) : World :=
  {| rooms := rooms w; users := users w; visitors := visitors w;
     messages := messages w; uploads := f (uploads w); streams := streams w;
     effects := effects w; logs := logs w;
     maxNumberOfConcurrentJobs := maxNumberOfConcurrentJobs w;
     currentJobNumber := currentJobNumber w;
     faults := faults w; picks := picks w |}.

Definition set_streams (f : list RenderStream → list RenderStream) (w : World) : World :=
  {| rooms := rooms w; users := users w; visitors := visitors w;
     messages := messages w; uploads := uploads w; streams := f (streams w);
     effects := effects w; logs := logs w;
     maxNumberOfConcurrentJobs := maxNumberOfConcurrentJobs w;
     currentJobNumber := currentJobNumber w;
     faults := faults w; picks := picks w |}.

Definition set_effects (f : list Effect → list Effect) (w : World) : World :=
  {| rooms := rooms w; users := users w; visitors := visitors w;
     messages := messages w; uploads := uploads w; streams := streams w;
     effects := f (effects w); logs := logs w;
     maxNumberOfConcurrentJobs := maxNumberOfConcurrentJobs w;
     currentJobNumber := currentJobNumber w;
     faults := faults w; picks := picks w |}.

Definition set_logs (f : list LogEntry → list LogEntry) (w : World) : World :=
  {| rooms := rooms w; users := users w; visitors := visitors w;
     messages := messages w; uploads := uploads w; streams := streams w;
     effects := effects w; logs := f (logs w);
     maxNumberOfConcurrentJobs := maxNumberOfConcurrentJobs w;
     currentJobNumber := currentJobNumber w;
     faults := faults w; picks := picks w |}.

Definition set_currentJobNumber (f : Z → Z) (w : World) : World :=
  {| rooms := rooms w; users := users w; visitors := visitors w;
     messages := messages w; uploads := uploads w; streams := streams w;
     effects := effects w; logs := logs w;
     maxNumberOfConcurrentJobs := maxNumberOfConcurrentJobs w;
     currentJobNumber := f (currentJobNumber w);
     faults := faults w; picks := picks w |}.

Definition set_faults (f : list (option Error) → list (option Error)) (w : World) : World :=
  {| rooms := rooms w; users := users w; visitors := visitors w;
     messages := messages w; uploads := uploads w; streams := streams w;
     effects := effects w; logs := logs w;
     maxNumberOfConcurrentJobs := maxNumberOfConcurrentJobs w;
     currentJobNumber := currentJobNumber w;
     faults := f (faults w); picks := picks w |}.

Definition set_picks (f : list nat → list nat) (w : World) : World :=
  {| rooms := rooms w; users := users w; visitors := visitors w;
     messages := messages w; uploads := uploads w; streams := streams w;
     effects := effects w; logs := logs w;
     maxNumberOfConcurrentJobs := maxNumberOfConcurrentJobs w;
     currentJobNumber := currentJobNumber w;
     faults := faults w; picks := f (picks w) |}.

(** ** The monad of asynchronous methods

    An [async] method is a function from the world to a settled promise
    (fulfilled with a value or rejected with an [Error]) and a new world. *)
Definition M (A : Type) : Type := World → Result A * World.

Definition ret {A} (a : A) : M A := λ w, (Ok a, w).

Definition throw {A} (e : Error) : M A := λ w, (Err e, w).

Definition bind {A B} (m : M A) (k : A → M B) : M B := λ w,
  match m w with
  | (Ok a, w1) => k a w1
  | (Err e, w1) => (Err e, w1)
  end.

Notation "'let!' x ':=' m 'in' k" := (bind m (λ x, k))
  (at level 10, x name, m at level 100, k at level 200).
Notation "m '>>' k" := (bind m (λ _, k))
  (at level 100, k at level 200, right associativity).

Definition gets {A} (f : World → A) : M A := λ w, (Ok (f w), w).

Definition modify (f : World → World) : M unit := λ w, (Ok tt, f w).

(** [try { body } catch (e) { handler e }]. *)
Definition try_catch {A} (body : M A) (handler : Error → M A) : M A := λ w,
  match body w with
  | (Ok a, w1) => (Ok a, w1)
  | (Err e, w1) => handler e w1
  end.

(** [try { body } finally { fin }]: [fin] runs on every path; the outcome is
    that of [body] unless [fin] itself throws. *)
Definition try_finally {A} (body : M A) (fin : M unit) : M A := λ w,
  match body w with
  | (r, w1) =>
      match fin w1 with
      | (Ok _, w2) => (r, w2)
      | (Err e, w2) => (Err e, w2)
      end
  end.

(** The promise settles, and its outcome is handed over as a value. *)
Definition settle {A} (m : M A) : M (Result A) := λ w,
  match m w with (r, w1) => (Ok r, w1) end.

(** A call that crosses into a collaborator: the next entry of the fault
    script decides whether it throws. *)
Definition external : M unit := λ w,
  match head (faults w) with
  | Some (Some e) => (Err e, set_faults tail w)
  | _ => (Ok tt, set_faults tail w)
  end.

Definition journal (e : Effect) : M unit := modify (set_effects (λ es, es ++ [e])).

Definition log_log (line : string) : M unit := modify (set_logs (λ ls, ls ++ [LogLog line])).
Definition log_error (line : string) : M unit := modify (set_logs (λ ls, ls ++ [LogError line])).
Definition log_debug (line : string) : M unit := modify (set_logs (λ ls, ls ++ [LogDebug line])).
Definition log_error_obj (line : string) (err : Error) : M unit :=
  modify (set_logs (λ ls, ls ++ [LogErrorObj line err])).

(** JavaScript truthiness of an optional string, and [a || b]. *)
Definition truthy (s : option string) : bool :=
  match s with
  | Some s => negb (String.eqb s "")
  | None => false
  end.

Definition or_else (a : option string) (b : option string) : option string :=
  if truthy a then a else b.

(** [`${x}`] for an optional string. *)
Definition show (s : option string) : string :=
  match s with
  | Some s => s
  | None => "undefined"
  end.

(** [!x] for an optional object. *)
Definition absent {A} (x : option A) : bool :=
  match x with
  | Some _ => false
  | None => true
  end.

(** ** Concurrency: [Promise.all]

    The tasks of a [Promise.all] all run, each to completion, in an order
    the code does not control.  The order is read off the [picks] script:
    task [i] is inserted at position [picks[i]] into the order of the tasks
    after it, which reaches every permutation; an empty script gives the
    order of the array. *)
Fixpoint insert_at {A} (k : nat) (x : A) (l : list A) : list A :=
  match k, l with
  | 0, _ => x :: l
  | S _, [] => [x]
  | S k, y :: l => y :: insert_at k x l
  end.

Fixpoint completion_order (ks : list nat) (ids : list nat) : list nat :=
  match ids with
  | [] => []
  | i :: ids => insert_at (hd 0 ks) i (completion_order (tl ks) ids)
  end.

(** Running the tasks in the given order; each outcome is kept with the
    index of its task. *)
Fixpoint run_tasks {A} (tasks : list (M A)) (order : list nat) (w : World)
  : list (nat * Result A) * World :=
  match order with
  | [] => ([], w)
  | i :: order =>
      match tasks !! i with
      | Some task =>
          match task w with
          | (r, w1) =>
              match run_tasks tasks order w1 with
              | (rs, w2) => ((i, r) :: rs, w2)
              end
          end
      | None => run_tasks tasks order w
      end
  end.

Fixpoint outcome_of {A} (i : nat) (rs : list (nat * Result A)) : option (Result A) :=
  match rs with
  | [] => None
  | (j, r) :: rs => if Nat.eqb i j then Some r else outcome_of i rs
  end.

(** The first rejection, in completion order. *)
Fixpoint first_rejection {A} (rs : list (nat * Result A)) : option Error :=
  match rs with
  | [] => None
  | (_, Err e) :: _ => Some e
  | (_, Ok _) :: rs => first_rejection rs
  end.

Definition fulfilled {A} (rs : list (nat * Result A)) (i : nat) : option A :=
  match outcome_of i rs with
  | Some (Ok a) => Some a
  | _ => None
  end.

(** [Promise.all(tasks)]: rejects with the first rejection to happen, else
    fulfils with the values in the order of the array. *)
Definition promise_all {A} (tasks : list (M A)) : M (list A) := λ w,
  let n := length tasks in
  let order := completion_order (take n (picks w)) (seq 0 n) in
  match run_tasks tasks order (set_picks (drop n) w) with
  | (rs, w1) =>
      match first_rejection rs with
      | Some e => (Err e, w1)
      | None => (Ok (omap (fulfilled rs) (seq 0 n)), w1)
      end
  end.

(** [Promise.all([a, b])] for two promises of different types. *)
Definition promise_all2 {A B} (a : M A) (b : M B) : M (A * B) := λ w,
  let w0 := set_picks (drop 1) w in
  if Nat.even (hd 0 (picks w)) then
    match a w0 with
    | (ra, w1) =>
        match b w1 with
        | (rb, w2) =>
            (match ra, rb with
             | Ok x, Ok y => Ok (x, y)
             | Err e, _ => Err e
             | _, Err e => Err e
             end, w2)
        end
    end
  else
    match b w0 with
    | (rb, w1) =>
        match a w1 with
        | (ra, w2) =>
            (match rb, ra with
             | Ok y, Ok x => Ok (x, y)
             | Err e, _ => Err e
             | _, Err e => Err e
             end, w2)
        end
    end.

(** ** The collaborators

    The model classes ([LivechatRooms], [Messages], [Uploads], [Users],
    [LivechatVisitors]) and the injected services are not part of the
    service's file.  Section 6 of the specification gives their contracts;
    each of them is a call that may throw, followed by what the contract
    says. *)

(** Modelled from the spec: the update of the "transcript requested" flag
    of a room document (set: [true]; unset: the field is removed, which
    reads as [false]). *)
Definition room_with_requested (b : bool) (r : Room) : Room :=
  {| room_id := room_id r; open := open r; servedBy := servedBy r; v := v r;
     pdfTranscriptRequested := b; pdfTranscriptFileId := pdfTranscriptFileId r;
     closedAt := closedAt r |}.

(** Modelled from the spec: the update that sets the "transcript file id"
    of a room document. *)
Definition room_with_fileId (f : string) (r : Room) : Room :=
  {| room_id := room_id r; open := open r; servedBy := servedBy r; v := v r;
     pdfTranscriptRequested := pdfTranscriptRequested r; pdfTranscriptFileId := Some f;
     closedAt := closedAt r |}.

(** Modelled from the spec: [LivechatRooms.findOneById], find room by id. *)
Definition LivechatRooms_findOneById (id : string) : M (option Room) :=
  external >> gets (λ w, rooms w !! id).

(** Modelled from the spec: [LivechatRooms.setTranscriptRequestedPdfById],
    set the "transcript requested" flag; no room, no change. *)
Definition LivechatRooms_setTranscriptRequestedPdfById (id : string) : M unit :=
  external >>
  journal (SetTranscriptRequestedPdfById id) >>
  modify (set_rooms (alter (room_with_requested true) id)).

(** Modelled from the spec: [LivechatRooms.unsetTranscriptRequestedPdfById],
    unset the "transcript requested" flag. *)
Definition LivechatRooms_unsetTranscriptRequestedPdfById (id : string) : M unit :=
  external >>
  journal (UnsetTranscriptRequestedPdfById id) >>
  modify (set_rooms (alter (room_with_requested false) id)).

(** Modelled from the spec: [LivechatRooms.setPdfTranscriptFileIdById], set
    the "transcript file id" on the room. *)
Definition LivechatRooms_setPdfTranscriptFileIdById (id fileId : string) : M unit :=
  external >>
  journal (SetPdfTranscriptFileIdById id fileId) >>
  modify (set_rooms (alter (room_with_fileId fileId) id)).

(** Modelled from the spec: [Users.findOneById], find user by id. *)
Definition Users_findOneById (id : string) : M (option User) :=
  external >> gets (λ w, users w !! id).

(** Modelled from the spec: [Users.findOneAgentById], find agent by id. *)
Definition Users_findOneAgentById (id : string) : M (option User) :=
  external >> gets (λ w, users w !! id).

(** Modelled from the spec: [LivechatVisitors.findOneById], find visitor by
    id. *)
Definition LivechatVisitors_findOneById (id : string) : M (option Visitor) :=
  external >> gets (λ w, visitors w !! id).

(** Modelled from the spec: [Uploads.findOneById], find uploaded file by
    id. *)
Definition Uploads_findOneById (id : string) : M (option Upload) :=
  external >> gets (λ w, uploads w !! id).

(** Modelled from the spec: the sort [{ ts: 1 }] of the messages query,
    ascending by timestamp (a stable insertion sort). *)
Fixpoint insert_by_ts (m : Message) (l : list Message) : list Message :=
  match l with
  | [] => [m]
  | x :: r => if (ts m <=? ts x)%Z then m :: l else x :: insert_by_ts m r
  end.

(** Modelled from the spec: the messages of a query, ascending by
    timestamp. *)
Definition sort_by_ts (l : list Message) : list Message := foldr insert_by_ts [] l.

(** Modelled from the spec: the filter of the messages query, the messages
    of the room without the closing system message. *)
Definition is_livechat_message_without_closing (room : string) (m : Message) : bool :=
  String.eqb (msg_rid m) room && negb (bool_decide (t m = Some "livechat-close")).

(** Modelled from the spec: [Messages.findLivechatMessagesWithoutClosing],
    find messages for a room excluding the closing message, sorted
    ascending by timestamp. *)
Definition Messages_findLivechatMessagesWithoutClosing (room : string) : M (list Message) :=
  external >>
  gets (λ w, sort_by_ts (List.filter (is_livechat_message_without_closing room) (messages w))).

(** Modelled from the spec: [queueService.queueWork], enqueue a payload for
    a named handler. *)
Definition queueService_queueWork (queue handler template : string)
    (details : WorkDetailsWithSource) : M unit :=
  external >> journal (QueueWork queue handler template details).

(** Modelled from the spec: [messageService.sendMessage]. *)
Definition messageService_sendMessage (fromId room text : string) : M unit :=
  external >> journal (SendMessage fromId room text).

(** Modelled from the spec: [uploadService.sendFileMessage], post a file
    into a conversation. *)
Definition uploadService_sendFileMessage (roomId sender : string) (file : Upload)
    (text : string) : M unit :=
  external >> journal (SendFileMessage roomId sender file text).

Section Service.

Context (svc : Services).

(** Modelled from the spec: [messageService.createDirectMessage], open or
    create the direct conversation and answer its room id. *)
Definition messageService_createDirectMessage (to sender : string) : M string :=
  external >>
  journal (CreateDirectMessage to sender) >>
  ret (svc_directRoomId svc to sender).

(** Modelled from the spec: [uploadService.getFileBuffer], the bytes of an
    uploaded file. *)
Definition uploadService_getFileBuffer (user : string) (file : Upload) : M Buffer :=
  external >> ret (svc_getFileBuffer svc user file).

(** Modelled from the spec: [uploadService.uploadFile], store the bytes
    and answer the upload record. *)
Definition uploadService_uploadFile (user : string) (content : Buffer)
    (details : UploadDetails) : M Upload :=
  external >>
  let file := {| upload_id := svc_uploadId svc user details;
                 upload_name := ud_name details; upload_type := ud_type details;
                 upload_rid := ud_rid details; upload_userId := ud_userId details;
                 upload_size := ud_size details |} in
  journal (UploadFile user content details) >>
  modify (set_uploads (insert (upload_id file) file)) >>
  ret file.

(** Modelled from the spec: [translationService.translateToServerLanguage]. *)
Definition translationService_translateToServerLanguage (key : string) : M string :=
  external >> ret (svc_translateToServerLanguage svc key).

(** Modelled from the spec: [translationService.translate], the string in
    the language of a user. *)
Definition translationService_translate (key : string) (user : User) : M string :=
  external >> ret (svc_translate svc key user).

(** Modelled from the spec: [settingsService.get]. *)
Definition settingsService_get (key : string) : M string :=
  external >> ret (svc_settings svc key).

(** Modelled from the spec: [worker.renderToStream], the byte stream of the
    rendered document, as the chunks it will deliver. *)
Definition worker_renderToStream (template : string) (data : WorkerData) : M (list Buffer) :=
  external >> ret (svc_renderToStream svc template data).

(** ** The service *)

Definition service_name : string := "omnichannel-transcript".

Definition getTimezone (user : option User) : M string :=
  let! reportingTimezone := settingsService_get "Default_Timezone_For_Reporting" in
  if String.eqb reportingTimezone "custom" then
    settingsService_get "Default_Custom_Timezone"
  else if String.eqb reportingTimezone "user" then
    match user ≫= utcOffset with
    | Some offset =>
        if (offset =? 0)%Z then ret (svc_guessTimezone svc)
        else ret (svc_guessTimezoneFromOffset svc offset)
    | None => ret (svc_guessTimezone svc)
    end
  else ret (svc_guessTimezone svc).

Definition getMessagesFromRoom (room : string) : M (list Message) :=
  Messages_findLivechatMessagesWithoutClosing room.

Definition requestTranscript (details : WorkDetails) : M unit :=
  log_log ("Requesting transcript for room " +:+ wd_rid details +:+ " by user "
           +:+ wd_userId details) >>
  let! room := LivechatRooms_findOneById (wd_rid details) in
  match room with
  | None => throw (mkError "room-not-found")
  | Some room =>
      if open room then throw (mkError "room-still-open")
      else if absent (servedBy room) || absent (v room) then
        throw (mkError "improper-room-state")
      else if pdfTranscriptRequested room then
        log_log ("Transcript already requested for room " +:+ wd_rid details)
      else
        LivechatRooms_setTranscriptRequestedPdfById (wd_rid details) >>
        log_log ("Queuing work for room " +:+ wd_rid details) >>
        queueService_queueWork "work" (service_name +:+ ".workOnPdf") "omnichannel-transcript"
          {| userId := wd_userId details; rid := wd_rid details; from := service_name |}
  end.

(** The first group of [title_link.match(re)], where [re] is the literal
    [/file-upload/], a greedy group of any characters, a [/], and any
    characters.  The pattern is tried at every position from the left.  At
    a position that starts with [/file-upload/], the greedy group followed
    by [/] takes the text up to the last [/] of the line (the dot does not
    cross a line terminator).

    The dot of a pattern without the [s] flag matches every character but
    the four line terminators of the language: LF, CR, U+2028 (line
    separator) and U+2029 (paragraph separator).  Strings are held as
    their UTF-8 bytes, in which the last two are the three-byte sequences
    E2 80 A8 and E2 80 A9; these bytes stand for nothing else at the start
    of a character, and the other characters of the pattern are ASCII. *)
Fixpoint strip_prefix (p s : string) : option string :=
  match p with
  | EmptyString => Some s
  | String c p' =>
      match s with
      | String d s' => if Ascii.eqb c d then strip_prefix p' s' else None
      | EmptyString => None
      end
  end.

(** The string starts with a line terminator. *)
Definition is_line_terminator (s : string) : bool :=
  match s with
  | EmptyString => false
  | String c rest =>
      Ascii.eqb c "010"%char || Ascii.eqb c "013"%char
      || Ascii.eqb c "226"%char
         && match rest with
            | String c2 (String c3 _) =>
                Ascii.eqb c2 "128"%char
                && (Ascii.eqb c3 "168"%char || Ascii.eqb c3 "169"%char)
            | _ => false
            end
  end.

(** The text up to the first line terminator. *)
Fixpoint line_of (s : string) : string :=
  match s with
  | EmptyString => EmptyString
  | String c s' => if is_line_terminator s then EmptyString else String c (line_of s')
  end.

Fixpoint before_last_slash (s : string) : option string :=
  match s with
  | EmptyString => None
  | String c s' =>
      match before_last_slash s' with
      | Some g => Some (String c g)
      | None => if Ascii.eqb c "/"%char then Some EmptyString else None
      end
  end.

Definition file_upload_at (s : string) : option string :=
  match strip_prefix "/file-upload/" s with
  | Some rest => before_last_slash (line_of rest)
  | None => None
  end.

Fixpoint match_file_upload (s : string) : option string :=
  match file_upload_at s with
  | Some g => Some g
  | None =>
      match s with
      | EmptyString => None
      | String _ s' => match_file_upload s'
      end
  end.

(** The body of the inner [attachments.map(async (attachment) => ...)] of
    [getFiles]: [None] is the [undefined] of a skipped attachment. *)
Definition getFiles_attachment (user : string) (message : Message)
    (attachment : Attachment) : M (option FileEntry) :=
  log_error (svc_stringify svc attachment) >>
  if negb (bool_decide (type attachment = Some "file")) then
    log_error ("Invalid attachment type " +:+ show (type attachment) +:+ " for file "
               +:+ show (title attachment) +:+ " in room " +:+ msg_rid message +:+ "!") >>
    ret None
  else if negb (svc_isMimeTypeValid svc (image_type attachment)) then
    log_error ("Invalid mime type " +:+ show (image_type attachment) +:+ " for file "
               +:+ show (title attachment) +:+ " in room " +:+ msg_rid message +:+ "!") >>
    ret (Some {| name := title attachment; buffer := None |})
  else
    let! located :=
      match List.find (λ file, bool_decide (Some (file_name file) = title attachment))
                      (default [] (files message)) with
      | Some file => ret (inr (Some file))
      | None =>
          log_debug ("File " +:+ show (title attachment) +:+ " not found in room "
                     +:+ msg_rid message +:+ "!") >>
          let fileId := title_link attachment ≫= match_file_upload in
          if negb (truthy fileId) then
            log_error ("File " +:+ show (title attachment) +:+ " not found in room "
                       +:+ msg_rid message +:+ "!") >>
            ret (inl {| name := title attachment; buffer := None |})
          else
            ret (inr (Some {| file_id := default "" fileId;
                              file_name := default "" (or_else (title attachment)
                                                               (Some "upload")) |}))
      end in
    match located with
    | inl placeholder => ret (Some placeholder)
    | inr None =>
        log_error ("File " +:+ show (title attachment) +:+ " not found in room "
                   +:+ msg_rid message +:+ "!") >>
        ret (Some {| name := title attachment; buffer := None |})
    | inr (Some file) =>
        let! uploadedFile := Uploads_findOneById (file_id file) in
        match uploadedFile with
        | None =>
            log_error ("Uploaded file " +:+ file_id file +:+ " not found in room "
                       +:+ msg_rid message +:+ "!") >>
            ret (Some {| name := Some (file_name file); buffer := None |})
        | Some uploadedFile =>
            let! fileBuffer := uploadService_getFileBuffer user uploadedFile in
            ret (Some {| name := Some (file_name file); buffer := Some fileBuffer |})
        end
    end.

(** [message.msg || attachments.find((a) => a.description)?.description || ''] *)
Definition message_text (message : Message) (atts : list Attachment) : string :=
  default ""
    (or_else (or_else (Some (msg message))
                      (List.find (λ a, truthy (description a)) atts ≫= description))
             (Some "")).

(** The body of the outer [messages.map(async (message) => ...)]. *)
Definition getFiles_message (user : string) (message : Message) : M MessageWithFiles :=
  if absent (attachments message) || Nat.eqb (length (default [] (attachments message))) 0
  then
    ret {| mf_id := msg_id message; mf_files := []; mf_ts := ts message;
           mf_u := u message; mf_msg := msg message; mf_md := md message |}
  else
    let atts := default [] (attachments message) in
    let! resolved := promise_all (map (getFiles_attachment user message) atts) in
    let text := message_text message atts in
    ret {| mf_id := msg_id message; mf_msg := text; mf_u := u message;
           mf_files := omap id resolved; mf_ts := ts message; mf_md := None |}.

Definition getFiles (user : string) (msgs : list Message) : M (list MessageWithFiles) :=
  promise_all (map (getFiles_message user) msgs).

Definition translation_keys : list string :=
  ["Agent"; "Date"; "Customer"; "Omnichannel_Agent"; "Time"; "Chat_transcript";
   "This_attachment_is_not_supported"].

Definition getTranslations : M (list (string * string)) :=
  promise_all
    (map (λ key,
            let! value := translationService_translateToServerLanguage key in
            ret (key, value))
         translation_keys).

Definition pdfFailed (details : WorkDetailsWithSource) (e : Error) : M unit :=
  log_error ("Transcript for room " +:+ rid details +:+ " by user " +:+ userId details
             +:+ " - Failed: " +:+ message e) >>
  let! room := LivechatRooms_findOneById (rid details) in
  if absent room then ret tt
  else
    let! user := Users_findOneById (userId details) in
    match user with
    | None => ret tt
    | Some user =>
        LivechatRooms_unsetTranscriptRequestedPdfById (rid details) >>
        let! dm := messageService_createDirectMessage (userId details) "rocket.cat" in
        log_log ("Transcript for room " +:+ rid details +:+ " by user " +:+ userId details
                 +:+ " - Sending error message to user") >>
        let! text := translationService_translate "pdf_error_message" user in
        messageService_sendMessage "rocket.cat" dm (text +:+ ": " +:+ message e)
    end.

Definition isPromiseRejectedResult {A} (result : Result A) : bool :=
  match result with
  | Err _ => true
  | Ok _ => false
  end.

Definition pdfComplete (details : WorkDetailsWithSource) (file : Upload) : M unit :=
  log_log ("Transcript for room " +:+ rid details +:+ " by user " +:+ userId details
           +:+ " - Complete") >>
  let! user := Users_findOneById (userId details) in
  match user with
  | None => ret tt
  | Some user =>
      try_catch
        (let! both :=
           promise_all2
             (LivechatRooms_setPdfTranscriptFileIdById (rid details) (upload_id file))
             (messageService_createDirectMessage (userId details) "rocket.cat") in
         let dm := snd both in
         log_log ("Transcript for room " +:+ rid details +:+ " by user " +:+ userId details
                  +:+ " - Sending success message to user") >>
         let! text1 := translationService_translateToServerLanguage "pdf_success_message" in
         let! sent1 :=
           settle (uploadService_sendFileMessage (rid details) "rocket.cat" file text1) in
         let! text2 := translationService_translate "pdf_success_message" user in
         let! sent2 := settle (uploadService_sendFileMessage dm "rocket.cat" file text2) in
         match List.find isPromiseRejectedResult [sent1; sent2] with
         | Some (Err reason) => throw reason
         | _ => ret tt
         end)
        (λ err,
           log_error_obj ("Transcript for room " +:+ rid details +:+ " by user "
                          +:+ userId details +:+ " - Failed to send message") err)
  end.

(** [doRender] returns once the two handlers are registered on the stream;
    the upload and the notifications happen in the [end] handler, after
    [workOnPdf] has returned. *)
Definition doRender (template : string) (data : WorkerData)
    (details : WorkDetailsWithSource) : M unit :=
  let! transcriptText := translationService_translateToServerLanguage "Transcript" in
  let! chunks := worker_renderToStream template data in
  modify (set_streams (λ ss, ss ++ [{| rs_details := details; rs_data := data;
                                       rs_transcriptText := transcriptText;
                                       rs_chunks := chunks |}])).

(** The [end] handler of the stream: [uploadFile(...).then(pdfComplete)
    .catch(pdfFailed)]. *)
Definition doRender_end (stream : RenderStream) : M unit :=
  let details := rs_details stream in
  let data := rs_data stream in
  let outBuff : Buffer := concat (rs_chunks stream) in
  try_catch
    (let! file :=
       uploadService_uploadFile (userId details) outBuff
         {| ud_name := rs_transcriptText stream +:+ "_" +:+ siteName data +:+ "_"
                       +:+ svc_today svc +:+ "_"
                       +:+ default "Visitor"
                             (or_else (or_else (visitor data ≫= visitor_name)
                                               (visitor data ≫= visitor_username))
                                      (Some "Visitor"))
                       +:+ ".pdf";
            ud_type := "application/pdf";
            ud_rid := rid details;
            ud_userId := "rocket.cat";
            ud_size := length outBuff |} in
     pdfComplete details file)
    (λ e, pdfFailed details e).

(** The values of the five-element [Promise.all] of [workOnPdf]. *)
Inductive Setting :=
| SettingString (s : string)
| SettingTranslations (l : list (string * string)).

Definition setting_string (s : option Setting) : string :=
  match s with
  | Some (SettingString s) => s
  | _ => ""
  end.

Definition setting_translations (s : option Setting) : list (string * string) :=
  match s with
  | Some (SettingTranslations l) => l
  | _ => []
  end.

(** The [try] block of [workOnPdf]. *)
Definition workOnPdf_body (template : string) (details : WorkDetailsWithSource) : M unit :=
  let! room := LivechatRooms_findOneById (rid details) in
  match room with
  | None => throw (mkError "room-not-found")
  | Some room =>
      let! msgs := getMessagesFromRoom (room_id room) in
      let! visitor :=
        match v room with
        | Some id => LivechatVisitors_findOneById id
        | None => ret None
        end in
      let! agent :=
        match servedBy room with
        | Some id => Users_findOneAgentById id
        | None => ret None
        end in
      let! messagesFiles := getFiles (userId details) msgs in
      let! settings :=
        promise_all
          [ (let! s := settingsService_get "Site_Name" in ret (SettingString s));
            (let! s := settingsService_get "Message_DateFormat" in ret (SettingString s));
            (let! s := settingsService_get "Message_TimeAndDateFormat" in
             ret (SettingString s));
            (let! s := getTimezone agent in ret (SettingString s));
            (let! l := getTranslations in ret (SettingTranslations l)) ] in
      let data :=
        {| visitor := visitor; agent := agent; wd_closedAt := closedAt room;
           siteName := setting_string (settings !! 0);
           wd_messages := messagesFiles;
           dateFormat := setting_string (settings !! 1);
           timeAndDateFormat := setting_string (settings !! 2);
           timezone := setting_string (settings !! 3);
           translations := setting_translations (settings !! 4) |} in
      doRender template data details
  end.

(** [this.currentJobNumber++] and [this.currentJobNumber--]. *)
Definition increment_jobs : M unit := modify (set_currentJobNumber (λ n, n + 1)%Z).
Definition decrement_jobs : M unit := modify (set_currentJobNumber (λ n, n - 1)%Z).

(** The [try ... catch ... ] of [workOnPdf], without its [finally]. *)
Definition workOnPdf_guarded (template : string) (details : WorkDetailsWithSource) : M unit :=
  try_catch (workOnPdf_body template details) (λ error, pdfFailed details error).

Definition workOnPdf (template : string) (details : WorkDetailsWithSource) : M unit :=
  log_log ("Processing transcript for room " +:+ rid details +:+ " by user "
           +:+ userId details +:+ " - Received from queue") >>
  let! max := gets maxNumberOfConcurrentJobs in
  let! current := gets currentJobNumber in
  if (max <=? current)%Z then
    log_error ("Processing transcript for room " +:+ rid details +:+ " by user "
               +:+ userId details +:+ " - Too many concurrent jobs, queuing again") >>
    throw (mkError "retry")
  else
    increment_jobs >>
    try_finally (workOnPdf_guarded template details) decrement_jobs.

End Service.

(** The service as constructed: [maxNumberOfConcurrentJobs = 25],
    [currentJobNumber = 0], nothing stored, no fault, tasks completing in
    the order of their arrays. *)
Definition initial_world : World :=
  {| rooms := ∅; users := ∅; visitors := ∅; messages := []; uploads := ∅;
     streams := []; effects := []; logs := [];
     maxNumberOfConcurrentJobs := 25; currentJobNumber := 0;
     faults := []; picks := [] |}.

(** ** Specifications

    [triple I m P E]: started in a world that satisfies [I], the method [m]
    settles in a world that satisfies [I] again, with a value that
    satisfies [P] or an error that satisfies [E]. *)
Definition triple {A} (I : World → Prop) (m : M A) (P : A → Prop) (E : Error → Prop) : Prop :=
  ∀ w, I w →
    match m w with
    | (Ok a, w') => I w' ∧ P a
    | (Err e, w') => I w' ∧ E e
    end.

(** The next [n] calls to collaborators do not throw. *)
Definition calls_succeed (n : nat) (w : World) : Prop :=
  Forall (λ f, f = None) (take n (faults w)).

Global Instance calls_succeed_dec n w : Decision (calls_succeed n w).
Proof. unfold calls_succeed. apply _. Defined.

(** No call to a collaborator will throw. *)
Definition calm (w : World) : Prop := Forall (λ f, f = None) (faults w).

Global Instance calm_dec w : Decision (calm w).
Proof. unfold calm. apply _. Defined.

(** No call will throw and the uploads collection is [ups]. *)
Definition resolving (ups : gmap string Upload) (w : World) : Prop :=
  calm w ∧ uploads w = ups.

(** The error predicate of a method that cannot fail. *)
Definition never : Error → Prop := λ _, False.

(** The faults still to come are among those of [w0]. *)
Definition later_than (w0 w : World) : Prop := faults w `suffix_of` faults w0.

(** Every call to a collaborator made between [w0] and [w] has answered:
    the entries of the fault script consumed since [w0] are all [None]. *)
Definition answered (w0 w : World) : Prop :=
  ∃ k, faults w = drop k (faults w0) ∧ Forall (λ f, f = None) (take k (faults w0)).

(** [e] is the first error that a collaborator throws after [w0]. *)
Definition first_thrown (w0 : World) (e : Error) : Prop :=
  ∃ k, Forall (λ f, f = None) (take k (faults w0)) ∧ faults w0 !! k = Some (Some e).

(** A method that swallows no error of a collaborator: run after calls
    that all answered, it returns normally only if its own calls all
    answered too, and is rejected only with an error in [F]. *)
Definition strict {A} (w0 : World) (F : Error → Prop) (m : M A) : Prop :=
  ∀ w, answered w0 w →
    match m w with
    | (Ok _, w') => answered w0 w'
    | (Err e, _) => F e
    end.

(** Nothing moved but the log and the two scripts. *)
Definition same_state (w w' : World) : Prop :=
  rooms w' = rooms w ∧ users w' = users w ∧ visitors w' = visitors w ∧
  messages w' = messages w ∧ uploads w' = uploads w ∧ streams w' = streams w ∧
  effects w' = effects w ∧
  maxNumberOfConcurrentJobs w' = maxNumberOfConcurrentJobs w ∧
  currentJobNumber w' = currentJobNumber w.

(** The counters and the collections no method of the service writes to
    directly are as they were. *)
Definition untouched (w w' : World) : Prop :=
  users w' = users w ∧ visitors w' = visitors w ∧ messages w' = messages w ∧
  maxNumberOfConcurrentJobs w' = maxNumberOfConcurrentJobs w ∧
  currentJobNumber w' = currentJobNumber w.

(** The world in which the [try] block of an admitted [workOnPdf] starts:
    the arrival is logged and the counter incremented. *)
Definition admitted (details : WorkDetailsWithSource) (w : World) : World :=
  set_currentJobNumber (λ n, n + 1)%Z
    (set_logs (λ ls, ls ++ [LogLog ("Processing transcript for room " +:+ rid details
                                    +:+ " by user " +:+ userId details
                                    +:+ " - Received from queue")]) w).

(** The errors of the specification's taxonomy. *)
Definition RoomNotFound : Error := mkError "room-not-found".
Definition RoomStillOpen : Error := mkError "room-still-open".
Definition InvalidRoomState : Error := mkError "improper-room-state".
Definition Retry : Error := mkError "retry".

(** The message text as the specification words it: the body when it is
    not empty, else the description of the first attachment that has a
    (non-empty) description, else the empty string. *)
Fixpoint first_description (atts : list Attachment) : option string :=
  match atts with
  | [] => None
  | a :: atts =>
      match description a with
      | Some d => if String.eqb d "" then first_description atts else Some d
      | None => first_description atts
      end
  end.

Definition expected_text (m : Message) : string :=
  if String.eqb (msg m) "" then
    match first_description (default [] (attachments m)) with
    | Some d => d
    | None => ""
    end
  else msg m.

(** What file resolution keeps of a message, whatever happens to its
    attachments. *)
Definition keeps (m : Message) (r : MessageWithFiles) : Prop :=
  mf_id r = msg_id m ∧ mf_ts r = ts m ∧ mf_u r = u m ∧ mf_msg r = expected_text m.

(** What an attachment and a message resolve to when no collaborator
    throws, as a function of the uploads collection. *)
Definition locate_file (message : Message) (attachment : Attachment) : option FileRef :=
  match List.find (λ file, bool_decide (Some (file_name file) = title attachment))
                  (default [] (files message)) with
  | Some file => Some file
  | None =>
      let fileId := title_link attachment ≫= match_file_upload in
      if truthy fileId then
        Some {| file_id := default "" fileId;
                file_name := default "" (or_else (title attachment) (Some "upload")) |}
      else None
  end.

Definition resolved_attachment (svc : Services) (user : string) (ups : gmap string Upload)
    (message : Message) (attachment : Attachment) : option FileEntry :=
  if negb (bool_decide (type attachment = Some "file")) then None
  else if negb (svc_isMimeTypeValid svc (image_type attachment)) then
    Some {| name := title attachment; buffer := None |}
  else
    match locate_file message attachment with
    | None => Some {| name := title attachment; buffer := None |}
    | Some file =>
        match ups !! file_id file with
        | None => Some {| name := Some (file_name file); buffer := None |}
        | Some uploaded =>
            Some {| name := Some (file_name file);
                    buffer := Some (svc_getFileBuffer svc user uploaded) |}
        end
    end.

Definition resolved (svc : Services) (user : string) (ups : gmap string Upload)
    (message : Message) : MessageWithFiles :=
  match attachments message with
  | Some (a :: atts) =>
      {| mf_id := msg_id message; mf_ts := ts message; mf_u := u message;
         mf_msg := expected_text message; mf_md := None;
         mf_files := omap (resolved_attachment svc user ups message) (a :: atts) |}
  | _ =>
      {| mf_id := msg_id message; mf_ts := ts message; mf_u := u message;
         mf_msg := msg message; mf_md := md message; mf_files := [] |}
  end.

(** The attachments for which [getFiles] asks the uploads collection: type
    [file], a valid mime type, and a file located by title or by
    [title_link]. *)
Definition needs_upload (svc : Services) (message : Message) (attachment : Attachment)
  : Prop :=
  type attachment = Some "file" ∧
  svc_isMimeTypeValid svc (image_type attachment) = true ∧
  is_Some (locate_file message attachment).

(** What the failure path does outside: it clears the flag, opens the
    direct conversation with the requester, and sends the localized error
    message followed by the text of the error. *)
Definition error_notice (svc : Services) (details : WorkDetailsWithSource) (user : User)
    (e : Error) : list Effect :=
  [UnsetTranscriptRequestedPdfById (rid details);
   CreateDirectMessage (userId details) "rocket.cat";
   SendMessage "rocket.cat" (svc_directRoomId svc (userId details) "rocket.cat")
     (svc_translate svc "pdf_error_message" user +:+ ": " +:+ message e)].

(** What the failure path logs: the failure with the text of the error
    that failed the job, and, once the direct conversation is open, that
    the error message is being sent. *)
Definition failure_logs (details : WorkDetailsWithSource) (e : Error) : list LogEntry :=
  [LogError ("Transcript for room " +:+ rid details +:+ " by user " +:+ userId details
             +:+ " - Failed: " +:+ message e);
   LogLog ("Transcript for room " +:+ rid details +:+ " by user " +:+ userId details
           +:+ " - Sending error message to user")].

(** The two deliveries of the success path: into the room, and into the
    direct conversation with the requester. *)
Definition success_deliveries (svc : Services) (details : WorkDetailsWithSource)
    (user : User) (file : Upload) : list Effect :=
  [SendFileMessage (rid details) "rocket.cat" file
     (svc_translateToServerLanguage svc "pdf_success_message");
   SendFileMessage (svc_directRoomId svc (userId details) "rocket.cat") "rocket.cat" file
     (svc_translate svc "pdf_success_message" user)].

(** The upload that the [end] handler of a stream requests, and the record
    the upload service answers with. *)
Definition transcript_details (svc : Services) (stream : RenderStream) : UploadDetails :=
  {| ud_name := rs_transcriptText stream +:+ "_" +:+ siteName (rs_data stream) +:+ "_"
                +:+ svc_today svc +:+ "_"
                +:+ default "Visitor"
                      (or_else (or_else (visitor (rs_data stream) ≫= visitor_name)
                                        (visitor (rs_data stream) ≫= visitor_username))
                               (Some "Visitor"))
                +:+ ".pdf";
     ud_type := "application/pdf";
     ud_rid := rid (rs_details stream);
     ud_userId := "rocket.cat";
     ud_size := length (concat (rs_chunks stream) : Buffer) |}.

Definition transcript_file (svc : Services) (stream : RenderStream) : Upload :=
  {| upload_id := svc_uploadId svc (userId (rs_details stream))
                    (transcript_details svc stream);
     upload_name := ud_name (transcript_details svc stream);
     upload_type := "application/pdf";
     upload_rid := rid (rs_details stream);
     upload_userId := "rocket.cat";
     upload_size := ud_size (transcript_details svc stream) |}.

(** The world after the upload of the transcript of a stream. *)
Definition after_upload (svc : Services) (stream : RenderStream) (w : World) : World :=
  set_uploads (insert (upload_id (transcript_file svc stream)) (transcript_file svc stream))
    (set_effects (λ es, es ++ [UploadFile (userId (rs_details stream))
                                          (concat (rs_chunks stream))
                                          (transcript_details svc stream)])
       (set_faults tail w)).

(** How often the transcript file id of a room was set. *)
Definition sets_file_id (room : string) (e : Effect) : bool :=
  match e with
  | SetPdfTranscriptFileIdById r _ => String.eqb r room
  | _ => false
  end.

Definition times_file_id_set (room : string) (w : World) : nat :=
  length (List.filter (sets_file_id room) (effects w)).

(** ** Scenarios

    A small installation used to run the service on concrete inputs. *)
Definition demo_services : Services :=
  {| svc_isMimeTypeValid := λ mime,
       bool_decide (mime = Some "image/png") || bool_decide (mime = Some "image/jpeg");
     svc_renderToStream := λ _ _, [[Byte.x25; Byte.x50; Byte.x44; Byte.x46]; [Byte.x2d]];
     svc_getFileBuffer := λ _ file,
       if String.eqb (upload_id file) "file-1"
       then [Byte.x89; Byte.x50; Byte.x4e; Byte.x47] else [];
     svc_uploadId := λ _ details, "upload:" +:+ ud_name details;
     svc_directRoomId := λ to sender, sender +:+ to;
     svc_translateToServerLanguage := λ key, "[" +:+ key +:+ "]";
     svc_translate := λ key user, "[" +:+ key +:+ "@" +:+ user_id user +:+ "]";
     svc_settings := λ key, "<" +:+ key +:+ ">";
     svc_guessTimezone := "UTC";
     svc_guessTimezoneFromOffset := λ _, "Etc/GMT";
     svc_stringify := λ a, "{" +:+ show (title a) +:+ "}";
     svc_today := "11/2/2026" |}.

Definition closed_room : Room :=
  {| room_id := "room-1"; open := false; servedBy := Some "agent-1";
     v := Some "visitor-1"; pdfTranscriptRequested := false;
     pdfTranscriptFileId := None; closedAt := Some 1700000000%Z |}.

Definition open_room : Room :=
  {| room_id := "room-1"; open := true; servedBy := Some "agent-1";
     v := Some "visitor-1"; pdfTranscriptRequested := false;
     pdfTranscriptFileId := None; closedAt := None |}.

Definition unserved_room : Room :=
  {| room_id := "room-1"; open := false; servedBy := None;
     v := Some "visitor-1"; pdfTranscriptRequested := false;
     pdfTranscriptFileId := None; closedAt := Some 1700000000%Z |}.

Definition pending_room : Room := room_with_requested true closed_room.

Definition agent_1 : User :=
  {| user_id := "agent-1"; user_name := Some "Ada"; user_username := Some "ada";
     utcOffset := Some 2%Z |}.

Definition visitor_1 : Visitor :=
  {| visitor_id := "visitor-1"; visitor_name := None;
     visitor_username := Some "guest-7" |}.

Definition picture : Attachment :=
  {| type := Some "file"; image_type := Some "image/png"; title := Some "cat.png";
     title_link := Some "/file-upload/file-1/cat.png"; description := Some "my cat" |}.

Definition movie : Attachment :=
  {| type := Some "file"; image_type := Some "video/mp4"; title := Some "cat.mp4";
     title_link := Some "/file-upload/file-2/cat.mp4"; description := None |}.

Definition pasted : Attachment :=
  {| type := Some "file"; image_type := Some "image/png"; title := Some "Clipboard";
     title_link := None; description := Some "" |}.

Definition file_1 : Upload :=
  {| upload_id := "file-1"; upload_name := "cat.png"; upload_type := "image/png";
     upload_rid := "room-1"; upload_userId := "visitor-1"; upload_size := 4 |}.

Definition hello : Message :=
  {| msg_id := "m1"; msg_rid := "room-1"; ts := 10; u := "guest-7"; msg := "hello";
     md := Some "hello"; t := None; attachments := None; files := None |}.

Definition photo : Message :=
  {| msg_id := "m2"; msg_rid := "room-1"; ts := 20; u := "guest-7"; msg := "";
     md := None; t := None; attachments := Some [pasted; movie; picture];
     files := Some [{| file_id := "file-1"; file_name := "cat.png" |}] |}.

Definition closing : Message :=
  {| msg_id := "m3"; msg_rid := "room-1"; ts := 30; u := "ada"; msg := "bye";
     md := None; t := Some "livechat-close"; attachments := None; files := None |}.

(** The installation with one room, a script of faults and a script of
    completion orders. *)
Definition world_of (room : Room) (fs : list (option Error)) (ks : list nat) : World :=
  {| rooms := {[ "room-1" := room ]};
     users := {[ "agent-1" := agent_1 ]};
     visitors := {[ "visitor-1" := visitor_1 ]};
     messages := [photo; closing; hello];
     uploads := {[ "file-1" := file_1 ]};
     streams := []; effects := []; logs := [];
     maxNumberOfConcurrentJobs := 25; currentJobNumber := 0;
     faults := fs; picks := ks |}.

(** A render stream that [doRender] has set up for a job. *)
Definition stream_of (details : WorkDetailsWithSource) : RenderStream :=
  {| rs_details := details;
     rs_data := {| siteName := "Acme"; visitor := Some visitor_1; agent := Some agent_1;
                   wd_closedAt := Some 1700000000%Z; wd_messages := [];
                   timezone := "UTC"; dateFormat := "LL"; timeAndDateFormat := "LLL";
                   translations := [] |};
     rs_transcriptText := "Transcript";
     rs_chunks := [[Byte.x25; Byte.x50; Byte.x44; Byte.x46]; [Byte.x2d]] |}.

(** The installation with as many jobs in flight as the limit allows. *)
Definition full_world : World :=
  set_currentJobNumber (λ _, 25%Z) (world_of pending_room [] []).

Definition request_1 : WorkDetails := {| wd_rid := "room-1"; wd_userId := "agent-1" |}.

Definition job_1 : WorkDetailsWithSource :=
  {| rid := "room-1"; userId := "agent-1"; from := "omnichannel-transcript" |}.

(** The same job, requested by a user who has been deleted since. *)
Definition job_ghost : WorkDetailsWithSource :=
  {| rid := "room-1"; userId := "ghost"; from := "omnichannel-transcript" |}.

(** ** Further specifications *)

(** The work item that a request enqueues. *)
Definition work_item (details : WorkDetails) : Effect :=
  QueueWork "work" "omnichannel-transcript.workOnPdf" "omnichannel-transcript"
    {| userId := wd_userId details; rid := wd_rid details;
       from := "omnichannel-transcript" |}.

(** A room that passes the validation of a request. *)
Definition requestable (room : Room) : Prop :=
  open room = false ∧ is_Some (servedBy room) ∧ is_Some (v room).

(** A message as [getFiles] returns it when it has no attachment. *)
Definition plain (m : Message) : MessageWithFiles :=
  {| mf_id := msg_id m; mf_files := []; mf_ts := ts m; mf_u := u m; mf_msg := msg m;
     mf_md := md m |}.

Definition without_attachments (m : Message) : Prop :=
  attachments m = None ∨ attachments m = Some [].

(** The shape of a returned message: with attachments the parsed markdown
    is dropped and there is at most one file entry per attachment; without,
    the markdown is kept and there is no file entry. *)
Definition shaped (m : Message) (r : MessageWithFiles) : Prop :=
  match attachments m with
  | Some (a :: atts) => mf_md r = None ∧ length (mf_files r) ≤ length (a :: atts)
  | _ => mf_md r = md m ∧ mf_files r = []
  end.

Definition is_file_attachment (a : Attachment) : bool :=
  bool_decide (type a = Some "file").

(** All the characters of a string satisfy a test. *)
Fixpoint string_forall (p : ascii → bool) (s : string) : bool :=
  match s with
  | EmptyString => true
  | String c s' => p c && string_forall p s'
  end.

(** No line terminator starts anywhere in the string. *)
Fixpoint no_line_terminator (s : string) : bool :=
  match s with
  | EmptyString => true
  | String _ s' => negb (is_line_terminator s) && no_line_terminator s'
  end.

(** The string is on one line: it holds none of LF, CR, U+2028, U+2029. *)
Definition one_line (s : string) : Prop := no_line_terminator s = true.

Definition no_slash (s : string) : Prop :=
  string_forall (λ c, negb (Ascii.eqb c "/"%char)) s = true.

(** The time zone of the report as a function of the settings. *)
Definition expected_timezone (svc : Services) (user : option User) : string :=
  let mode := svc_settings svc "Default_Timezone_For_Reporting" in
  if String.eqb mode "custom" then svc_settings svc "Default_Custom_Timezone"
  else if String.eqb mode "user" then
    match user ≫= utcOffset with
    | Some offset =>
        if (offset =? 0)%Z then svc_guessTimezone svc
        else svc_guessTimezoneFromOffset svc offset
    | None => svc_guessTimezone svc
    end
  else svc_guessTimezone svc.

(** The payload of the renderer for a job on a room, when every collaborator
    answers: the visitor and the agent of the room as the store has them,
    the messages of the room without the closing one, by timestamp, each
    resolved, the settings and the translations. *)
Definition expected_data (svc : Services) (details : WorkDetailsWithSource) (w : World)
    (room : Room) : WorkerData :=
  {| siteName := svc_settings svc "Site_Name";
     visitor := v room ≫= (λ id, visitors w !! id);
     agent := servedBy room ≫= (λ id, users w !! id);
     wd_closedAt := closedAt room;
     wd_messages :=
       map (resolved svc (userId details) (uploads w))
           (sort_by_ts (List.filter (is_livechat_message_without_closing (room_id room))
                                    (messages w)));
     timezone := expected_timezone svc (servedBy room ≫= (λ id, users w !! id));
     dateFormat := svc_settings svc "Message_DateFormat";
     timeAndDateFormat := svc_settings svc "Message_TimeAndDateFormat";
     translations :=
       map (λ key, (key, svc_translateToServerLanguage svc key)) translation_keys |}.

Definition expected_stream (svc : Services) (template : string)
    (details : WorkDetailsWithSource) (w : World) (room : Room) : RenderStream :=
  {| rs_details := details;
     rs_data := expected_data svc details w room;
     rs_transcriptText := svc_translateToServerLanguage svc "Transcript";
     rs_chunks := svc_renderToStream svc template (expected_data svc details w room) |}.

(** No call will throw and the state is that of [w0]. *)
Definition steady (w0 w : World) : Prop :=
  resolving (uploads w0) w ∧ same_state w0 w.

(** The installation with a pending room, no fault, and tasks that complete
    out of order. *)
Definition shuffled_world : World := world_of pending_room [] [2; 0; 1].

(** * Proofs *)

(** ** Rules for the combinators *)

Section Rules.

Context (I : World → Prop).

Lemma triple_ret {A} (a : A) (P : A → Prop) E : P a → triple I (ret a) P E.
Proof. intros Ha w Hw. by simpl. Qed.

Lemma triple_throw {A} (e : Error) (P : A → Prop) (E : Error → Prop) :
  E e → triple I (throw e) P E.
Proof. intros He w Hw. by simpl. Qed.

Lemma triple_gets {A} (f : World → A) (P : A → Prop) E :
  (∀ w, I w → P (f w)) → triple I (gets f) P E.
Proof. intros Hf w Hw. simpl. auto. Qed.

Lemma triple_modify (f : World → World) (P : unit → Prop) E :
  (∀ w, I w → I (f w)) → P tt → triple I (modify f) P E.
Proof. intros Hf Hp w Hw. simpl. auto. Qed.

Lemma triple_bind {A B} (m : M A) (k : A → M B) (P : A → Prop) (Q : B → Prop) E :
  triple I m P E → (∀ a, P a → triple I (k a) Q E) → triple I (bind m k) Q E.
Proof.
  intros Hm Hk w Hw. unfold bind. specialize (Hm w Hw).
  destruct (m w) as [[a|e] w1]; [|done].
  destruct Hm as [Hw1 Ha]. by apply Hk.
Qed.

Lemma triple_weaken {A} (m : M A) (P P' : A → Prop) (E E' : Error → Prop) :
  triple I m P E → (∀ a, P a → P' a) → (∀ e, E e → E' e) → triple I m P' E'.
Proof.
  intros Hm HP HE w Hw. specialize (Hm w Hw).
  destruct (m w) as [[a|e] w1]; destruct Hm; auto.
Qed.

Lemma triple_try_catch {A} (body : M A) (handler : Error → M A)
    (P : A → Prop) (E1 E : Error → Prop) :
  triple I body P E1 → (∀ e, E1 e → triple I (handler e) P E) →
  triple I (try_catch body handler) P E.
Proof.
  intros Hb Hh w Hw. unfold try_catch. specialize (Hb w Hw).
  destruct (body w) as [[a|e] w1]; [done|].
  destruct Hb as [Hw1 He]. by apply Hh.
Qed.

Lemma triple_try_finally {A} (body : M A) (fin : M unit) (P : A → Prop) E :
  triple I body P E → triple I fin (λ _, True) E → triple I (try_finally body fin) P E.
Proof.
  intros Hb Hf w Hw. unfold try_finally. specialize (Hb w Hw).
  destruct (body w) as [r w1].
  assert (I w1) as Hw1 by (destruct r; tauto).
  specialize (Hf w1 Hw1). destruct (fin w1) as [[[]|e] w2]; [|done].
  destruct r; tauto.
Qed.

Lemma triple_settle {A} (m : M A) (P : A → Prop) (E E' : Error → Prop) :
  triple I m P E →
  triple I (settle m) (λ r, match r with Ok a => P a | Err e => E e end) E'.
Proof.
  intros Hm w Hw. unfold settle. specialize (Hm w Hw).
  destruct (m w) as [[a|e] w1]; tauto.
Qed.

(** *** Completion orders are permutations *)

Lemma insert_at_perm {A} (k : nat) (x : A) (l : list A) : insert_at k x l ≡ₚ x :: l.
Proof.
  revert k. induction l as [|y l IH]; intros [|k]; simpl; try done.
  rewrite IH. apply Permutation_swap.
Qed.

Lemma completion_order_perm (ks ids : list nat) : completion_order ks ids ≡ₚ ids.
Proof.
  revert ks. induction ids as [|i ids IH]; intros ks; simpl; [done|].
  rewrite insert_at_perm. by rewrite IH.
Qed.

Lemma insert_at_middle {A} (x : A) (l1 l2 : list A) :
  insert_at (length l1) x (l1 ++ l2) = l1 ++ x :: l2.
Proof.
  induction l1 as [|y l1 IH]; simpl; [by destruct l2|]. by rewrite IH.
Qed.

(** Every order of completion is the one of some script. *)
Lemma completion_order_complete (ids order : list nat) :
  order ≡ₚ ids → ∃ ks, length ks = length ids ∧ completion_order ks ids = order.
Proof.
  revert order. induction ids as [|i ids IH]; intros order Hperm.
  { apply Permutation_nil_r in Hperm as ->. by exists []. }
  assert (i ∈ order) as Hi by (rewrite Hperm; by left).
  apply list_elem_of_split in Hi as (l1 & l2 & ->).
  symmetry in Hperm. apply Permutation_cons_app_inv in Hperm.
  destruct (IH (l1 ++ l2)) as (ks & Hlen & Hks); [by symmetry|].
  exists (length l1 :: ks). split; [by simpl; rewrite Hlen|].
  simpl. rewrite Hks. apply insert_at_middle.
Qed.

Lemma completion_order_default (ids : list nat) : completion_order [] ids = ids.
Proof. induction ids as [|i ids IH]; simpl; [done|]. by rewrite IH. Qed.

(** *** Running the tasks of a [Promise.all] *)

Lemma run_tasks_spec {A} (E : Error → Prop) (P : nat → A → Prop) (tasks : list (M A)) :
  (∀ i task, tasks !! i = Some task → triple I task (P i) E) →
  ∀ order w, I w → Forall (λ i, i < length tasks) order →
    match run_tasks tasks order w with
    | (rs, w') =>
        I w' ∧ rs.*1 = order ∧
        Forall (λ ir, match ir.2 with Ok a => P ir.1 a | Err e => E e end) rs
    end.
Proof.
  intros Htasks order. induction order as [|i order IH]; intros w Hw Hlt; cbn [run_tasks].
  { by repeat split. }
  apply Forall_cons in Hlt as [Hi Hlt].
  destruct (lookup_lt_is_Some_2 tasks i Hi) as [task Htask].
  unfold M in *. rewrite Htask.
  pose proof (Htasks i task Htask w Hw) as Hrun.
  destruct (task w) as [r w1].
  assert (I w1) as Hw1 by (destruct r; tauto).
  specialize (IH w1 Hw1 Hlt). destruct (run_tasks tasks order w1) as [rs w2].
  destruct IH as (Hw2 & Hfst & Hall). repeat split; [done|by simpl; f_equal|].
  constructor; [|done]. simpl. destruct r; tauto.
Qed.

Lemma first_rejection_Some {A} (rs : list (nat * Result A)) (e : Error) :
  first_rejection rs = Some e → ∃ i, (i, Err e) ∈ rs.
Proof.
  induction rs as [|[i [a|e']] rs IH]; simpl; intros H; [done|..].
  - destruct (IH H) as [j Hj]. exists j. by right.
  - injection H as ->. exists i. by left.
Qed.

Lemma first_rejection_None {A} (rs : list (nat * Result A)) :
  first_rejection rs = None → Forall (λ ir, ∃ a, ir.2 = Ok a) rs.
Proof.
  induction rs as [|[i [a|e']] rs IH]; simpl; intros H; [done| |done].
  constructor; [by exists a|by apply IH].
Qed.

Lemma outcome_of_elem {A} (i : nat) (rs : list (nat * Result A)) :
  i ∈ rs.*1 → ∃ r, outcome_of i rs = Some r ∧ (i, r) ∈ rs.
Proof.
  induction rs as [|[j r] rs IH]; simpl; intros Hi.
  { by apply elem_of_nil in Hi. }
  destruct (Nat.eqb_spec i j) as [->|Hne].
  - exists r. split; [done|by left].
  - apply elem_of_cons in Hi as [?|Hi]; [done|].
    destruct (IH Hi) as (r' & Hr' & Hin). exists r'. split; [done|by right].
Qed.

Lemma omap_Forall2 {A B} (f : A → option B) (R : A → B → Prop) (l : list A) :
  (∀ x, x ∈ l → ∃ y, f x = Some y ∧ R x y) → Forall2 R l (omap f l).
Proof.
  induction l as [|x l IH]; intros H; simpl; [constructor|].
  destruct (H x) as (y & -> & Hy); [by left|].
  constructor; [done|]. apply IH. intros x' Hx'. apply H. by right.
Qed.

Lemma triple_promise_all {A} (E : Error → Prop) (P : nat → A → Prop) (tasks : list (M A)) :
  (∀ n w, I w → I (set_picks (drop n) w)) →
  (∀ i task, tasks !! i = Some task → triple I task (P i) E) →
  triple I (promise_all tasks) (λ l, Forall2 P (seq 0 (length tasks)) l) E.
Proof.
  intros Hpicks Htasks w Hw. unfold promise_all.
  set (n := length tasks).
  set (order := completion_order (take n (picks w)) (seq 0 n)).
  assert (order ≡ₚ seq 0 n) as Hperm by apply completion_order_perm.
  assert (Forall (λ i, i < length tasks) order) as Hlt.
  { apply Forall_forall. intros i Hi. rewrite Hperm in Hi.
    apply elem_of_seq in Hi. fold n. lia. }
  pose proof (run_tasks_spec E P tasks Htasks order _ (Hpicks n w Hw) Hlt) as Hrun.
  destruct (run_tasks tasks order (set_picks (drop n) w)) as [rs w1].
  destruct Hrun as (Hw1 & Hfst & Hall).
  destruct (first_rejection rs) as [e|] eqn:Hrej.
  - split; [done|]. apply first_rejection_Some in Hrej as [i Hi].
    rewrite Forall_forall in Hall. apply (Hall _ Hi).
  - split; [done|]. apply omap_Forall2. intros i Hi.
    rewrite <- Hperm, <- Hfst in Hi.
    destruct (outcome_of_elem i rs Hi) as (r & Hr & Hin).
    apply first_rejection_None in Hrej.
    rewrite Forall_forall in Hall, Hrej.
    destruct (Hrej _ Hin) as [a Ha]. simpl in Ha. subst r.
    exists a. split; [unfold fulfilled; by rewrite Hr|].
    apply (Hall _ Hin).
Qed.

Lemma triple_promise_all_map {A B} (E : Error → Prop) (R : A → B → Prop)
    (f : A → M B) (xs : list A) :
  (∀ n w, I w → I (set_picks (drop n) w)) →
  (∀ x, x ∈ xs → triple I (f x) (R x) E) →
  triple I (promise_all (map f xs)) (λ l, Forall2 R xs l) E.
Proof.
  intros Hpicks Hf.
  eapply triple_weaken;
    [apply (triple_promise_all E (λ i b, ∀ x, xs !! i = Some x → R x b)); [done|]|..].
  - intros i task Hi. rewrite list_lookup_fmap in Hi.
    destruct (xs !! i) as [x|] eqn:Hx; [|done]. injection Hi as <-.
    eapply triple_weaken; [apply Hf; by eapply list_elem_of_lookup_2|..]; [|done].
    intros b Hb x' Hx'. by injection Hx' as <-.
  - intros l Hl. rewrite length_map in Hl.
    apply Forall2_same_length_lookup. split.
    + apply Forall2_length in Hl. by rewrite length_seq in Hl.
    + intros i x b Hx Hb.
      assert (seq 0 (length xs) !! i = Some i) as Hi.
      { apply lookup_lt_Some in Hx. by rewrite lookup_seq_lt. }
      eapply (Forall2_lookup_lr _ _ _ _ _ _ Hl Hi Hb), Hx.
  - done.
Qed.

Lemma triple_promise_all2 {A B} (a : M A) (b : M B) (P : A → Prop) (Q : B → Prop) E :
  (∀ n w, I w → I (set_picks (drop n) w)) →
  triple I a P E → triple I b Q E →
  triple I (promise_all2 a b) (λ ab, P ab.1 ∧ Q ab.2) E.
Proof.
  intros Hpicks Ha Hb w Hw. unfold promise_all2.
  pose proof (Hpicks 1 w Hw) as Hw0.
  destruct (Nat.even (hd 0 (picks w))).
  - specialize (Ha _ Hw0). destruct (a (set_picks (drop 1) w)) as [ra w1].
    assert (I w1) as Hw1 by (destruct ra; tauto).
    specialize (Hb _ Hw1). destruct (b w1) as [rb w2].
    destruct ra, rb; simpl; tauto.
  - specialize (Hb _ Hw0). destruct (b (set_picks (drop 1) w)) as [rb w1].
    assert (I w1) as Hw1 by (destruct rb; tauto).
    specialize (Ha _ Hw1). destruct (a w1) as [ra w2].
    destruct ra, rb; simpl; tauto.
Qed.

End Rules.

(** ** Invariants of the service

    Whatever holds of the world and is not disturbed by the writes of the
    collaborators holds throughout a method; [E] collects the errors that
    may come out: at least those the collaborators throw. *)

Create HintDb triples.

Ltac triple_go :=
  repeat first
    [ solve [eauto with triples]
    | apply triple_ret; done
    | apply triple_throw; done
    | (eapply (triple_bind _ _ _ (λ _, True)); [|intros ? _])
    | match goal with
      | |- triple _ (if ?b then _ else _) _ _ => destruct b
      | |- triple _ (match ?x with _ => _ end) _ _ => destruct x
      end ].

Lemma first_description_find (atts : list Attachment) :
  List.find (λ a, truthy (description a)) atts ≫= description = first_description atts.
Proof.
  induction atts as [|a atts IH]; simpl; [done|].
  destruct (description a) as [d|] eqn:Hd; simpl; [|done].
  destruct (String.eqb d ""); simpl; [done|by rewrite Hd].
Qed.

Lemma first_description_truthy (atts : list Attachment) (d : string) :
  first_description atts = Some d → String.eqb d "" = false.
Proof.
  induction atts as [|a atts IH]; simpl; [done|].
  destruct (description a) as [d'|]; [|done].
  destruct (String.eqb d' "") eqn:Hd'; [done|]. by intros [= <-].
Qed.

Lemma message_text_expected (m : Message) (atts : list Attachment) :
  attachments m = Some atts → message_text m atts = expected_text m.
Proof.
  intros Hatts. unfold message_text, expected_text. rewrite Hatts. simpl.
  rewrite first_description_find. unfold or_else. simpl.
  destruct (String.eqb (msg m) "") eqn:Hmsg; simpl; [|by rewrite Hmsg].
  destruct (first_description atts) as [d|] eqn:Hd; simpl; [|done].
  by rewrite (first_description_truthy atts d Hd).
Qed.

Lemma expected_text_no_attachment (m : Message) :
  absent (attachments m) || Nat.eqb (length (default [] (attachments m))) 0 = true →
  expected_text m = msg m.
Proof.
  unfold expected_text. destruct (attachments m) as [[|a atts]|]; simpl; try done;
    destruct (String.eqb_spec (msg m) ""); congruence.
Qed.

Section Invariant.

Context (svc : Services) (I : World → Prop) (E : Error → Prop).

Hypothesis I_faults : ∀ w, I w → I (set_faults tail w).
Hypothesis I_picks : ∀ n w, I w → I (set_picks (drop n) w).
Hypothesis I_logs : ∀ f w, I w → I (set_logs f w).
Hypothesis I_effects : ∀ f w, I w → I (set_effects f w).
Hypothesis I_rooms : ∀ f w, I w → I (set_rooms f w).
Hypothesis I_uploads : ∀ f w, I w → I (set_uploads f w).
Hypothesis I_streams : ∀ f w, I w → I (set_streams f w).
Hypothesis E_fault : ∀ w e, I w → head (faults w) = Some (Some e) → E e.
Hypothesis E_room : E RoomNotFound.

Lemma external_triple : triple I external (λ _, True) E.
Proof.
  intros w Hw. unfold external.
  destruct (head (faults w)) as [[e|]|] eqn:Hhead; simpl; eauto.
Qed.

Lemma log_log_triple line : triple I (log_log line) (λ _, True) E.
Proof. apply triple_modify; auto. Qed.

Lemma log_error_triple line : triple I (log_error line) (λ _, True) E.
Proof. apply triple_modify; auto. Qed.

Lemma log_debug_triple line : triple I (log_debug line) (λ _, True) E.
Proof. apply triple_modify; auto. Qed.

Lemma log_error_obj_triple line err E' : triple I (log_error_obj line err) (λ _, True) E'.
Proof. apply triple_modify; auto. Qed.

Lemma journal_triple e : triple I (journal e) (λ _, True) E.
Proof. apply triple_modify; auto. Qed.

Local Hint Resolve external_triple log_log_triple log_error_triple log_debug_triple
  log_error_obj_triple journal_triple : triples.
Local Hint Extern 1 (triple _ (gets _) _ _) => (apply triple_gets; done) : triples.
Local Hint Extern 1 (triple _ (modify _) _ _) => (apply triple_modify; auto) : triples.

Lemma LivechatRooms_findOneById_triple id :
  triple I (LivechatRooms_findOneById id) (λ _, True) E.
Proof. unfold LivechatRooms_findOneById. triple_go. Qed.

Lemma setTranscriptRequested_triple id :
  triple I (LivechatRooms_setTranscriptRequestedPdfById id) (λ _, True) E.
Proof. unfold LivechatRooms_setTranscriptRequestedPdfById. triple_go. Qed.

Lemma unsetTranscriptRequested_triple id :
  triple I (LivechatRooms_unsetTranscriptRequestedPdfById id) (λ _, True) E.
Proof. unfold LivechatRooms_unsetTranscriptRequestedPdfById. triple_go. Qed.

Lemma setPdfTranscriptFileId_triple id fileId :
  triple I (LivechatRooms_setPdfTranscriptFileIdById id fileId) (λ _, True) E.
Proof. unfold LivechatRooms_setPdfTranscriptFileIdById. triple_go. Qed.

Lemma Users_findOneById_triple id : triple I (Users_findOneById id) (λ _, True) E.
Proof. unfold Users_findOneById. triple_go. Qed.

Lemma Users_findOneAgentById_triple id : triple I (Users_findOneAgentById id) (λ _, True) E.
Proof. unfold Users_findOneAgentById. triple_go. Qed.

Lemma LivechatVisitors_findOneById_triple id :
  triple I (LivechatVisitors_findOneById id) (λ _, True) E.
Proof. unfold LivechatVisitors_findOneById. triple_go. Qed.

Lemma Uploads_findOneById_triple id : triple I (Uploads_findOneById id) (λ _, True) E.
Proof. unfold Uploads_findOneById. triple_go. Qed.

Lemma getMessagesFromRoom_triple room : triple I (getMessagesFromRoom room) (λ _, True) E.
Proof. unfold getMessagesFromRoom, Messages_findLivechatMessagesWithoutClosing. triple_go. Qed.

Lemma queueWork_triple queue handler template details :
  triple I (queueService_queueWork queue handler template details) (λ _, True) E.
Proof. unfold queueService_queueWork. triple_go. Qed.

Lemma sendMessage_triple fromId room text :
  triple I (messageService_sendMessage fromId room text) (λ _, True) E.
Proof. unfold messageService_sendMessage. triple_go. Qed.

Lemma sendFileMessage_triple roomId sender file text :
  triple I (uploadService_sendFileMessage roomId sender file text) (λ _, True) E.
Proof. unfold uploadService_sendFileMessage. triple_go. Qed.

Lemma createDirectMessage_triple to sender :
  triple I (messageService_createDirectMessage svc to sender) (λ _, True) E.
Proof. unfold messageService_createDirectMessage. triple_go. Qed.

Lemma getFileBuffer_triple user file :
  triple I (uploadService_getFileBuffer svc user file) (λ _, True) E.
Proof. unfold uploadService_getFileBuffer. triple_go. Qed.

Lemma uploadFile_triple user content details :
  triple I (uploadService_uploadFile svc user content details) (λ _, True) E.
Proof. unfold uploadService_uploadFile. triple_go. Qed.

Lemma translateToServerLanguage_triple key :
  triple I (translationService_translateToServerLanguage svc key) (λ _, True) E.
Proof. unfold translationService_translateToServerLanguage. triple_go. Qed.

Lemma translate_triple key user :
  triple I (translationService_translate svc key user) (λ _, True) E.
Proof. unfold translationService_translate. triple_go. Qed.

Lemma settingsService_get_triple key : triple I (settingsService_get svc key) (λ _, True) E.
Proof. unfold settingsService_get. triple_go. Qed.

Lemma renderToStream_triple template data :
  triple I (worker_renderToStream svc template data) (λ _, True) E.
Proof. unfold worker_renderToStream. triple_go. Qed.

Local Hint Resolve LivechatRooms_findOneById_triple setTranscriptRequested_triple
  unsetTranscriptRequested_triple setPdfTranscriptFileId_triple Users_findOneById_triple
  Users_findOneAgentById_triple LivechatVisitors_findOneById_triple
  Uploads_findOneById_triple getMessagesFromRoom_triple queueWork_triple
  sendMessage_triple sendFileMessage_triple createDirectMessage_triple
  getFileBuffer_triple uploadFile_triple translateToServerLanguage_triple
  translate_triple settingsService_get_triple renderToStream_triple : triples.

Lemma getTimezone_triple user : triple I (getTimezone svc user) (λ _, True) E.
Proof. unfold getTimezone. triple_go. Qed.

Lemma getFiles_attachment_triple user message attachment :
  triple I (getFiles_attachment svc user message attachment) (λ _, True) E.
Proof. unfold getFiles_attachment. triple_go. Qed.

Lemma getFiles_message_triple user message :
  triple I (getFiles_message svc user message) (keeps message) E.
Proof.
  unfold getFiles_message.
  destruct (absent (attachments message)
            || Nat.eqb (length (default [] (attachments message))) 0) eqn:Hnone.
  - apply triple_ret. unfold keeps. simpl.
    by rewrite expected_text_no_attachment.
  - eapply (triple_bind _ _ _ (λ _, True)).
    + eapply triple_weaken;
        [apply (triple_promise_all_map I E (λ _ _, True)); [done|]|done..].
      intros a _. apply getFiles_attachment_triple.
    + intros resolved _. apply triple_ret. unfold keeps. simpl.
      repeat split. apply message_text_expected.
      destruct (attachments message); [done|discriminate].
Qed.

Lemma getFiles_triple user msgs :
  triple I (getFiles svc user msgs) (λ out, Forall2 keeps msgs out) E.
Proof.
  unfold getFiles. apply triple_promise_all_map; [done|].
  intros m _. apply getFiles_message_triple.
Qed.

Lemma getTranslations_triple : triple I (getTranslations svc) (λ _, True) E.
Proof.
  unfold getTranslations.
  eapply triple_weaken; [apply (triple_promise_all_map I E (λ _ _, True)); [done|]|done..].
  intros key _. triple_go.
Qed.

Lemma pdfFailed_triple details e : triple I (pdfFailed svc details e) (λ _, True) E.
Proof. unfold pdfFailed. triple_go. Qed.

Lemma pdfComplete_triple details file : triple I (pdfComplete svc details file) (λ _, True) E.
Proof.
  unfold pdfComplete. triple_go.
  eapply (triple_try_catch _ _ _ _ E); [|intros err _; triple_go].
  eapply (triple_bind _ _ _ (λ _, True)).
  { eapply triple_weaken; [apply (triple_promise_all2 I); [done|..]|done..];
      eauto with triples. }
  intros both _.
  eapply (triple_bind _ _ _ (λ _, True)); [eauto with triples|intros _ _].
  eapply (triple_bind _ _ _ (λ _, True)); [eauto with triples|intros text1 _].
  eapply (triple_bind _ _ _ (λ r, match r with Ok _ => True | Err e => E e end)).
  { apply triple_settle, sendFileMessage_triple. }
  intros sent1 Hsent1.
  eapply (triple_bind _ _ _ (λ _, True)); [eauto with triples|intros text2 _].
  eapply (triple_bind _ _ _ (λ r, match r with Ok _ => True | Err e => E e end)).
  { apply triple_settle, sendFileMessage_triple. }
  intros sent2 Hsent2.
  destruct sent1, sent2; simpl; (by apply triple_ret) || (by apply triple_throw).
Qed.

Lemma doRender_triple template data details :
  triple I (doRender svc template data details) (λ _, True) E.
Proof. unfold doRender. triple_go. Qed.

Lemma doRender_end_triple stream : triple I (doRender_end svc stream) (λ _, True) E.
Proof.
  unfold doRender_end.
  eapply (triple_try_catch _ _ _ _ E).
  - eapply (triple_bind _ _ _ (λ _, True)).
    + apply uploadFile_triple.
    + intros file _. apply pdfComplete_triple.
  - intros e _. apply pdfFailed_triple.
Qed.

Lemma workOnPdf_body_triple template details :
  triple I (workOnPdf_body svc template details) (λ _, True) E.
Proof.
  unfold workOnPdf_body.
  eapply (triple_bind _ _ _ (λ _, True)); [eauto with triples|intros [room|] _].
  2: { by apply triple_throw. }
  eapply (triple_bind _ _ _ (λ _, True)); [eauto with triples|intros msgs _].
  eapply (triple_bind _ _ _ (λ _, True)).
  { destruct (v room); [eauto with triples|by apply triple_ret]. }
  intros visitor _.
  eapply (triple_bind _ _ _ (λ _, True)).
  { destruct (servedBy room); [eauto with triples|by apply triple_ret]. }
  intros agent _.
  eapply (triple_bind _ _ _ (λ _, True)).
  { eapply triple_weaken; [apply getFiles_triple|done..]. }
  intros messagesFiles _.
  eapply (triple_bind _ _ _ (λ _, True)).
  { eapply triple_weaken; [apply (triple_promise_all I E (λ _ _, True)); [done|]|done..].
    intros i task Hi.
    assert (getTimezone_triple' := getTimezone_triple).
    assert (getTranslations_triple' := getTranslations_triple).
    destruct i as [|[|[|[|[|i]]]]]; simpl in Hi; try done;
      injection Hi as <-; triple_go. }
  intros settings _. apply doRender_triple.
Qed.

Lemma workOnPdf_guarded_triple template details :
  triple I (workOnPdf_guarded svc template details) (λ _, True) E.
Proof.
  unfold workOnPdf_guarded.
  eapply (triple_try_catch _ _ _ _ E).
  - apply workOnPdf_body_triple.
  - intros e _. apply pdfFailed_triple.
Qed.

End Invariant.

(** ** Calls that answer *)

Lemma external_ok (w : World) :
  calls_succeed 1 w → external w = (Ok tt, set_faults tail w).
Proof.
  unfold calls_succeed, external. destruct (faults w) as [|[e|] fs]; simpl; try done.
  intros H. by apply Forall_cons in H as [? _].
Qed.

Lemma external_throws (w : World) (e : Error) :
  head (faults w) = Some (Some e) → external w = (Err e, set_faults tail w).
Proof. unfold external. by intros ->. Qed.

Lemma calls_succeed_S (n : nat) (w : World) :
  calls_succeed (S n) w → calls_succeed 1 w ∧ calls_succeed n (set_faults tail w).
Proof.
  unfold calls_succeed. simpl. destruct (faults w) as [|f fs]; simpl.
  { by rewrite take_nil. }
  intros H. apply Forall_cons in H as [-> H]. split; [|done].
  constructor; [done|]. by rewrite take_0.
Qed.

Lemma calls_succeed_le (n k : nat) (w : World) :
  k ≤ n → calls_succeed n w → calls_succeed k w.
Proof.
  unfold calls_succeed. intros Hle H.
  rewrite <- (Nat.min_l k n Hle), <- take_take. by apply Forall_take.
Qed.

(** ** Symbolic runs *)

Ltac unfold_methods :=
  unfold LivechatRooms_findOneById, LivechatRooms_setTranscriptRequestedPdfById,
    LivechatRooms_unsetTranscriptRequestedPdfById, LivechatRooms_setPdfTranscriptFileIdById,
    Users_findOneById, Users_findOneAgentById, LivechatVisitors_findOneById,
    Uploads_findOneById, getMessagesFromRoom, Messages_findLivechatMessagesWithoutClosing,
    queueService_queueWork, messageService_sendMessage, uploadService_sendFileMessage,
    messageService_createDirectMessage, uploadService_getFileBuffer,
    uploadService_uploadFile, translationService_translateToServerLanguage,
    translationService_translate, settingsService_get, worker_renderToStream,
    journal, log_log, log_error, log_debug, log_error_obj,
    bind, gets, modify, ret, throw, settle, try_catch;
  cbn beta iota.

Ltac world_simpl :=
  cbn [rooms users visitors messages uploads streams effects logs
       maxNumberOfConcurrentJobs currentJobNumber faults picks
       set_rooms set_uploads set_streams set_effects set_logs
       set_currentJobNumber set_faults set_picks fst snd].

(** One collaborator call that answers. *)
Ltac call_ok H :=
  let H1 := fresh "Hcall" in
  let H2 := fresh "Hrest" in
  apply calls_succeed_S in H as [H1 H2];
  rewrite external_ok by exact H1; clear H1; rename H2 into H;
  cbn beta iota.

(** Running through calls whose outcomes are listed. *)
Ltac run_script Hfaults :=
  unfold external;
  repeat (world_simpl; rewrite Hfaults; cbn [head tail]; cbn beta iota);
  world_simpl.

(** ** Request intake *)

Lemma requestTranscript_lookup (details : WorkDetails) (w : World) :
  calls_succeed 1 w →
  requestTranscript details w =
  match rooms w !! wd_rid details with
  | None => throw (mkError "room-not-found")
  | Some room =>
      if open room then throw (mkError "room-still-open")
      else if absent (servedBy room) || absent (v room) then
        throw (mkError "improper-room-state")
      else if pdfTranscriptRequested room then
        log_log ("Transcript already requested for room " +:+ wd_rid details)
      else
        LivechatRooms_setTranscriptRequestedPdfById (wd_rid details) >>
        log_log ("Queuing work for room " +:+ wd_rid details) >>
        queueService_queueWork "work" (service_name +:+ ".workOnPdf") "omnichannel-transcript"
          {| userId := wd_userId details; rid := wd_rid details; from := service_name |}
  end (set_faults tail
         (set_logs (λ ls, ls ++ [LogLog ("Requesting transcript for room "
                                         +:+ wd_rid details +:+ " by user "
                                         +:+ wd_userId details)]) w)).
Proof.
  intros Hcalls. unfold requestTranscript, LivechatRooms_findOneById, bind at 1 2 3.
  unfold log_log at 1. unfold modify at 1. cbn beta iota.
  rewrite external_ok by done. by unfold gets.
Qed.

(** C1. [requestTranscript] fails with [RoomNotFound] when the room does
    not exist, with [RoomStillOpen] when the room is open, and with
    [InvalidRoomState] when the (closed) room has no serving agent or no
    visitor; the checks are made in this order on the answer of the store.
    In each of these cases nothing is enqueued and the room, like all the
    rest of the state, is left as it was. *)
Theorem requestTranscript_validation (details : WorkDetails) (w : World) :
  calls_succeed 1 w →
  let r := (requestTranscript details w).1 in
  let w' := (requestTranscript details w).2 in
  (rooms w !! wd_rid details = None → r = Err RoomNotFound ∧ same_state w w') ∧
  (∀ room, rooms w !! wd_rid details = Some room → open room = true →
     r = Err RoomStillOpen ∧ same_state w w') ∧
  (∀ room, rooms w !! wd_rid details = Some room → open room = false →
     servedBy room = None ∨ v room = None →
     r = Err InvalidRoomState ∧ same_state w w').
Proof.
  intros Hcalls. cbv zeta. rewrite requestTranscript_lookup by done.
  split; [|split].
  - intros ->. by repeat split.
  - intros room -> ->. by repeat split.
  - intros room -> -> Hmissing.
    assert (absent (servedBy room) || absent (v room) = true) as ->.
    { destruct Hmissing as [-> | ->]; [done|]. by destruct (servedBy room). }
    by repeat split.
Qed.

Lemma requestTranscript_validation_witness :
  calls_succeed 1 (world_of open_room [] []) ∧
  (requestTranscript request_1 (world_of open_room [] [])).1 = Err RoomStillOpen ∧
  same_state (world_of open_room [] [])
    (requestTranscript request_1 (world_of open_room [] [])).2.
Proof.
  assert (calls_succeed 1 (world_of open_room [] [])) as Hcalls by (by vm_compute).
  split; [exact Hcalls|].
  destruct (requestTranscript_validation request_1 _ Hcalls) as (_ & Hopen & _).
  apply (Hopen open_room); reflexivity.
Defined.

Example requestTranscript_rejections :
  (requestTranscript {| wd_rid := "room-9"; wd_userId := "agent-1" |}
     (world_of closed_room [] [])).1 = Err RoomNotFound ∧
  (requestTranscript request_1 (world_of unserved_room [] [])).1 = Err InvalidRoomState ∧
  effects (requestTranscript request_1 (world_of unserved_room [] [])).2 = [] ∧
  (requestTranscript request_1 (world_of closed_room [Some (mkError "down")] [])).1
  = Err (mkError "down").
Proof. repeat split; by vm_compute. Qed.

Lemma requestTranscript_pending (details : WorkDetails) (w : World) (room : Room) :
  calls_succeed 1 w →
  rooms w !! wd_rid details = Some room →
  open room = false → is_Some (servedBy room) → is_Some (v room) →
  pdfTranscriptRequested room = true →
  (requestTranscript details w).1 = Ok tt ∧
  same_state w (requestTranscript details w).2.
Proof.
  intros Hcalls Hroom Hclosed [agent Hagent] [visitor Hvisitor] Hpending.
  rewrite requestTranscript_lookup by done.
  rewrite Hroom, Hclosed, Hagent, Hvisitor, Hpending. by repeat split.
Qed.

Lemma requestTranscript_marks (first : WorkDetails) (w0 w : World) :
  requestTranscript first w0 = (Ok tt, w) →
  ∃ room, rooms w !! wd_rid first = Some room ∧ open room = false ∧
          is_Some (servedBy room) ∧ is_Some (v room) ∧
          pdfTranscriptRequested room = true.
Proof.
  unfold requestTranscript, LivechatRooms_findOneById, bind at 1 2 3.
  unfold log_log at 1. unfold modify at 1. cbn beta iota.
  unfold external at 1. unfold throw. world_simpl.
  destruct (head (faults w0)) as [[e|]|]; cbn beta iota; try done;
    unfold gets; cbn beta iota; world_simpl.
  all: destruct (rooms w0 !! wd_rid first) as [room|] eqn:Hroom; [|done].
  all: destruct (open room) eqn:Hopen; [done|].
  all: destruct (servedBy room) as [agent|] eqn:Hagent; [|done].
  all: destruct (v room) as [visitor|] eqn:Hvisitor; [|done].
  all: cbn [absent orb].
  all: destruct (pdfTranscriptRequested room) eqn:Hpending.
  all: try (intros [= <-]; world_simpl; exists room; rewrite Hroom; by eauto 10).
  all: unfold_methods; unfold external.
  all: world_simpl.
  all: repeat match goal with
         | |- context [head ?fs] => destruct (head fs) as [[?|]|]; cbn beta iota
         end; try done.
  all: intros [= <-]; world_simpl; exists (room_with_requested true room).
  all: rewrite lookup_alter_eq, Hroom; simpl; rewrite Hagent, Hvisitor; by eauto 10.
Qed.

(** C2. A request for a room that is already flagged as pending (a closed
    room with its agent and visitor, which is what the validation lets
    through and what every room flagged by [requestTranscript] is) returns
    without error and is a no-op: the room is not marked again and nothing
    is enqueued.  In particular, after a successful request every further
    request for the same room is such a no-op. *)
Theorem requestTranscript_idempotent (details : WorkDetails) (w : World) :
  calls_succeed 1 w →
  let r := (requestTranscript details w).1 in
  let w' := (requestTranscript details w).2 in
  (∀ room, rooms w !! wd_rid details = Some room →
     open room = false → is_Some (servedBy room) → is_Some (v room) →
     pdfTranscriptRequested room = true →
     r = Ok tt ∧ same_state w w') ∧
  (∀ first w0, requestTranscript first w0 = (Ok tt, w) →
     wd_rid first = wd_rid details →
     r = Ok tt ∧ same_state w w').
Proof.
  intros Hcalls. cbv zeta. split.
  - intros room. by apply requestTranscript_pending.
  - intros first w0 Hfirst Hrid.
    destruct (requestTranscript_marks first w0 w Hfirst) as (room & Hroom & ? & ? & ? & ?).
    rewrite Hrid in Hroom. by apply (requestTranscript_pending details w room).
Qed.

Lemma requestTranscript_idempotent_witness :
  calls_succeed 1 (world_of pending_room [] []) ∧
  (requestTranscript request_1 (world_of pending_room [] [])).1 = Ok tt ∧
  same_state (world_of pending_room [] [])
    (requestTranscript request_1 (world_of pending_room [] [])).2.
Proof.
  assert (calls_succeed 1 (world_of pending_room [] [])) as Hcalls by (by vm_compute).
  split; [exact Hcalls|].
  destruct (requestTranscript_idempotent request_1 _ Hcalls) as [Hpending _].
  apply (Hpending pending_room); by (reflexivity || eexists).
Defined.

(** ** Admission control *)

(** C3. When the job counter has reached the configured maximum (25 unless
    reconfigured), [workOnPdf] fails with [Retry]; it writes its two log
    lines and does nothing else: no collaborator is called, and the
    counter, like the rest of the state, is what it was before the call. *)
Theorem workOnPdf_retry (svc : Services) (template : string)
    (details : WorkDetailsWithSource) (w : World) :
  (maxNumberOfConcurrentJobs w ≤ currentJobNumber w)%Z →
  workOnPdf svc template details w =
    (Err Retry,
     set_logs (λ ls, (ls ++ [LogLog ("Processing transcript for room " +:+ rid details
                                     +:+ " by user " +:+ userId details
                                     +:+ " - Received from queue")])
                     ++ [LogError ("Processing transcript for room " +:+ rid details
                                   +:+ " by user " +:+ userId details
                                   +:+ " - Too many concurrent jobs, queuing again")]) w) ∧
  currentJobNumber (workOnPdf svc template details w).2 = currentJobNumber w ∧
  same_state w (workOnPdf svc template details w).2 ∧
  faults (workOnPdf svc template details w).2 = faults w ∧
  maxNumberOfConcurrentJobs initial_world = 25%Z.
Proof.
  intros Hfull. unfold workOnPdf. unfold_methods. world_simpl.
  destruct (Z.leb_spec (maxNumberOfConcurrentJobs w) (currentJobNumber w)) as [_|Hlt];
    [|lia].
  by repeat split.
Qed.

Lemma workOnPdf_retry_witness :
  (maxNumberOfConcurrentJobs full_world ≤ currentJobNumber full_world)%Z ∧
  (workOnPdf demo_services "omnichannel-transcript" job_1 full_world).1 = Err Retry ∧
  currentJobNumber (workOnPdf demo_services "omnichannel-transcript" job_1 full_world).2
  = 25%Z.
Proof.
  assert (maxNumberOfConcurrentJobs full_world ≤ currentJobNumber full_world)%Z
    as Hfull by (by vm_compute).
  split; [exact Hfull|].
  destruct (workOnPdf_retry demo_services "omnichannel-transcript" job_1 full_world Hfull)
    as (Hrun & Hcounter & _).
  split; [by rewrite Hrun|exact Hcounter].
Defined.

Lemma workOnPdf_admitted (svc : Services) (template : string)
    (details : WorkDetailsWithSource) (w : World) :
  (currentJobNumber w < maxNumberOfConcurrentJobs w)%Z →
  workOnPdf svc template details w =
    ((workOnPdf_guarded svc template details (admitted details w)).1,
     set_currentJobNumber (λ n, n - 1)%Z
       (workOnPdf_guarded svc template details (admitted details w)).2).
Proof.
  intros Hfree. unfold workOnPdf, increment_jobs, decrement_jobs, try_finally.
  unfold log_log, bind, gets, modify. cbn beta iota. world_simpl.
  destruct (Z.leb_spec (maxNumberOfConcurrentJobs w) (currentJobNumber w)) as [Hfull|_];
    [lia|].
  fold (admitted details w).
  by destruct (workOnPdf_guarded svc template details (admitted details w)) as [r w2].
Qed.

(** Nothing inside the [try] and [catch] blocks touches the counter. *)
Lemma workOnPdf_guarded_counter (svc : Services) (template : string)
    (details : WorkDetailsWithSource) (w : World) :
  currentJobNumber (workOnPdf_guarded svc template details w).2 = currentJobNumber w.
Proof.
  pose proof (workOnPdf_guarded_triple svc
                (λ w', currentJobNumber w' = currentJobNumber w) (λ _, True)) as Hframe.
  specialize (Hframe ltac:(done) ltac:(done) ltac:(done) ltac:(done) ltac:(done)
                     ltac:(done) ltac:(done) I template details w eq_refl).
  destruct (workOnPdf_guarded svc template details w) as [[[]|e] w']; simpl; tauto.
Qed.

Lemma workOnPdf_releases (svc : Services) (template : string)
    (details : WorkDetailsWithSource) (w : World) :
  (currentJobNumber w < maxNumberOfConcurrentJobs w)%Z →
  currentJobNumber (workOnPdf svc template details w).2 = currentJobNumber w.
Proof.
  intros Hfree.
  pose proof (workOnPdf_guarded_counter svc template details (admitted details w)) as Hw2.
  rewrite (workOnPdf_admitted svc template details w Hfree).
  change (currentJobNumber (admitted details w)) with (currentJobNumber w + 1)%Z in Hw2.
  world_simpl. rewrite Hw2. lia.
Qed.

(** C4. An admitted [workOnPdf] increments the counter once before its
    [try] block, nothing inside the [try] and [catch] blocks changes it,
    and the [finally] block decrements it once, whatever the outcome of
    the call (a value or an error).  So the counter is back at its value
    from before the call, and was never negative if it was not before. *)
Theorem workOnPdf_counter (svc : Services) (template : string)
    (details : WorkDetailsWithSource) (w : World) :
  (currentJobNumber w < maxNumberOfConcurrentJobs w)%Z →
  let w1 := admitted details w in
  let r := (workOnPdf_guarded svc template details w1).1 in
  let w2 := (workOnPdf_guarded svc template details w1).2 in
  currentJobNumber w1 = (currentJobNumber w + 1)%Z ∧
  currentJobNumber w2 = (currentJobNumber w + 1)%Z ∧
  workOnPdf svc template details w = (r, set_currentJobNumber (λ n, n - 1)%Z w2) ∧
  currentJobNumber (workOnPdf svc template details w).2 = currentJobNumber w ∧
  ((0 ≤ currentJobNumber w)%Z →
   (0 ≤ currentJobNumber w1)%Z ∧ (0 ≤ currentJobNumber w2)%Z ∧
   (0 ≤ currentJobNumber (workOnPdf svc template details w).2)%Z).
Proof.
  intros Hfree. cbv zeta.
  pose proof (workOnPdf_guarded_counter svc template details (admitted details w)) as Hw2.
  rewrite (workOnPdf_admitted svc template details w Hfree).
  assert (currentJobNumber (admitted details w) = (currentJobNumber w + 1)%Z) as Hw1
    by done.
  rewrite Hw1 in Hw2. world_simpl. rewrite Hw2.
  repeat split; lia.
Qed.

Lemma workOnPdf_counter_witness :
  (currentJobNumber (world_of pending_room [None; Some (mkError "timeout")] [])
   < maxNumberOfConcurrentJobs (world_of pending_room [None; Some (mkError "timeout")] []))%Z ∧
  currentJobNumber
    (workOnPdf demo_services "omnichannel-transcript" job_1
       (world_of pending_room [None; Some (mkError "timeout")] [])).2 = 0%Z.
Proof.
  assert (currentJobNumber (world_of pending_room [None; Some (mkError "timeout")] [])
          < maxNumberOfConcurrentJobs
              (world_of pending_room [None; Some (mkError "timeout")] []))%Z
    as Hfree by (by vm_compute).
  split; [exact Hfree|].
  destruct (workOnPdf_counter demo_services "omnichannel-transcript" job_1 _ Hfree)
    as (_ & _ & _ & Hback & _).
  exact Hback.
Defined.

(** ** Attachment and file resolution *)

Lemma calm_tail (w : World) : calm w → calm (set_faults tail w).
Proof.
  unfold calm. simpl. destruct (faults w) as [|f fs]; simpl; [done|].
  intros H. by apply Forall_cons in H as [_ H].
Qed.

Lemma calm_head (w : World) (e : Error) : calm w → head (faults w) = Some (Some e) → False.
Proof.
  unfold calm. destruct (faults w) as [|f fs]; simpl; [done|].
  intros H [= ->]. by apply Forall_cons in H as [? _].
Qed.

Lemma calm_calls_succeed (n : nat) (w : World) : calm w → calls_succeed n w.
Proof. unfold calm, calls_succeed. apply Forall_take. Qed.

Lemma later_than_tail (w0 w : World) : later_than w0 w → later_than w0 (set_faults tail w).
Proof.
  unfold later_than. simpl. destruct (faults w) as [|f fs]; simpl; [done|].
  intros [k Hk]. exists (k ++ [f]). by rewrite <- app_assoc.
Qed.

Lemma later_than_head (w0 w : World) (e : Error) :
  later_than w0 w → head (faults w) = Some (Some e) → Some e ∈ faults w0.
Proof.
  unfold later_than. destruct (faults w) as [|f fs]; simpl; [done|].
  intros [k ->] [= ->]. apply elem_of_app. right. by left.
Qed.

Lemma later_than_refl (w : World) : later_than w w.
Proof. by exists []. Qed.

Lemma later_than_picks (w0 : World) (n : nat) (w : World) :
  later_than w0 w → later_than w0 (set_picks (drop n) w).
Proof. done. Qed.

Lemma later_than_logs (w0 : World) (f : list LogEntry → list LogEntry) (w : World) :
  later_than w0 w → later_than w0 (set_logs f w).
Proof. done. Qed.

Lemma later_than_streams (w0 : World) (f : list RenderStream → list RenderStream)
    (w : World) :
  later_than w0 w → later_than w0 (set_streams f w).
Proof. done. Qed.

Lemma Forall2_eq_map {A B} (f : A → B) (xs : list A) (l : list B) :
  Forall2 (λ x y, y = f x) xs l → l = map f xs.
Proof. induction 1 as [|x y xs l -> _ IH]; simpl; [done|]. by rewrite IH. Qed.

Lemma omap_id_map {A B} (f : A → option B) (xs : list A) :
  omap id (map f xs) = omap f xs.
Proof. induction xs as [|x xs IH]; csimpl; [done|]. rewrite IH. by destruct (f x). Qed.

(** Whatever the faults and the completion order, what [getFiles] returns
    keeps the identity, the time, the author and the text of each message,
    in the order of the messages. *)
Lemma getFiles_keeps (svc : Services) (user : string) (msgs : list Message)
    (w w' : World) (out : list MessageWithFiles) :
  getFiles svc user msgs w = (Ok out, w') → Forall2 keeps msgs out.
Proof.
  intros Hrun.
  pose proof (getFiles_triple svc (λ _, True) (λ _, True)
                ltac:(done) ltac:(done) ltac:(done) ltac:(done) user msgs w I) as H.
  rewrite Hrun in H. tauto.
Qed.

(** Whatever invariant keeps the uploads collection at [ups]: what
    [getFiles] returns, when it returns, is the list of the resolved
    messages. *)
Section Resolution.

Context (svc : Services) (user : string) (ups : gmap string Upload).
Context (I : World → Prop) (E : Error → Prop).

Hypothesis I_faults : ∀ w, I w → I (set_faults tail w).
Hypothesis I_picks : ∀ n w, I w → I (set_picks (drop n) w).
Hypothesis I_logs : ∀ f w, I w → I (set_logs f w).
Hypothesis I_uploads : ∀ w, I w → uploads w = ups.
Hypothesis E_fault : ∀ w e, I w → head (faults w) = Some (Some e) → E e.

Lemma lookup_resolution id :
  triple I (Uploads_findOneById id) (λ r, r = ups !! id) E.
Proof.
  unfold Uploads_findOneById. eapply (triple_bind _ _ _ (λ _, True)).
  - apply external_triple; [apply I_faults|apply E_fault].
  - intros _ _. apply triple_gets. intros w Hw. by rewrite (I_uploads w Hw).
Qed.

Lemma buffer_resolution file :
  triple I (uploadService_getFileBuffer svc user file)
    (λ r, r = svc_getFileBuffer svc user file) E.
Proof.
  unfold uploadService_getFileBuffer. eapply (triple_bind _ _ _ (λ _, True)).
  - apply external_triple; [apply I_faults|apply E_fault].
  - intros _ _. by apply triple_ret.
Qed.

Lemma getFiles_attachment_resolution message attachment :
  triple I (getFiles_attachment svc user message attachment)
    (λ r, r = resolved_attachment svc user ups message attachment) E.
Proof.
  assert (∀ line, triple I (log_error line) (λ _, True) E) as Hlog
    by (intros; apply log_error_triple, I_logs).
  assert (∀ file,
    triple I
      (let! uploadedFile := Uploads_findOneById (file_id file) in
       match uploadedFile with
       | None =>
           log_error ("Uploaded file " +:+ file_id file +:+ " not found in room "
                      +:+ msg_rid message +:+ "!") >>
           ret (Some {| name := Some (file_name file); buffer := None |})
       | Some uploadedFile =>
           let! fileBuffer := uploadService_getFileBuffer svc user uploadedFile in
           ret (Some {| name := Some (file_name file); buffer := Some fileBuffer |})
       end)
      (λ r, r = match ups !! file_id file with
                | None => Some {| name := Some (file_name file); buffer := None |}
                | Some uploaded =>
                    Some {| name := Some (file_name file);
                            buffer := Some (svc_getFileBuffer svc user uploaded) |}
                end) E) as Hfetch.
  { intros file. eapply triple_bind; [apply lookup_resolution|].
    intros uploaded ->. destruct (ups !! file_id file) as [uploaded|].
    - eapply triple_bind; [apply buffer_resolution|]. intros b ->. by apply triple_ret.
    - eapply (triple_bind _ _ _ (λ _, True)); [apply Hlog|]. intros _ _.
      by apply triple_ret. }
  unfold getFiles_attachment, resolved_attachment, locate_file.
  eapply (triple_bind _ _ _ (λ _, True)); [apply Hlog|intros _ _].
  destruct (negb (bool_decide (type attachment = Some "file"))).
  { eapply (triple_bind _ _ _ (λ _, True)); [apply Hlog|intros _ _]. by apply triple_ret. }
  destruct (negb (svc_isMimeTypeValid svc (image_type attachment))).
  { eapply (triple_bind _ _ _ (λ _, True)); [apply Hlog|intros _ _]. by apply triple_ret. }
  destruct (List.find _ (default [] (files message))) as [file|].
  { eapply (triple_bind _ _ _ (λ x, x = inr (Some file))); [by apply triple_ret|].
    intros located ->. apply Hfetch. }
  destruct (truthy (title_link attachment ≫= match_file_upload)); cbn [negb].
  - eapply (triple_bind _ _ _ (λ x, x = inr (Some _))).
    { eapply (triple_bind _ _ _ (λ _, True));
        [apply log_debug_triple, I_logs|intros _ _].
      by apply triple_ret. }
    intros located ->. apply Hfetch.
  - eapply (triple_bind _ _ _ (λ x, x = inl _)).
    { eapply (triple_bind _ _ _ (λ _, True));
        [apply log_debug_triple, I_logs|intros _ _].
      eapply (triple_bind _ _ _ (λ _, True)); [apply Hlog|intros _ _].
      by apply triple_ret. }
    intros located ->. by apply triple_ret.
Qed.

Lemma getFiles_message_resolution message :
  triple I (getFiles_message svc user message)
    (λ r, r = resolved svc user ups message) E.
Proof.
  unfold getFiles_message, resolved.
  destruct (attachments message) as [[|a atts]|] eqn:Hatts; cbn [absent orb length Nat.eqb];
    try by apply triple_ret.
  cbn [default].
  eapply triple_bind.
  - apply (triple_promise_all_map I E
             (λ a r, r = resolved_attachment svc user ups message a));
      [apply I_picks|].
    intros a' _. apply getFiles_attachment_resolution.
  - intros l Hl. apply Forall2_eq_map in Hl as ->. apply triple_ret.
    rewrite omap_id_map. unfold id.
    by rewrite (message_text_expected message (a :: atts)).
Qed.

Lemma getFiles_resolution msgs :
  triple I (getFiles svc user msgs)
    (λ out, out = map (resolved svc user ups) msgs) E.
Proof.
  unfold getFiles. eapply triple_weaken.
  - apply (triple_promise_all_map I E (λ m r, r = resolved svc user ups m));
      [apply I_picks|].
    intros m _. apply getFiles_message_resolution.
  - intros l Hl. by apply Forall2_eq_map.
  - done.
Qed.

End Resolution.

(** The same when no collaborator throws: [getFiles] cannot be rejected. *)
Section Resolving.

Context (svc : Services) (user : string) (ups : gmap string Upload).

Lemma resolving_faults w : resolving ups w → resolving ups (set_faults tail w).
Proof. intros [Hcalm Hups]. split; [by apply calm_tail|done]. Qed.

Lemma resolving_picks n w : resolving ups w → resolving ups (set_picks (drop n) w).
Proof. by intros [Hcalm Hups]. Qed.

Lemma resolving_logs f w : resolving ups w → resolving ups (set_logs f w).
Proof. by intros [Hcalm Hups]. Qed.

Lemma resolving_uploads w : resolving ups w → uploads w = ups.
Proof. by intros [_ Hups]. Qed.

Lemma resolving_fault w e : resolving ups w → head (faults w) = Some (Some e) → never e.
Proof. intros [Hcalm _]. by apply calm_head. Qed.

Lemma resolving_lookup id :
  triple (resolving ups) (Uploads_findOneById id) (λ r, r = ups !! id) never.
Proof.
  apply lookup_resolution;
    [apply resolving_faults|apply resolving_uploads|apply resolving_fault].
Qed.

Lemma resolving_buffer file :
  triple (resolving ups) (uploadService_getFileBuffer svc user file)
    (λ r, r = svc_getFileBuffer svc user file) never.
Proof. apply buffer_resolution; [apply resolving_faults|apply resolving_fault]. Qed.

Lemma getFiles_attachment_resolved message attachment :
  triple (resolving ups) (getFiles_attachment svc user message attachment)
    (λ r, r = resolved_attachment svc user ups message attachment) never.
Proof.
  apply getFiles_attachment_resolution;
    [apply resolving_faults|apply resolving_logs|apply resolving_uploads|apply resolving_fault].
Qed.

Lemma getFiles_message_resolved message :
  triple (resolving ups) (getFiles_message svc user message)
    (λ r, r = resolved svc user ups message) never.
Proof.
  apply getFiles_message_resolution;
    [apply resolving_faults|apply resolving_picks|apply resolving_logs
    |apply resolving_uploads|apply resolving_fault].
Qed.

Lemma getFiles_resolved msgs :
  triple (resolving ups) (getFiles svc user msgs)
    (λ out, out = map (resolved svc user ups) msgs) never.
Proof.
  apply getFiles_resolution;
    [apply resolving_faults|apply resolving_picks|apply resolving_logs
    |apply resolving_uploads|apply resolving_fault].
Qed.

End Resolving.

(** When no collaborator throws, [getFiles] returns the resolved messages,
    in the order of the messages, whatever the completion order. *)
Lemma getFiles_completes (svc : Services) (user : string) (msgs : list Message) (w : World) :
  calm w →
  (getFiles svc user msgs w).1 = Ok (map (resolved svc user (uploads w)) msgs).
Proof.
  intros Hcalm.
  pose proof (getFiles_resolved svc user (uploads w) msgs w (conj Hcalm eq_refl)) as H.
  destruct (getFiles svc user msgs w) as [[out|e] w']; simpl; [|by destruct H].
  destruct H as [_ ->]. done.
Qed.

Lemma keeps_maps (msgs : list Message) (out : list MessageWithFiles) :
  Forall2 keeps msgs out →
  map mf_id out = map msg_id msgs ∧ map mf_ts out = map ts msgs ∧
  map mf_u out = map u msgs ∧ map mf_msg out = map expected_text msgs.
Proof.
  induction 1 as [|m r msgs out (Hid & Hts & Hu & Hmsg) _ (IH1 & IH2 & IH3 & IH4)];
    simpl; [done|].
  by rewrite Hid, Hts, Hu, Hmsg, IH1, IH2, IH3, IH4.
Qed.

Lemma resolved_text (svc : Services) (user : string) (ups : gmap string Upload)
    (m : Message) :
  mf_msg (resolved svc user ups m) = expected_text m.
Proof.
  unfold resolved.
  destruct (attachments m) as [[|a atts]|] eqn:Hatts; simpl; try done;
    symmetry; apply expected_text_no_attachment; by rewrite Hatts.
Qed.

(** C6. File resolution preserves the order of the messages.  Whenever
    [getFiles] returns, whatever the faults and the completion order, its
    result lists the messages in the order it was given them (same ids,
    timestamps and authors, position by position); and for every
    completion order of the concurrent lookups, when no collaborator
    throws, it returns exactly the list of the resolved messages, in the
    order of the messages. *)
Theorem getFiles_preserves_order (svc : Services) (user : string) (msgs : list Message)
    (w : World) :
  (∀ out w', getFiles svc user msgs w = (Ok out, w') →
     map mf_id out = map msg_id msgs ∧ map mf_ts out = map ts msgs ∧
     map mf_u out = map u msgs) ∧
  (calm w →
   ∀ ks, (getFiles svc user msgs (set_picks (λ _, ks) w)).1
         = Ok (map (resolved svc user (uploads w)) msgs)).
Proof.
  split.
  - intros out w' Hrun. apply getFiles_keeps, keeps_maps in Hrun. tauto.
  - intros Hcalm ks. by apply (getFiles_completes svc user msgs (set_picks (λ _, ks) w)).
Qed.

Lemma getFiles_preserves_order_witness :
  calm (world_of pending_room [] []) ∧
  (getFiles demo_services "agent-1" [hello; photo]
     (set_picks (λ _, [1; 0; 2; 0; 1]) (world_of pending_room [] []))).1
  = Ok (map (resolved demo_services "agent-1" (uploads (world_of pending_room [] [])))
            [hello; photo]).
Proof.
  assert (calm (world_of pending_room [] [])) as Hcalm by (by vm_compute).
  split; [exact Hcalm|].
  destruct (getFiles_preserves_order demo_services "agent-1" [hello; photo]
              (world_of pending_room [] [])) as [_ Hany].
  exact (Hany Hcalm [1; 0; 2; 0; 1]).
Defined.

(** C7. The text of a message that went through file resolution is the
    body of the message when that is not empty, else the description of
    the first attachment that has a non-empty one, else the empty string;
    for a message without attachments this is its body.  [getFiles]
    returns whenever no collaborator throws. *)
Theorem getFiles_text (svc : Services) (user : string) (msgs : list Message) (w : World) :
  (∀ out w', getFiles svc user msgs w = (Ok out, w') →
     map mf_msg out = map expected_text msgs) ∧
  (calm w → ∃ out, (getFiles svc user msgs w).1 = Ok out ∧
                   map mf_msg out = map expected_text msgs) ∧
  (∀ m, attachments m = None ∨ attachments m = Some [] →
        expected_text m = msg m ∧
        expected_text m = if String.eqb (msg m) "" then "" else msg m).
Proof.
  split; [|split].
  - intros out w' Hrun. apply getFiles_keeps, keeps_maps in Hrun. tauto.
  - intros Hcalm. eexists. split; [by apply getFiles_completes|].
    rewrite map_map. apply map_ext. intros m. apply resolved_text.
  - intros m Hnone. unfold expected_text.
    destruct Hnone as [-> | ->]; simpl; by destruct (String.eqb_spec (msg m) "").
Qed.

Lemma getFiles_text_witness :
  calm (world_of pending_room [] [0; 1]) ∧
  ∃ out, (getFiles demo_services "agent-1" [photo; hello] (world_of pending_room [] [0; 1])).1
         = Ok out ∧
         map mf_msg out = ["my cat"; "hello"].
Proof.
  assert (calm (world_of pending_room [] [0; 1])) as Hcalm by (by vm_compute).
  split; [exact Hcalm|].
  destruct (getFiles_text demo_services "agent-1" [photo; hello]
              (world_of pending_room [] [0; 1])) as (_ & Hreturns & _).
  destruct (Hreturns Hcalm) as (out & Hout & Htext).
  exists out. split; [exact Hout|exact Htext].
Defined.

(** The file id is the text between [/file-upload/] and the last [/] of
    the line; without a [/] after the id there is no match. *)
Example match_file_upload_examples :
  map match_file_upload
    ["/file-upload/abc/x.png"; "/file-upload//x"; "http://h/file-upload/a/b/c";
     "/file-upload/abc"; "zz/file-upload/file-upload/x"; ""]
  = [Some "abc"; Some ""; Some "a/b"; None; Some "file-upload"; None].
Proof. reflexivity. Qed.

(** [getFiles] is rejected only with an error thrown by a collaborator. *)
Lemma getFiles_rejects_by_fault (svc : Services) (user : string) (msgs : list Message)
    (w : World) (e : Error) :
  (getFiles svc user msgs w).1 = Err e → Some e ∈ faults w.
Proof.
  pose proof (getFiles_triple svc (later_than w) (λ e, Some e ∈ faults w)
                (later_than_tail w) (later_than_picks w) (later_than_logs w)
                (later_than_head w) user msgs w (later_than_refl w)) as H.
  destruct (getFiles svc user msgs w) as [[out|e'] w']; simpl; [done|].
  intros [= ->]. tauto.
Qed.

(** The [try] block of [workOnPdf] fails only with [RoomNotFound] or with
    an error thrown by a collaborator. *)
Lemma workOnPdf_body_fails_by (svc : Services) (template : string)
    (details : WorkDetailsWithSource) (w : World) (e : Error) :
  (workOnPdf_body svc template details w).1 = Err e →
  e = RoomNotFound ∨ Some e ∈ faults w.
Proof.
  pose proof (workOnPdf_body_triple svc (later_than w)
                (λ e, e = RoomNotFound ∨ Some e ∈ faults w)
                (later_than_tail w) (later_than_picks w) (later_than_logs w)
                (later_than_streams w)
                (λ w' e' Hw' He', or_intror (later_than_head w w' e' Hw' He'))
                (or_introl eq_refl) template details w (later_than_refl w)) as H.
  destruct (workOnPdf_body svc template details w) as [[[]|e'] w']; simpl; [done|].
  intros [= ->]. tauto.
Qed.

(** The [catch] and the [finally] of an admitted job. *)
Lemma workOnPdf_caught (svc : Services) (template : string)
    (details : WorkDetailsWithSource) (w w1 : World) (e : Error) :
  (currentJobNumber w < maxNumberOfConcurrentJobs w)%Z →
  workOnPdf_body svc template details (admitted details w) = (Err e, w1) →
  workOnPdf svc template details w =
    ((pdfFailed svc details e w1).1,
     set_currentJobNumber (λ n, n - 1)%Z (pdfFailed svc details e w1).2).
Proof.
  intros Hfree Hbody. rewrite workOnPdf_admitted by done.
  unfold workOnPdf_guarded, try_catch. by rewrite Hbody.
Qed.

Lemma workOnPdf_completed (svc : Services) (template : string)
    (details : WorkDetailsWithSource) (w w1 : World) :
  (currentJobNumber w < maxNumberOfConcurrentJobs w)%Z →
  workOnPdf_body svc template details (admitted details w) = (Ok tt, w1) →
  workOnPdf svc template details w = (Ok tt, set_currentJobNumber (λ n, n - 1)%Z w1).
Proof.
  intros Hfree Hbody. rewrite workOnPdf_admitted by done.
  unfold workOnPdf_guarded, try_catch. by rewrite Hbody.
Qed.

(** ** Errors that are not swallowed

    File resolution and the [try] block of the job have no handler of
    their own: what a collaborator throws comes out of them. *)

Section Strict.

Context (svc : Services) (w0 : World) (F : Error → Prop).

Hypothesis F_thrown : ∀ e, first_thrown w0 e → F e.

Lemma strict_ret {A} (a : A) : strict w0 F (ret a).
Proof. by intros w Hw. Qed.

Lemma strict_throw {A} (e : Error) : F e → strict w0 F (throw e : M A).
Proof. by intros He w Hw. Qed.

Lemma strict_gets {A} (f : World → A) : strict w0 F (gets f).
Proof. by intros w Hw. Qed.

Lemma strict_modify (f : World → World) :
  (∀ w, faults (f w) = faults w) → strict w0 F (modify f).
Proof. intros Hf w (k & Hk & Hnone). exists k. by rewrite Hf. Qed.

Lemma strict_bind {A B} (m : M A) (k : A → M B) :
  strict w0 F m → (∀ a, strict w0 F (k a)) → strict w0 F (bind m k).
Proof.
  intros Hm Hk w Hw. unfold bind. specialize (Hm w Hw).
  destruct (m w) as [[a|e] w1]; [by apply Hk|done].
Qed.

Lemma strict_external : strict w0 F external.
Proof.
  intros w (k & Hk & Hnone). unfold external. rewrite Hk, head_lookup, lookup_drop, Nat.add_0_r.
  assert (∀ (l : list (option Error)) n, tail (drop n l) = drop (S n) l) as Htail.
  { induction l as [|x l IH]; intros [|n]; simpl; auto. }
  destruct (faults w0 !! k) as [[e|]|] eqn:Hlookup.
  - apply F_thrown. by exists k.
  - exists (S k). world_simpl. rewrite Hk. split; [apply Htail|].
    rewrite (take_S_r _ _ _ Hlookup). apply Forall_app. by split; [|repeat constructor].
  - exists (S k). world_simpl. rewrite Hk. split; [apply Htail|].
    apply lookup_ge_None in Hlookup. rewrite take_ge in Hnone |- * by lia. done.
Qed.

Lemma run_tasks_strict {A} (tasks : list (M A)) :
  Forall (strict w0 F) tasks →
  ∀ order w, answered w0 w →
    match first_rejection (run_tasks tasks order w).1 with
    | None => answered w0 (run_tasks tasks order w).2
    | Some e => F e
    end.
Proof.
  intros Htasks order. induction order as [|i order IH]; intros w Hw; cbn [run_tasks].
  { done. }
  unfold M in *. destruct (tasks !! i) as [task|] eqn:Htask; [|by apply IH].
  pose proof (Forall_lookup_1 _ _ _ _ Htasks Htask w Hw) as Hrun.
  destruct (task w) as [[a|e] w1].
  - specialize (IH w1 Hrun). by destruct (run_tasks tasks order w1) as [rs w2].
  - by destruct (run_tasks tasks order w1) as [rs w2].
Qed.

Lemma strict_promise_all {A} (tasks : list (M A)) :
  Forall (strict w0 F) tasks → strict w0 F (promise_all tasks).
Proof.
  intros Htasks w Hw. unfold promise_all.
  pose proof (run_tasks_strict tasks Htasks
                (completion_order (take (length tasks) (picks w)) (seq 0 (length tasks)))
                (set_picks (drop (length tasks)) w) Hw) as Hrun.
  destruct (run_tasks tasks _ (set_picks (drop (length tasks)) w)) as [rs w1].
  simpl in Hrun. by destruct (first_rejection rs).
Qed.

Lemma strict_promise_all_map {A B} (f : A → M B) (xs : list A) :
  (∀ x, strict w0 F (f x)) → strict w0 F (promise_all (map f xs)).
Proof.
  intros Hf. apply strict_promise_all, Forall_fmap, Forall_forall.
  intros x _. apply Hf.
Qed.

Ltac strict_go :=
  repeat first
    [ apply strict_ret
    | apply strict_external
    | apply strict_gets
    | (apply strict_modify; done)
    | (apply strict_bind; [|intros ?])
    | match goal with
      | |- strict _ _ (if ?b then _ else _) => destruct b
      | |- strict _ _ (match ?x with _ => _ end) => destruct x
      end ].

Ltac unfold_calls :=
  unfold LivechatRooms_findOneById, Users_findOneAgentById, LivechatVisitors_findOneById,
    Uploads_findOneById, getMessagesFromRoom, Messages_findLivechatMessagesWithoutClosing,
    uploadService_getFileBuffer, translationService_translateToServerLanguage,
    settingsService_get, worker_renderToStream, log_log, log_error, log_debug.

Lemma getFiles_attachment_strict user message attachment :
  strict w0 F (getFiles_attachment svc user message attachment).
Proof. unfold getFiles_attachment. unfold_calls. strict_go. Qed.

Lemma getFiles_message_strict user message :
  strict w0 F (getFiles_message svc user message).
Proof.
  unfold getFiles_message. destruct (_ || _); [apply strict_ret|].
  apply strict_bind; [|intros ?; apply strict_ret].
  apply strict_promise_all_map, getFiles_attachment_strict.
Qed.

Lemma getFiles_strict user msgs : strict w0 F (getFiles svc user msgs).
Proof. apply strict_promise_all_map, getFiles_message_strict. Qed.

Lemma getTimezone_strict user : strict w0 F (getTimezone svc user).
Proof. unfold getTimezone. unfold_calls. strict_go. Qed.

Lemma getTranslations_strict : strict w0 F (getTranslations svc).
Proof.
  apply strict_promise_all_map. intros key. unfold_calls. strict_go.
Qed.

Lemma doRender_strict template data details : strict w0 F (doRender svc template data details).
Proof. unfold doRender. unfold_calls. strict_go. Qed.

Hypothesis F_room : F RoomNotFound.

Lemma workOnPdf_body_strict template details :
  strict w0 F (workOnPdf_body svc template details).
Proof.
  unfold workOnPdf_body.
  apply strict_bind; [unfold_calls; strict_go|]. intros [room|]; [|by apply strict_throw].
  apply strict_bind; [unfold_calls; strict_go|]. intros msgs.
  apply strict_bind; [unfold_calls; strict_go|]. intros visitor.
  apply strict_bind; [unfold_calls; strict_go|]. intros agent.
  apply strict_bind; [apply getFiles_strict|]. intros messagesFiles.
  apply strict_bind; [|intros settings; apply doRender_strict].
  apply strict_promise_all. repeat constructor.
  1-3: unfold_calls; strict_go.
  - apply strict_bind; [apply getTimezone_strict|intros ?; apply strict_ret].
  - apply strict_bind; [apply getTranslations_strict|intros ?; apply strict_ret].
Qed.

End Strict.

(** ** Calls that are made

    Every task of a [Promise.all] runs; so the lookup of an attachment
    that needs its upload record is made, whatever the completion order. *)

Lemma triple_keeps {A} (J : World → Prop) (m : M A) (P : A → Prop) (E : Error → Prop) :
  triple J m P E → ∀ w, J w → J (m w).2.
Proof. intros Hm w Hw. specialize (Hm w Hw). destruct (m w) as [[a|e] w']; tauto. Qed.

Lemma run_tasks_keeps {A} (J : World → Prop) (tasks : list (M A)) :
  (∀ j t w, tasks !! j = Some t → J w → J (t w).2) →
  ∀ order w, J w → J (run_tasks tasks order w).2.
Proof.
  intros Htasks order. induction order as [|j order IH]; intros w Hw; cbn [run_tasks].
  { done. }
  unfold M in *. destruct (tasks !! j) as [t|] eqn:Ht; [|by apply IH].
  pose proof (Htasks j t w Ht Hw) as Hw1. destruct (t w) as [r w1].
  specialize (IH w1 Hw1). by destruct (run_tasks tasks order w1).
Qed.

Lemma run_tasks_reaches {A} (J J' : World → Prop) (tasks : list (M A)) (i : nat)
    (task : M A) :
  tasks !! i = Some task →
  (∀ j t w, tasks !! j = Some t → J w → J (t w).2) →
  (∀ j t w, tasks !! j = Some t → J' w → J' (t w).2) →
  (∀ w, J w → J' (task w).2) →
  ∀ order w, i ∈ order → J w → J' (run_tasks tasks order w).2.
Proof.
  intros Htask HJ HJ' Hstep order.
  induction order as [|j order IH]; intros w Hi Hw; cbn [run_tasks].
  { by apply elem_of_nil in Hi. }
  unfold M in *. destruct (decide (j = i)) as [->|Hne].
  - rewrite Htask. pose proof (Hstep w Hw) as Hw1. destruct (task w) as [r w1].
    pose proof (run_tasks_keeps J' tasks HJ' order w1 Hw1) as Hw2.
    by destruct (run_tasks tasks order w1).
  - apply elem_of_cons in Hi as [?|Hi]; [done|].
    destruct (tasks !! j) as [t|] eqn:Ht; [|by apply IH].
    pose proof (HJ j t w Ht Hw) as Hw1. destruct (t w) as [r w1].
    specialize (IH w1 Hi Hw1). by destruct (run_tasks tasks order w1).
Qed.

Lemma promise_all_reaches {A} (J J' : World → Prop) (tasks : list (M A)) (i : nat)
    (task : M A) :
  (∀ n w, J w → J (set_picks (drop n) w)) →
  tasks !! i = Some task →
  (∀ j t w, tasks !! j = Some t → J w → J (t w).2) →
  (∀ j t w, tasks !! j = Some t → J' w → J' (t w).2) →
  (∀ w, J w → J' (task w).2) →
  ∀ w, J w → J' (promise_all tasks w).2.
Proof.
  intros Hpicks Htask HJ HJ' Hstep w Hw. unfold promise_all.
  assert (i ∈ completion_order (take (length tasks) (picks w)) (seq 0 (length tasks)))
    as Hi.
  { rewrite completion_order_perm. apply elem_of_seq.
    apply lookup_lt_Some in Htask. lia. }
  pose proof (run_tasks_reaches J J' tasks i task Htask HJ HJ' Hstep _
                (set_picks (drop (length tasks)) w) Hi (Hpicks _ w Hw)) as Hrun.
  destruct (run_tasks tasks _ (set_picks (drop (length tasks)) w)) as [rs w1].
  by destruct (first_rejection rs).
Qed.

Section Calls.

Context (svc : Services) (user : string) (n : nat).

Hypothesis n_pos : 0 < n.

Lemma at_most_tail w :
  length (faults w) ≤ n → length (faults (set_faults tail w)) ≤ n.
Proof. world_simpl. destruct (faults w); simpl; lia. Qed.

Lemma fewer_tail w :
  length (faults w) < n → length (faults (set_faults tail w)) < n.
Proof. world_simpl. destruct (faults w); simpl; lia. Qed.

Lemma getFiles_attachment_calls message attachment w :
  needs_upload svc message attachment →
  length (faults w) ≤ n →
  length (faults (getFiles_attachment svc user message attachment w).2) < n.
Proof.
  intros (Htype & Hvalid & [file Hfile]) Hw.
  unfold getFiles_attachment, locate_file in *. rewrite Htype, Hvalid.
  rewrite bool_decide_eq_true_2 by done. cbn [negb].
  assert (∀ w1 : World, faults w1 = faults w →
            length (faults
              ((let! uploadedFile := Uploads_findOneById (file_id file) in
                match uploadedFile with
                | None =>
                    log_error ("Uploaded file " +:+ file_id file +:+ " not found in room "
                               +:+ msg_rid message +:+ "!") >>
                    ret (Some {| name := Some (file_name file); buffer := None |})
                | Some uploadedFile =>
                    let! fileBuffer := uploadService_getFileBuffer svc user uploadedFile in
                    ret (Some {| name := Some (file_name file);
                                 buffer := Some fileBuffer |})
                end) w1).2) < n) as Hfetch.
  { intros w1 Hw1. unfold_methods. unfold external.
    destruct (faults w) as [|[e|] [|[e'|] fs]];
      destruct (uploads w1 !! file_id file) eqn:Hup;
      repeat (world_simpl; rewrite ?Hw1, ?Hup; cbn [head tail]; cbn beta iota);
      simpl in *; lia. }
  destruct (List.find _ (default [] (files message))) as [file'|].
  - injection Hfile as ->. unfold bind at 1 2, log_error, modify, ret. cbn beta iota.
    by apply Hfetch.
  - destruct (truthy (title_link attachment ≫= match_file_upload)); [|done].
    injection Hfile as <-. cbn [negb].
    unfold bind at 1 2 3, log_error, log_debug, modify, ret. cbn beta iota.
    by apply Hfetch.
Qed.

Lemma getFiles_message_calls message w :
  Exists (needs_upload svc message) (default [] (attachments message)) →
  length (faults w) ≤ n →
  length (faults (getFiles_message svc user message w).2) < n.
Proof.
  intros Hneeds Hw. unfold getFiles_message.
  destruct (attachments message) as [[|a atts]|]; cbn [default] in *; unfold id in *;
    try by apply Exists_nil in Hneeds.
  cbn [absent orb length Nat.eqb].
  apply Exists_exists in Hneeds as (attachment & Hin & Hneeds).
  apply list_elem_of_lookup_1 in Hin as [i Hi].
  assert (length (faults (promise_all (map (getFiles_attachment svc user message)
                                          (a :: atts)) w).2) < n) as Hreach.
  { apply (promise_all_reaches (λ w, length (faults w) ≤ n) (λ w, length (faults w) < n)
             (map (getFiles_attachment svc user message) (a :: atts)) i
             (getFiles_attachment svc user message attachment)); try done.
    - by rewrite list_lookup_fmap, Hi.
    - intros j t w2 Ht. rewrite list_lookup_fmap in Ht.
      destruct ((a :: atts) !! j) as [x|]; [|done]. injection Ht as <-.
      apply (triple_keeps (λ w, length (faults w) ≤ n) _ (λ _, True) (λ _, True)).
      apply getFiles_attachment_triple; [apply at_most_tail|done..].
    - intros j t w2 Ht. rewrite list_lookup_fmap in Ht.
      destruct ((a :: atts) !! j) as [x|]; [|done]. injection Ht as <-.
      apply (triple_keeps (λ w, length (faults w) < n) _ (λ _, True) (λ _, True)).
      apply getFiles_attachment_triple; [apply fewer_tail|done..].
    - intros w2. by apply getFiles_attachment_calls. }
  unfold bind.
  by destruct (promise_all (map (getFiles_attachment svc user message) (a :: atts)) w)
    as [[l|e] w1].
Qed.

Lemma getFiles_calls msgs w :
  Exists (λ m, Exists (needs_upload svc m) (default [] (attachments m))) msgs →
  length (faults w) ≤ n →
  length (faults (getFiles svc user msgs w).2) < n.
Proof.
  intros Hneeds Hw. unfold getFiles.
  apply Exists_exists in Hneeds as (message & Hin & Hneeds).
  apply list_elem_of_lookup_1 in Hin as [i Hi].
  apply (promise_all_reaches (λ w, length (faults w) ≤ n) (λ w, length (faults w) < n)
           (map (getFiles_message svc user) msgs) i (getFiles_message svc user message));
    try done.
  - by rewrite list_lookup_fmap, Hi.
  - intros j t w2 Ht. rewrite list_lookup_fmap in Ht.
    destruct (msgs !! j) as [x|]; [|done]. injection Ht as <-.
    apply (triple_keeps (λ w, length (faults w) ≤ n) _ (keeps x) (λ _, True)).
    apply getFiles_message_triple; [apply at_most_tail|done..].
  - intros j t w2 Ht. rewrite list_lookup_fmap in Ht.
    destruct (msgs !! j) as [x|]; [|done]. injection Ht as <-.
    apply (triple_keeps (λ w, length (faults w) < n) _ (keeps x) (λ _, True)).
    apply getFiles_message_triple; [apply fewer_tail|done..].
  - intros w2. by apply getFiles_message_calls.
Qed.

End Calls.

Lemma answered_refl (w : World) : answered w w.
Proof. exists 0. by rewrite drop_0, take_0. Qed.

Lemma answered_head (w w' : World) (e : Error) :
  head (faults w) = Some (Some e) → answered w w' → faults w' = faults w.
Proof.
  intros Hhead ([|k] & Hk & Hnone); [by rewrite Hk, drop_0|].
  destruct (faults w) as [|f fs]; [done|]. injection Hhead as ->.
  rewrite firstn_cons in Hnone. by apply Forall_cons in Hnone as [? _].
Qed.

Lemma first_thrown_head (w : World) (e e' : Error) :
  head (faults w) = Some (Some e) → first_thrown w e' → e' = e.
Proof.
  intros Hhead ([|k] & Hnone & Hk).
  - rewrite <- head_lookup, Hhead in Hk. by injection Hk.
  - destruct (faults w) as [|f fs]; [done|]. injection Hhead as ->.
    rewrite firstn_cons in Hnone. by apply Forall_cons in Hnone as [? _].
Qed.

(** What [getFiles] gives: the resolved messages when every call it made
    answered, and else the first error thrown. *)
Lemma getFiles_outcome (svc : Services) (user : string) (msgs : list Message) (w : World) :
  match getFiles svc user msgs w with
  | (Ok out, w') => answered w w' ∧ out = map (resolved svc user (uploads w)) msgs
  | (Err e, _) => first_thrown w e
  end.
Proof.
  pose proof (getFiles_strict svc w (first_thrown w) (λ e H, H) user msgs w
                (answered_refl w)) as Hstrict.
  pose proof (getFiles_resolution svc user (uploads w) (λ w', uploads w' = uploads w)
                (λ _, True) ltac:(done) ltac:(done) ltac:(done) ltac:(done) ltac:(done)
                msgs w eq_refl) as Hvalue.
  destruct (getFiles svc user msgs w) as [[out|e] w']; [|done].
  split; [done|]. by destruct Hvalue.
Qed.

(** A lookup that throws rejects [getFiles] as soon as one attachment needs
    its upload record. *)
Lemma getFiles_lookup_throws (svc : Services) (user : string) (msgs : list Message)
    (w : World) (e : Error) :
  head (faults w) = Some (Some e) →
  Exists (λ m, Exists (needs_upload svc m) (default [] (attachments m))) msgs →
  (getFiles svc user msgs w).1 = Err e.
Proof.
  intros Hhead Hneeds.
  assert (0 < length (faults w)) as Hpos by (destruct (faults w); [done|simpl; lia]).
  pose proof (getFiles_calls svc user (length (faults w)) Hpos msgs w Hneeds
                ltac:(done)) as Hcalls.
  pose proof (getFiles_outcome svc user msgs w) as Hout.
  destruct (getFiles svc user msgs w) as [[out|e'] w']; simpl in *.
  - destruct Hout as [Hanswered _].
    rewrite (answered_head w w' e Hhead Hanswered) in Hcalls. lia.
  - by rewrite (first_thrown_head w e e' Hhead Hout).
Qed.

(** C5, as amended.  For an attachment of type [file]: an invalid mime
    type, a backing file that cannot be located by title or by
    [title_link], or an upload record that is not found yields a
    placeholder with a null buffer, and the attachment is resolved without
    error.  An error thrown by the lookup of the upload record, or by the
    retrieval of the buffer of a record that was found, is not turned into
    a placeholder: the attachment is rejected with it.  [getFiles] has no
    handler either: it returns normally, with the resolved messages, only
    when every call it made answered; otherwise it is rejected with the
    first error thrown, so a lookup that throws rejects it whenever some
    attachment needs its upload record.  Likewise the [try] block of the
    job returns normally only when every call it made answered, and fails
    only with [RoomNotFound] or with the first error thrown; its error is
    handed to [pdfFailed].  A job over the admission limit is rejected with
    [Retry] before any call is made. *)
Theorem getFiles_placeholders (svc : Services) (user : string) (message : Message)
    (attachment : Attachment) (w : World) :
  type attachment = Some "file" →
  let r := (getFiles_attachment svc user message attachment w).1 in
  (svc_isMimeTypeValid svc (image_type attachment) = false →
   r = Ok (Some {| name := title attachment; buffer := None |})) ∧
  (svc_isMimeTypeValid svc (image_type attachment) = true →
   locate_file message attachment = None →
   r = Ok (Some {| name := title attachment; buffer := None |})) ∧
  (∀ file, svc_isMimeTypeValid svc (image_type attachment) = true →
     locate_file message attachment = Some file →
     calls_succeed 1 w → uploads w !! file_id file = None →
     r = Ok (Some {| name := Some (file_name file); buffer := None |})) ∧
  (∀ file e, svc_isMimeTypeValid svc (image_type attachment) = true →
     locate_file message attachment = Some file →
     head (faults w) = Some (Some e) →
     r = Err e) ∧
  (∀ file uploaded e, svc_isMimeTypeValid svc (image_type attachment) = true →
     locate_file message attachment = Some file →
     uploads w !! file_id file = Some uploaded →
     calls_succeed 1 w → head (tail (faults w)) = Some (Some e) →
     r = Err e) ∧
  (∀ msgs,
     match getFiles svc user msgs w with
     | (Ok out, w') => answered w w' ∧ out = map (resolved svc user (uploads w)) msgs
     | (Err e, _) => first_thrown w e
     end) ∧
  (∀ msgs e, head (faults w) = Some (Some e) →
     Exists (λ m, Exists (needs_upload svc m) (default [] (attachments m))) msgs →
     (getFiles svc user msgs w).1 = Err e) ∧
  (∀ msgs e, (getFiles svc user msgs w).1 = Err e → Some e ∈ faults w) ∧
  (∀ template details,
     match workOnPdf_body svc template details w with
     | (Ok _, w') => answered w w'
     | (Err e, _) => e = RoomNotFound ∨ first_thrown w e
     end) ∧
  (∀ template details e, (workOnPdf_body svc template details w).1 = Err e →
     e = RoomNotFound ∨ Some e ∈ faults w) ∧
  (∀ template details e w1,
     (currentJobNumber w < maxNumberOfConcurrentJobs w)%Z →
     workOnPdf_body svc template details (admitted details w) = (Err e, w1) →
     workOnPdf svc template details w =
       ((pdfFailed svc details e w1).1,
        set_currentJobNumber (λ n, n - 1)%Z (pdfFailed svc details e w1).2)) ∧
  (∀ template details,
     (maxNumberOfConcurrentJobs w ≤ currentJobNumber w)%Z →
     (workOnPdf svc template details w).1 = Err Retry ∧
     faults (workOnPdf svc template details w).2 = faults w).
Proof.
  intros Htype. cbv zeta.
  split; [|split; [|split; [|split; [|split; [|split; [|split; [|split; [|split; [|split;
    [|split]]]]]]]]]].
  1-5: unfold getFiles_attachment, locate_file; rewrite Htype;
       rewrite bool_decide_eq_true_2 by done; cbn [negb].
  - intros ->. by unfold_methods.
  - intros ->. cbn [negb].
    destruct (List.find _ (default [] (files message))) as [file|]; [done|].
    destruct (truthy (title_link attachment ≫= match_file_upload)); [done|].
    intros _. by unfold_methods.
  - intros file -> Hlocated Hcalls Hnone. cbn [negb].
    destruct (List.find _ (default [] (files message))) as [file'|].
    + injection Hlocated as ->. unfold_methods.
      call_ok Hcalls. world_simpl. by rewrite Hnone.
    + destruct (truthy (title_link attachment ≫= match_file_upload)); [|done].
      injection Hlocated as <-. unfold_methods. cbn [negb].
      call_ok Hcalls. world_simpl. cbn [file_id file_name] in *. by rewrite Hnone.
  - intros file e -> Hlocated Hthrows. cbn [negb].
    destruct (List.find _ (default [] (files message))) as [file'|].
    + injection Hlocated as ->. unfold_methods.
      by rewrite (external_throws (set_logs _ w) e Hthrows).
    + destruct (truthy (title_link attachment ≫= match_file_upload)); [|done].
      injection Hlocated as <-. unfold_methods. cbn [negb].
      by rewrite (external_throws (set_logs _ (set_logs _ w)) e Hthrows).
  - intros file uploaded e -> Hlocated Hfound Hcalls Hthrows. cbn [negb].
    destruct (List.find _ (default [] (files message))) as [file'|].
    + injection Hlocated as ->. unfold_methods.
      rewrite (external_ok (set_logs _ w)) by exact Hcalls. cbn beta iota.
      world_simpl. rewrite Hfound.
      by rewrite (external_throws (set_faults tail (set_logs _ w)) e Hthrows).
    + destruct (truthy (title_link attachment ≫= match_file_upload)); [|done].
      injection Hlocated as <-. unfold_methods. cbn [negb].
      rewrite (external_ok (set_logs _ (set_logs _ w))) by exact Hcalls. cbn beta iota.
      world_simpl. cbn [file_id file_name] in *. rewrite Hfound.
      by rewrite (external_throws (set_faults tail (set_logs _ (set_logs _ w))) e Hthrows).
  - intros msgs. apply getFiles_outcome.
  - intros msgs e. apply getFiles_lookup_throws.
  - intros msgs e. apply getFiles_rejects_by_fault.
  - intros template details.
    pose proof (workOnPdf_body_strict svc w (λ e, e = RoomNotFound ∨ first_thrown w e)
                  (λ e H, or_intror H) (or_introl eq_refl) template details w
                  (answered_refl w)) as Hstrict.
    by destruct (workOnPdf_body svc template details w) as [[[]|e] w'].
  - intros template details e. apply workOnPdf_body_fails_by.
  - intros template details e w1. apply workOnPdf_caught.
  - intros template details Hfull. unfold workOnPdf. unfold_methods. world_simpl.
    by destruct (Z.leb_spec (maxNumberOfConcurrentJobs w) (currentJobNumber w)); [|lia].
Qed.

Lemma getFiles_placeholders_witness :
  type movie = Some "file" ∧
  svc_isMimeTypeValid demo_services (image_type movie) = false ∧
  (getFiles_attachment demo_services "agent-1" photo movie
     (world_of pending_room [Some (mkError "down")] [])).1
  = Ok (Some {| name := Some "cat.mp4"; buffer := None |}).
Proof.
  assert (type movie = Some "file") as Htype by reflexivity.
  assert (svc_isMimeTypeValid demo_services (image_type movie) = false) as Hmime
    by reflexivity.
  split; [exact Htype|]. split; [exact Hmime|].
  destruct (getFiles_placeholders demo_services "agent-1" photo movie
              (world_of pending_room [Some (mkError "down")] []) Htype) as [Hinvalid _].
  exact (Hinvalid Hmime).
Defined.

(** C5, as stated, fails: when the upload record exists and the retrieval
    of its buffer throws, the attachment gets no placeholder; file
    resolution is rejected and the job takes the failure path (no render
    stream, an error message to the requester). *)
Lemma buffer_failure_aborts_job :
  (getFiles_attachment demo_services "agent-1" photo picture
     (world_of pending_room [None; Some (mkError "ENOENT")] [])).1
  = Err (mkError "ENOENT") ∧
  (getFiles demo_services "agent-1" [hello; photo]
     (world_of pending_room [None; Some (mkError "ENOENT")] [])).1
  = Err (mkError "ENOENT") ∧
  streams (workOnPdf demo_services "omnichannel-transcript" job_1
             (world_of pending_room
                [None; None; None; None; None; Some (mkError "ENOENT")] [])).2 = [] ∧
  effects (workOnPdf demo_services "omnichannel-transcript" job_1
             (world_of pending_room
                [None; None; None; None; None; Some (mkError "ENOENT")] [])).2
  = [UnsetTranscriptRequestedPdfById "room-1";
     CreateDirectMessage "agent-1" "rocket.cat";
     SendMessage "rocket.cat" "rocket.catagent-1" "[pdf_error_message@agent-1]: ENOENT"].
Proof. repeat split; by vm_compute. Qed.

(** ** The failure path *)

Lemma pdfFailed_notifies (svc : Services) (details : WorkDetailsWithSource) (e : Error)
    (w : World) (room : Room) (user : User) :
  calls_succeed 6 w →
  rooms w !! rid details = Some room →
  users w !! userId details = Some user →
  (pdfFailed svc details e w).1 = Ok tt ∧
  rooms (pdfFailed svc details e w).2
  = alter (room_with_requested false) (rid details) (rooms w) ∧
  effects (pdfFailed svc details e w).2 = effects w ++ error_notice svc details user e ∧
  uploads (pdfFailed svc details e w).2 = uploads w ∧
  streams (pdfFailed svc details e w).2 = streams w ∧
  untouched w (pdfFailed svc details e w).2.
Proof.
  intros Hcalls Hroom Huser. unfold pdfFailed. unfold_methods.
  call_ok Hcalls. world_simpl. rewrite Hroom. cbn [absent].
  call_ok Hcalls. world_simpl. rewrite Huser.
  do 4 call_ok Hcalls. world_simpl.
  unfold error_notice. rewrite <- !app_assoc. by repeat split.
Qed.

Lemma pdfFailed_skips (svc : Services) (details : WorkDetailsWithSource) (e : Error)
    (w : World) :
  calls_succeed 2 w →
  rooms w !! rid details = None ∨ users w !! userId details = None →
  (pdfFailed svc details e w).1 = Ok tt ∧ same_state w (pdfFailed svc details e w).2.
Proof.
  intros Hcalls Hgone. unfold pdfFailed. unfold_methods.
  call_ok Hcalls. world_simpl.
  destruct (rooms w !! rid details) as [room|] eqn:Hroom; cbn [absent];
    [|by repeat split].
  call_ok Hcalls. world_simpl.
  destruct Hgone as [?| ->]; [done|]. by repeat split.
Qed.

Lemma pdfFailed_returns (svc : Services) (details : WorkDetailsWithSource) (e : Error)
    (w : World) :
  calls_succeed 6 w → (pdfFailed svc details e w).1 = Ok tt.
Proof.
  intros Hcalls.
  destruct (rooms w !! rid details) as [room|] eqn:Hroom;
    [destruct (users w !! userId details) as [user|] eqn:Huser|].
  - by apply (pdfFailed_notifies svc details e w room user).
  - apply pdfFailed_skips; [|by right].
    apply (calls_succeed_le 6); [lia|done].
  - apply pdfFailed_skips; [|by left].
    apply (calls_succeed_le 6); [lia|done].
Qed.

(** The failure notification fails only with an error thrown by a
    collaborator. *)
Lemma pdfFailed_fails_by (svc : Services) (details : WorkDetailsWithSource) (e e' : Error)
    (w : World) :
  (pdfFailed svc details e w).1 = Err e' → Some e' ∈ faults w.
Proof.
  pose proof (pdfFailed_triple svc (later_than w) (λ e, Some e ∈ faults w)
                (later_than_tail w) (later_than_logs w) ltac:(done) ltac:(done)
                (later_than_head w) details e w (later_than_refl w)) as H.
  destruct (pdfFailed svc details e w) as [[[]|e''] w']; simpl; [done|].
  intros [= ->]. tauto.
Qed.

(** The failure path has no handler.  Its calls are, in this order: the
    lookup of the room, the lookup of the user, the update that clears the
    flag, the opening of the direct conversation, the translation, the
    sending.  When call number [k] throws, [pdfFailed] is rejected with
    that error, having done what precedes the call and nothing of what
    follows; the error message is never sent, and no log line is written
    about the error thrown. *)
Lemma pdfFailed_interrupted (svc : Services) (details : WorkDetailsWithSource)
    (e e' : Error) (w : World) (room : Room) (user : User) (k : nat)
    (fs : list (option Error)) :
  faults w = replicate k None ++ Some e' :: fs → k < 6 →
  rooms w !! rid details = Some room →
  users w !! userId details = Some user →
  (pdfFailed svc details e w).1 = Err e' ∧
  rooms (pdfFailed svc details e w).2
  = (if 2 <? k then alter (room_with_requested false) (rid details) (rooms w)
     else rooms w) ∧
  effects (pdfFailed svc details e w).2
  = effects w ++ take (k - 2) (take 2 (error_notice svc details user e)) ∧
  logs (pdfFailed svc details e w).2
  = logs w ++ take (if 3 <? k then 2 else 1) (failure_logs details e) ∧
  currentJobNumber (pdfFailed svc details e w).2 = currentJobNumber w.
Proof.
  intros Hfaults Hk Hroom Huser.
  destruct k as [|[|[|[|[|[|k]]]]]]; [..|lia]; cbn [replicate app] in Hfaults.
  all: unfold pdfFailed; unfold_methods; unfold external.
  all: repeat (world_simpl; rewrite ?Hfaults, ?Hroom, ?Huser;
               cbn [head tail absent]; cbn beta iota).
  all: cbn [Nat.ltb Nat.leb Nat.sub take error_notice failure_logs].
  all: rewrite <- ?app_assoc, ?app_nil_r; by repeat split.
Qed.

(** An upload that throws sends the [end] handler to [pdfFailed]. *)
Lemma doRender_end_upload_fails (svc : Services) (stream : RenderStream) (w : World)
    (e : Error) :
  head (faults w) = Some (Some e) →
  doRender_end svc stream w = pdfFailed svc (rs_details stream) e (set_faults tail w).
Proof.
  intros Hthrows. unfold doRender_end, try_catch, uploadService_uploadFile, bind at 1 2.
  by rewrite (external_throws w e Hthrows).
Qed.




(** ** The success path *)

Lemma sets_file_id_count (room : string) (es extra : list Effect) :
  length (List.filter (sets_file_id room) (es ++ extra))
  = length (List.filter (sets_file_id room) es)
    + length (List.filter (sets_file_id room) extra).
Proof. by rewrite List.filter_app, length_app. Qed.

Lemma pdfComplete_delivers (svc : Services) (details : WorkDetailsWithSource)
    (file : Upload) (w : World) (user : User) :
  calls_succeed 7 w →
  users w !! userId details = Some user →
  (pdfComplete svc details file w).1 = Ok tt ∧
  rooms (pdfComplete svc details file w).2
  = alter (room_with_fileId (upload_id file)) (rid details) (rooms w) ∧
  times_file_id_set (rid details) (pdfComplete svc details file w).2
  = S (times_file_id_set (rid details) w) ∧
  (∃ opening,
     opening ≡ₚ [SetPdfTranscriptFileIdById (rid details) (upload_id file);
                 CreateDirectMessage (userId details) "rocket.cat"] ∧
     effects (pdfComplete svc details file w).2
     = effects w ++ opening ++ success_deliveries svc details user file) ∧
  uploads (pdfComplete svc details file w).2 = uploads w ∧
  untouched w (pdfComplete svc details file w).2.
Proof.
  intros Hcalls Huser. unfold pdfComplete, promise_all2. unfold_methods.
  call_ok Hcalls. world_simpl. rewrite Huser.
  assert (∀ es, length (List.filter (sets_file_id (rid details))
                  (es ++ [SetPdfTranscriptFileIdById (rid details) (upload_id file);
                          CreateDirectMessage (userId details) "rocket.cat"]
                      ++ success_deliveries svc details user file))
                = S (length (List.filter (sets_file_id (rid details)) es))) as Hcount1.
  { intros es. rewrite sets_file_id_count. simpl. rewrite String.eqb_refl. simpl. lia. }
  assert (∀ es, length (List.filter (sets_file_id (rid details))
                  (es ++ [CreateDirectMessage (userId details) "rocket.cat";
                          SetPdfTranscriptFileIdById (rid details) (upload_id file)]
                      ++ success_deliveries svc details user file))
                = S (length (List.filter (sets_file_id (rid details)) es))) as Hcount2.
  { intros es. rewrite sets_file_id_count. simpl. rewrite String.eqb_refl. simpl. lia. }
  destruct (Nat.even (hd 0 (picks _))); world_simpl; cbn beta iota.
  - do 6 call_ok Hcalls. world_simpl. cbn [List.find isPromiseRejectedResult].
    unfold times_file_id_set. world_simpl.
    repeat split; try done.
    + rewrite <- !app_assoc. apply Hcount1.
    + eexists. split; [reflexivity|]. by rewrite <- !app_assoc.
  - do 6 call_ok Hcalls. world_simpl. cbn [List.find isPromiseRejectedResult].
    unfold times_file_id_set. world_simpl.
    repeat split; try done.
    + rewrite <- !app_assoc. apply Hcount2.
    + eexists. split; [apply Permutation_swap|]. by rewrite <- !app_assoc.
Qed.

Lemma pdfComplete_skips (svc : Services) (details : WorkDetailsWithSource)
    (file : Upload) (w : World) :
  calls_succeed 1 w →
  users w !! userId details = None →
  (pdfComplete svc details file w).1 = Ok tt ∧
  same_state w (pdfComplete svc details file w).2.
Proof.
  intros Hcalls Huser. unfold pdfComplete. unfold_methods.
  call_ok Hcalls. world_simpl. rewrite Huser. by repeat split.
Qed.

(** After an upload that answers, the [end] handler goes on with
    [pdfComplete] (and with [pdfFailed] should that throw). *)
Lemma doRender_end_uploaded (svc : Services) (stream : RenderStream) (w : World) :
  calls_succeed 1 w →
  doRender_end svc stream w =
  try_catch (pdfComplete svc (rs_details stream) (transcript_file svc stream))
            (λ e, pdfFailed svc (rs_details stream) e)
            (after_upload svc stream w).
Proof.
  intros Hcalls. unfold doRender_end, try_catch, uploadService_uploadFile.
  unfold bind at 1 2. rewrite external_ok by done. by unfold_methods.
Qed.

Lemma doRender_end_delivers (svc : Services) (stream : RenderStream) (w : World)
    (user : User) :
  calls_succeed 8 w →
  users w !! userId (rs_details stream) = Some user →
  (doRender_end svc stream w).1 = Ok tt ∧
  rooms (doRender_end svc stream w).2
  = alter (room_with_fileId (upload_id (transcript_file svc stream)))
          (rid (rs_details stream)) (rooms w) ∧
  times_file_id_set (rid (rs_details stream)) (doRender_end svc stream w).2
  = S (times_file_id_set (rid (rs_details stream)) w) ∧
  currentJobNumber (doRender_end svc stream w).2 = currentJobNumber w.
Proof.
  intros Hcalls Huser.
  apply calls_succeed_S in Hcalls as [Hupload Hcalls].
  rewrite doRender_end_uploaded by done.
  destruct (pdfComplete_delivers svc (rs_details stream) (transcript_file svc stream)
              (after_upload svc stream w) user Hcalls Huser)
    as (Hr & Hrooms & Htimes & _ & _ & Hsame).
  unfold try_catch.
  destruct (pdfComplete svc (rs_details stream) (transcript_file svc stream)
              (after_upload svc stream w)) as [[[]|e] w2]; simpl in *; [|done].
  repeat split; try done.
  - rewrite Htimes. unfold times_file_id_set, after_upload. world_simpl.
    rewrite sets_file_id_count. simpl. lia.
  - by destruct Hsame as (_ & _ & _ & _ & ->).
Qed.

Lemma doRender_end_skips (svc : Services) (stream : RenderStream) (w : World) :
  calls_succeed 2 w →
  users w !! userId (rs_details stream) = None →
  (doRender_end svc stream w).1 = Ok tt ∧
  rooms (doRender_end svc stream w).2 = rooms w.
Proof.
  intros Hcalls Huser.
  apply calls_succeed_S in Hcalls as [Hupload Hcalls].
  rewrite doRender_end_uploaded by done.
  destruct (pdfComplete_skips svc (rs_details stream) (transcript_file svc stream)
              (after_upload svc stream w) Hcalls Huser) as (Hr & Hrooms & _).
  unfold try_catch.
  by destruct (pdfComplete svc (rs_details stream) (transcript_file svc stream)
                 (after_upload svc stream w)) as [[[]|e] w2].
Qed.

(** ** Terminal outcomes and the room *)

(** C9, as amended.  While the requesting user exists and the collaborators
    answer: a job that completes sets the transcript file id of the room
    exactly once (the pending flag stays as it is, with the file reference
    beside it), and a job that fails, in the [try] block of [workOnPdf] or
    at the upload, clears the pending flag of the room.  When the
    requesting user no longer exists, success and failure alike leave the
    room as it is. *)
Theorem terminal_outcome_room (svc : Services) :
  (∀ stream w user room,
     calls_succeed 8 w →
     users w !! userId (rs_details stream) = Some user →
     rooms w !! rid (rs_details stream) = Some room →
     (doRender_end svc stream w).1 = Ok tt ∧
     times_file_id_set (rid (rs_details stream)) (doRender_end svc stream w).2
     = S (times_file_id_set (rid (rs_details stream)) w) ∧
     rooms (doRender_end svc stream w).2 !! rid (rs_details stream)
     = Some (room_with_fileId (upload_id (transcript_file svc stream)) room)) ∧
  (∀ template details w w1 e room user,
     (currentJobNumber w < maxNumberOfConcurrentJobs w)%Z →
     workOnPdf_body svc template details (admitted details w) = (Err e, w1) →
     calls_succeed 6 w1 →
     rooms w1 !! rid details = Some room → users w1 !! userId details = Some user →
     rooms (workOnPdf svc template details w).2 !! rid details
     = Some (room_with_requested false room)) ∧
  (∀ stream w e room user,
     head (faults w) = Some (Some e) → calls_succeed 6 (set_faults tail w) →
     rooms w !! rid (rs_details stream) = Some room →
     users w !! userId (rs_details stream) = Some user →
     rooms (doRender_end svc stream w).2 !! rid (rs_details stream)
     = Some (room_with_requested false room)) ∧
  (∀ stream w,
     calls_succeed 2 w → users w !! userId (rs_details stream) = None →
     rooms (doRender_end svc stream w).2 = rooms w) ∧
  (∀ template details w w1 e,
     (currentJobNumber w < maxNumberOfConcurrentJobs w)%Z →
     workOnPdf_body svc template details (admitted details w) = (Err e, w1) →
     calls_succeed 2 w1 → users w1 !! userId details = None →
     rooms (workOnPdf svc template details w).2 = rooms w1).
Proof.
  split; [|split; [|split; [|split]]].
  - intros stream w user room Hcalls Huser Hroom.
    destruct (doRender_end_delivers svc stream w user Hcalls Huser)
      as (Hr & Hrooms & Htimes & _).
    repeat split; try done. by rewrite Hrooms, lookup_alter_eq, Hroom.
  - intros template details w w1 e room user Hfree Hbody Hcalls Hroom Huser.
    rewrite (workOnPdf_caught svc template details w w1 e Hfree Hbody).
    destruct (pdfFailed_notifies svc details e w1 room user Hcalls Hroom Huser)
      as (_ & Hrooms & _).
    world_simpl. by rewrite Hrooms, lookup_alter_eq, Hroom.
  - intros stream w e room user Hthrows Hcalls Hroom Huser.
    rewrite (doRender_end_upload_fails svc stream w e Hthrows).
    destruct (pdfFailed_notifies svc (rs_details stream) e (set_faults tail w) room user
                Hcalls Hroom Huser) as (_ & Hrooms & _).
    rewrite Hrooms. world_simpl. by rewrite lookup_alter_eq, Hroom.
  - intros stream w Hcalls Huser. by apply doRender_end_skips.
  - intros template details w w1 e Hfree Hbody Hcalls Huser.
    rewrite (workOnPdf_caught svc template details w w1 e Hfree Hbody).
    destruct (pdfFailed_skips svc details e w1 Hcalls (or_intror Huser))
      as (_ & Hrooms & _).
    by world_simpl.
Qed.

Lemma terminal_outcome_room_witness :
  calls_succeed 8 (world_of pending_room [] []) ∧
  times_file_id_set "room-1"
    (doRender_end demo_services (stream_of job_1) (world_of pending_room [] [])).2 = 1 ∧
  rooms (doRender_end demo_services (stream_of job_1) (world_of pending_room [] [])).2
    !! "room-1"
  = Some (room_with_fileId "upload:Transcript_Acme_11/2/2026_guest-7.pdf" pending_room).
Proof.
  assert (calls_succeed 8 (world_of pending_room [] [])) as Hcalls by (by vm_compute).
  split; [exact Hcalls|].
  destruct (terminal_outcome_room demo_services) as (Hsuccess & _).
  destruct (Hsuccess (stream_of job_1) (world_of pending_room [] []) agent_1 pending_room
              Hcalls eq_refl eq_refl) as (_ & Htimes & Hroom).
  split; [exact Htimes|exact Hroom].
Defined.

(** C9, as stated, fails: when the requesting user has been deleted, a job
    that fails leaves the room flagged as pending, with no file reference;
    so does a job whose transcript was rendered and uploaded. *)
Lemma deleted_requester_leaves_room_pending :
  (workOnPdf demo_services "omnichannel-transcript" job_ghost
     (world_of pending_room [None; Some (mkError "timeout")] [])).1 = Ok tt ∧
  rooms (workOnPdf demo_services "omnichannel-transcript" job_ghost
           (world_of pending_room [None; Some (mkError "timeout")] [])).2 !! "room-1"
  = Some pending_room ∧
  (doRender_end demo_services (stream_of job_ghost) (world_of pending_room [] [])).1
  = Ok tt ∧
  rooms (doRender_end demo_services (stream_of job_ghost) (world_of pending_room [] [])).2
    !! "room-1" = Some pending_room ∧
  pdfTranscriptRequested pending_room = true ∧
  pdfTranscriptFileId pending_room = None.
Proof. repeat split; by vm_compute. Qed.

(** ** What [workOnPdf] raises *)

(** C10, as amended.  [workOnPdf] raises [Retry] when the job is not
    admitted.  After admission, every error raised in its [try] block is
    caught and handed to [pdfFailed], whose outcome is the outcome of the
    call: the call returns normally when the collaborators of the failure
    path answer, and raises only an error that one of them throws during
    the notification.  Such an error is not swallowed: whichever call of
    the failure path throws (the lookups, the update of the flag, the
    opening of the conversation, the translation, the sending), with the
    room and the user in the store, [workOnPdf] raises that error to its
    caller after releasing the counter, and the only lines logged since
    the failure are those of the failure path about the first error: no
    line is written about the error of the notification.  An upload that
    throws in the stream's [end] handler is handed to [pdfFailed]
    there. *)
Theorem workOnPdf_raises (svc : Services) (template : string)
    (details : WorkDetailsWithSource) (w : World) :
  let r := (workOnPdf svc template details w).1 in
  let w' := (workOnPdf svc template details w).2 in
  let body := workOnPdf_body svc template details (admitted details w) in
  ((maxNumberOfConcurrentJobs w ≤ currentJobNumber w)%Z → r = Err Retry) ∧
  ((currentJobNumber w < maxNumberOfConcurrentJobs w)%Z →
   (body.1 = Ok tt → r = Ok tt) ∧
   (∀ e, body.1 = Err e →
      r = (pdfFailed svc details e body.2).1 ∧
      (calls_succeed 6 body.2 → r = Ok tt) ∧
      (∀ e', r = Err e' → Some e' ∈ faults body.2) ∧
      (∀ room user k e' fs,
         faults body.2 = replicate k None ++ Some e' :: fs → k < 6 →
         rooms body.2 !! rid details = Some room →
         users body.2 !! userId details = Some user →
         r = Err e' ∧
         logs w' = logs body.2 ++ take (if 3 <? k then 2 else 1) (failure_logs details e) ∧
         currentJobNumber w' = currentJobNumber w))) ∧
  (∀ stream w0 e,
     head (faults w0) = Some (Some e) →
     doRender_end svc stream w0 = pdfFailed svc (rs_details stream) e (set_faults tail w0)).
Proof.
  cbv zeta. split; [|split].
  - intros Hfull. unfold workOnPdf. unfold_methods. world_simpl.
    by destruct (Z.leb_spec (maxNumberOfConcurrentJobs w) (currentJobNumber w)); [|lia].
  - intros Hfree.
    pose proof (workOnPdf_releases svc template details w Hfree) as Hback.
    destruct (workOnPdf_body svc template details (admitted details w))
      as [[[]|e] w1] eqn:Hbody; simpl.
    + split; [|done]. intros _.
      by rewrite (workOnPdf_completed svc template details w w1 Hfree Hbody).
    + split; [done|]. intros e0 [= <-].
      rewrite (workOnPdf_caught svc template details w w1 e Hfree Hbody) in *. simpl.
      split; [done|]. split; [|split].
      * apply pdfFailed_returns.
      * intros e'. apply pdfFailed_fails_by.
      * intros room user k e' fs Hfaults Hk Hroom Huser.
        destruct (pdfFailed_interrupted svc details e e' w1 room user k fs Hfaults Hk
                    Hroom Huser) as (Hr & _ & _ & Hlogs & _).
        world_simpl. by rewrite Hlogs.
  - intros stream w0 e. apply doRender_end_upload_fails.
Qed.

Lemma workOnPdf_raises_witness :
  (currentJobNumber (world_of pending_room [None; Some (mkError "timeout")] [])
   < maxNumberOfConcurrentJobs (world_of pending_room [None; Some (mkError "timeout")] []))%Z ∧
  (workOnPdf_body demo_services "omnichannel-transcript" job_1
     (admitted job_1 (world_of pending_room [None; Some (mkError "timeout")] []))).1
  = Err (mkError "timeout") ∧
  (workOnPdf demo_services "omnichannel-transcript" job_1
     (world_of pending_room [None; Some (mkError "timeout")] [])).1 = Ok tt.
Proof.
  set (w := world_of pending_room [None; Some (mkError "timeout")] []).
  assert (currentJobNumber w < maxNumberOfConcurrentJobs w)%Z as Hfree by (by vm_compute).
  assert ((workOnPdf_body demo_services "omnichannel-transcript" job_1
             (admitted job_1 w)).1 = Err (mkError "timeout")) as Hbody by (by vm_compute).
  split; [exact Hfree|]. split; [exact Hbody|].
  destruct (workOnPdf_raises demo_services "omnichannel-transcript" job_1 w)
    as (_ & Hadmitted & _).
  destruct (Hadmitted Hfree) as (_ & Hcaught).
  destruct (Hcaught (mkError "timeout") Hbody) as (_ & Hreturns & _).
  apply Hreturns. by vm_compute.
Defined.

(** C10, as stated, fails: when the failure notification itself fails
    (here the error message cannot be sent), the error is not swallowed:
    [workOnPdf] raises it to its caller, and the service writes no log
    line about it. *)
Lemma failed_notification_reaches_caller :
  (workOnPdf demo_services "omnichannel-transcript" job_1
     (world_of pending_room
        [None; Some (mkError "timeout"); None; None; None; None; None;
         Some (mkError "cannot send")] [])).1
  = Err (mkError "cannot send") ∧
  mkError "cannot send" ≠ Retry ∧
  logs (workOnPdf demo_services "omnichannel-transcript" job_1
          (world_of pending_room
             [None; Some (mkError "timeout"); None; None; None; None; None;
              Some (mkError "cannot send")] [])).2
  = [LogLog "Processing transcript for room room-1 by user agent-1 - Received from queue";
     LogError "Transcript for room room-1 by user agent-1 - Failed: timeout";
     LogLog "Transcript for room room-1 by user agent-1 - Sending error message to user"] ∧
  currentJobNumber
    (workOnPdf demo_services "omnichannel-transcript" job_1
       (world_of pending_room
          [None; Some (mkError "timeout"); None; None; None; None; None;
           Some (mkError "cannot send")] [])).2 = 0%Z.
Proof. repeat split; by vm_compute. Qed.

(** ** The scenario of a transcript delivered

    A closed room with its agent and visitor: the request marks the room
    and enqueues one work item; the job sets up one render stream and
    leaves the counter at zero; the end of the stream uploads the document,
    sets the file reference of the room and delivers the file twice, into
    the room and into the direct conversation. *)
Example transcript_delivered :
  let w1 := (requestTranscript request_1 (world_of closed_room [] [])).2 in
  let w2 := (workOnPdf demo_services "omnichannel-transcript" job_1 w1).2 in
  let w3 := (doRender_end demo_services (stream_of job_1) w2).2 in
  effects w1 = [SetTranscriptRequestedPdfById "room-1";
                QueueWork "work" "omnichannel-transcript.workOnPdf"
                  "omnichannel-transcript" job_1] ∧
  length (streams w2) = 1 ∧ currentJobNumber w2 = 0%Z ∧
  map mf_id (wd_messages (rs_data (default (stream_of job_1) (head (streams w2)))))
  = ["m1"; "m2"] ∧
  rooms w3 !! "room-1"
  = Some (room_with_fileId "upload:Transcript_Acme_11/2/2026_guest-7.pdf" pending_room) ∧
  drop 5 (effects w3)
  = success_deliveries demo_services job_1 agent_1 (transcript_file demo_services
                                                      (stream_of job_1)).
Proof. repeat split; by vm_compute. Qed.

(** * Further properties of the service *)

(** ** Request intake: the accepted request *)

Lemma requestTranscript_accepted (details : WorkDetails) (w : World) (room : Room) :
  calls_succeed 1 w →
  rooms w !! wd_rid details = Some room → requestable room →
  pdfTranscriptRequested room = false →
  requestTranscript details w =
  (LivechatRooms_setTranscriptRequestedPdfById (wd_rid details) >>
   log_log ("Queuing work for room " +:+ wd_rid details) >>
   queueService_queueWork "work" (service_name +:+ ".workOnPdf") "omnichannel-transcript"
     {| userId := wd_userId details; rid := wd_rid details; from := service_name |})
    (set_faults tail
       (set_logs (λ ls, ls ++ [LogLog ("Requesting transcript for room "
                                       +:+ wd_rid details +:+ " by user "
                                       +:+ wd_userId details)]) w)).
Proof.
  intros Hcalls Hroom (Hclosed & [agent Hagent] & [visitor Hvisitor]) Hfresh.
  rewrite requestTranscript_lookup by done.
  by rewrite Hroom, Hclosed, Hagent, Hvisitor, Hfresh.
Qed.

(** X1. A request for a closed room with agent and visitor that is not yet
    flagged, when the three collaborator calls answer, returns normally,
    flags the room, and enqueues exactly one work item for [workOnPdf]
    carrying the room, the user and the service name; the flag is written
    before the item is enqueued, and nothing else changes. *)
Theorem requestTranscript_enqueues (details : WorkDetails) (w : World) (room : Room) :
  calls_succeed 3 w →
  rooms w !! wd_rid details = Some room → requestable room →
  pdfTranscriptRequested room = false →
  let r := (requestTranscript details w).1 in
  let w' := (requestTranscript details w).2 in
  r = Ok tt ∧
  rooms w' = <[wd_rid details := room_with_requested true room]> (rooms w) ∧
  effects w' = effects w ++ [SetTranscriptRequestedPdfById (wd_rid details);
                             work_item details] ∧
  uploads w' = uploads w ∧ streams w' = streams w ∧ untouched w w'.
Proof.
  intros Hcalls Hroom Hok Hfresh. cbv zeta.
  pose proof (calls_succeed_le 3 1 w ltac:(lia) Hcalls) as Hfirst.
  rewrite (requestTranscript_accepted details w room Hfirst Hroom Hok Hfresh).
  apply calls_succeed_S in Hcalls as [_ Hcalls].
  unfold_methods. do 2 call_ok Hcalls. world_simpl.
  rewrite <- app_assoc. repeat split; try done.
  apply map_eq. intros id. destruct (decide (id = wd_rid details)) as [->|Hne].
  - by rewrite lookup_alter_eq, lookup_insert_eq, Hroom.
  - by rewrite lookup_alter_ne, lookup_insert_ne.
Qed.

Lemma requestTranscript_enqueues_witness :
  calls_succeed 3 (world_of closed_room [] []) ∧
  (requestTranscript request_1 (world_of closed_room [] [])).1 = Ok tt ∧
  effects (requestTranscript request_1 (world_of closed_room [] [])).2
  = [SetTranscriptRequestedPdfById "room-1"; work_item request_1].
Proof.
  assert (calls_succeed 3 (world_of closed_room [] [])) as Hcalls by (by vm_compute).
  split; [exact Hcalls|].
  destruct (requestTranscript_enqueues request_1 (world_of closed_room [] []) closed_room
              Hcalls eq_refl) as (Hr & _ & Heffects & _).
  { repeat split; by eexists. }
  { reflexivity. }
  split; [exact Hr|exact Heffects].
Defined.

(** X2. When the store accepts the flag and the queue then rejects the work
    item, the request fails with the error of the queue, but the room stays
    flagged and nothing is enqueued: from then on every request for the
    room is the silent no-op of a pending room, although no job is under
    way. *)
Theorem requestTranscript_enqueue_failure (details : WorkDetails) (w : World)
    (room : Room) (e : Error) (fs : list (option Error)) :
  faults w = None :: None :: Some e :: fs →
  rooms w !! wd_rid details = Some room → requestable room →
  pdfTranscriptRequested room = false →
  let r := (requestTranscript details w).1 in
  let w' := (requestTranscript details w).2 in
  r = Err e ∧
  rooms w' !! wd_rid details = Some (room_with_requested true room) ∧
  effects w' = effects w ++ [SetTranscriptRequestedPdfById (wd_rid details)] ∧
  (∀ again, wd_rid again = wd_rid details → calls_succeed 1 w' →
     (requestTranscript again w').1 = Ok tt ∧
     same_state w' (requestTranscript again w').2).
Proof.
  intros Hfaults Hroom Hok Hfresh. cbv zeta.
  assert (calls_succeed 1 w) as Hfirst.
  { unfold calls_succeed. rewrite Hfaults. simpl. by constructor. }
  rewrite (requestTranscript_accepted details w room Hfirst Hroom Hok Hfresh).
  unfold_methods. unfold external.
  repeat (world_simpl; rewrite Hfaults; cbn [head tail]; cbn beta iota).
  world_simpl.
  assert (alter (room_with_requested true) (wd_rid details) (rooms w) !! wd_rid details
          = Some (room_with_requested true room)) as Hflag
    by (by rewrite lookup_alter_eq, Hroom).
  destruct Hok as (Hclosed & Hagent & Hvisitor).
  split; [done|]. split; [exact Hflag|]. split; [done|].
  intros again Hrid Hcalls.
  eapply requestTranscript_pending; [exact Hcalls|rewrite Hrid; exact Hflag|done..].
Qed.

Lemma requestTranscript_enqueue_failure_witness :
  faults (world_of closed_room [None; None; Some (mkError "queue down")] [])
  = [None; None; Some (mkError "queue down")] ∧
  (requestTranscript request_1
     (world_of closed_room [None; None; Some (mkError "queue down")] [])).1
  = Err (mkError "queue down") ∧
  effects (requestTranscript request_1
             (world_of closed_room [None; None; Some (mkError "queue down")] [])).2
  = [SetTranscriptRequestedPdfById "room-1"].
Proof.
  split; [reflexivity|].
  destruct (requestTranscript_enqueue_failure request_1
              (world_of closed_room [None; None; Some (mkError "queue down")] [])
              closed_room (mkError "queue down") [] eq_refl eq_refl)
    as (Hr & _ & Heffects & _).
  { repeat split; by eexists. }
  { reflexivity. }
  split; [exact Hr|exact Heffects].
Defined.

(** X3. Whatever the room and whatever the collaborators do, a request
    journals nothing, or the flag alone, or the flag followed by one work
    item: it never enqueues twice and never enqueues for a room it has not
    flagged.  It returns normally only after nothing or after both; the
    counters, the streams and the other collections are never touched. *)
Theorem requestTranscript_journal (details : WorkDetails) (w : World) :
  let r := (requestTranscript details w).1 in
  let w' := (requestTranscript details w).2 in
  (effects w' = effects w ∧ rooms w' = rooms w ∨
   effects w' = effects w ++ [SetTranscriptRequestedPdfById (wd_rid details)] ∧ r ≠ Ok tt ∨
   effects w' = effects w ++ [SetTranscriptRequestedPdfById (wd_rid details);
                              work_item details] ∧ r = Ok tt) ∧
  uploads w' = uploads w ∧ streams w' = streams w ∧ untouched w w'.
Proof.
  cbv zeta. unfold requestTranscript. unfold_methods. unfold external. world_simpl.
  destruct (head (faults w)) as [[e|]|]; cbn beta iota; world_simpl;
    try (by repeat split; try left).
  all: destruct (rooms w !! wd_rid details) as [room|]; [|by repeat split; try left].
  all: destruct (open room); [by repeat split; try left|].
  all: destruct (absent (servedBy room) || absent (v room));
         [by repeat split; try left|].
  all: destruct (pdfTranscriptRequested room); [by repeat split; try left|].
  all: unfold external; world_simpl.
  all: destruct (head (tail (faults w))) as [[e1|]|]; cbn beta iota; world_simpl;
         try (by repeat split; try left).
  all: destruct (head (tail (tail (faults w)))) as [[e2|]|]; cbn beta iota; world_simpl.
  all: rewrite <- ?app_assoc.
  all: split; [|by repeat split].
  all: try (right; left; by split).
  all: right; right; by split.
Qed.

(** ** The file id of a [title_link] *)

Lemma strip_prefix_append (p s : string) : strip_prefix p (p +:+ s) = Some s.
Proof. induction p as [|c p IH]; simpl; [done|]. by rewrite Ascii.eqb_refl. Qed.

Lemma strip_prefix_Some (p s r : string) : strip_prefix p s = Some r → s = p +:+ r.
Proof.
  revert s. induction p as [|c p IH]; intros s; simpl; [by intros [= ->]|].
  destruct s as [|d s]; [done|].
  destruct (Ascii.eqb_spec c d) as [->|]; [|done].
  intros H. by rewrite (IH s H).
Qed.

Lemma is_line_terminator_prefix (s t : string) :
  is_line_terminator (s +:+ t) = false → is_line_terminator s = false.
Proof.
  destruct s as [|c [|c2 [|c3 s]]]; simpl; [done|..];
    destruct (Ascii.eqb c "010"), (Ascii.eqb c "013"), (Ascii.eqb c "226"); simpl; try done.
  all: rewrite ?andb_false_r; done.
Qed.

Lemma is_line_terminator_slash (s t : string) :
  s ≠ "" → is_line_terminator (s +:+ String "/" t) = is_line_terminator s.
Proof.
  destruct s as [|c [|c2 [|c3 s]]]; [done|intros _..]; simpl; [by destruct t| |done].
  by rewrite !andb_false_r.
Qed.

Lemma line_of_one_line (s : string) : one_line s → line_of s = s.
Proof.
  unfold one_line. induction s as [|c s IH]; [done|].
  cbn [line_of no_line_terminator]. intros [Hc Hs]%andb_prop.
  apply negb_true_iff in Hc. rewrite Hc. by rewrite IH.
Qed.

Lemma line_of_prefix (s : string) : ∃ rest, s = line_of s +:+ rest.
Proof.
  induction s as [|c s [rest IH]]; [by exists ""|]. cbn [line_of].
  destruct (is_line_terminator (String c s)).
  - by exists (String c s).
  - exists rest. change (String c s = String c (line_of s +:+ rest)). by f_equal.
Qed.

Lemma line_of_is_one_line (s : string) : one_line (line_of s).
Proof.
  unfold one_line. induction s as [|c s IH]; [done|]. cbn [line_of].
  destruct (is_line_terminator (String c s)) eqn:Hc; [done|].
  cbn [no_line_terminator]. rewrite IH, andb_true_r. apply negb_true_iff.
  destruct (line_of_prefix s) as [rest Hrest].
  apply (is_line_terminator_prefix _ rest).
  change (is_line_terminator (String c (line_of s +:+ rest)) = false).
  by rewrite <- Hrest.
Qed.

Lemma one_line_prefix (s t : string) : one_line (s +:+ t) → one_line s.
Proof.
  unfold one_line. induction s as [|c s IH]; [done|].
  change (String c s +:+ t) with (String c (s +:+ t)). cbn [no_line_terminator].
  intros [Hc Hs]%andb_prop. apply negb_true_iff in Hc.
  change (String c (s +:+ t)) with (String c s +:+ t) in Hc.
  apply is_line_terminator_prefix in Hc. rewrite Hc. by apply IH.
Qed.

Lemma one_line_slash (s t : string) :
  one_line s → one_line t → one_line (s +:+ String "/" t).
Proof.
  unfold one_line. intros Hs Ht. induction s as [|c s IH]; [done|].
  change (String c s +:+ String "/" t) with (String c (s +:+ String "/" t)).
  cbn [no_line_terminator] in *. apply andb_prop in Hs as [Hc Hs].
  rewrite (IH Hs), andb_true_r.
  change (String c (s +:+ String "/" t)) with (String c s +:+ String "/" t).
  by rewrite is_line_terminator_slash.
Qed.

Lemma before_last_slash_none (s : string) : no_slash s → before_last_slash s = None.
Proof.
  unfold no_slash. induction s as [|c s IH]; simpl; [done|].
  destruct (Ascii.eqb c "/"); simpl; [done|]. intros H. by rewrite IH.
Qed.

Lemma before_last_slash_append (g name : string) :
  no_slash name → before_last_slash (g +:+ "/" +:+ name) = Some g.
Proof.
  intros Hname. induction g as [|c g IH]; simpl.
  - by rewrite before_last_slash_none.
  - by rewrite IH.
Qed.

Lemma before_last_slash_Some (s g : string) :
  before_last_slash s = Some g → ∃ name, s = g +:+ "/" +:+ name ∧ no_slash name.
Proof.
  revert g. induction s as [|c s IH]; intros g; simpl; [done|].
  destruct (before_last_slash s) as [g'|] eqn:Hs.
  - intros [= <-]. destruct (IH g' eq_refl) as (name & -> & Hname).
    by exists name.
  - destruct (Ascii.eqb_spec c "/") as [->|]; [|done]. intros [= <-].
    exists s. split; [done|].
    clear IH. unfold no_slash. induction s as [|d s IHs]; simpl in *; [done|].
    destruct (before_last_slash s); [done|].
    destruct (Ascii.eqb d "/"); [done|]. simpl. by apply IHs.
Qed.

Lemma string_forall_append (p : ascii → bool) (s1 s2 : string) :
  string_forall p (s1 +:+ s2) = string_forall p s1 && string_forall p s2.
Proof. induction s1 as [|c s1 IH]; simpl; [done|]. by rewrite IH, andb_assoc. Qed.

Lemma match_file_upload_at (s g : string) :
  file_upload_at s = Some g → match_file_upload s = Some g.
Proof. intros Hat. destruct s; cbn [match_file_upload]; by rewrite Hat. Qed.

Lemma string_append_assoc (s1 s2 s3 : string) : (s1 +:+ s2) +:+ s3 = s1 +:+ s2 +:+ s3.
Proof.
  induction s1 as [|c s1 IH]; [done|].
  change (String c ((s1 +:+ s2) +:+ s3) = String c (s1 +:+ s2 +:+ s3)). by f_equal.
Qed.

(** The dot stops at U+2028 and at U+2029 as it does at LF and CR: an id
    cut by one of them is not extracted, and a line terminator after the
    first [/] of the id ends the text that the group can take. *)
Example match_file_upload_separators :
  let line_separator := String "226" (String "128" (String "168" "")) in
  let paragraph_separator := String "226" (String "128" (String "169" "")) in
  match_file_upload ("/file-upload/a" +:+ line_separator +:+ "b/c.png") = None ∧
  match_file_upload ("/file-upload/a" +:+ paragraph_separator +:+ "b/c.png") = None ∧
  match_file_upload ("/file-upload/a" +:+ String "010" "b/c.png") = None ∧
  match_file_upload ("/file-upload/a/b" +:+ paragraph_separator +:+ "c/d.png") = Some "a" ∧
  match_file_upload ("x" +:+ line_separator +:+ "/file-upload/a/b") = Some "a" ∧
  ¬ one_line ("a" +:+ line_separator +:+ "b").
Proof. repeat split; done. Qed.

(** X4. The link format the code expects, [/file-upload/FILE_ID/FILE_NAME],
    gives back the file id: for every id and every name on one line (free
    of LF, CR, U+2028 and U+2029), the name being free of [/], the pattern
    extracts exactly the id (which may itself contain [/], the group being
    greedy). *)
Theorem match_file_upload_link (id fileName : string) :
  one_line id → one_line fileName → no_slash fileName →
  match_file_upload ("/file-upload/" +:+ id +:+ "/" +:+ fileName) = Some id.
Proof.
  intros Hid Hname Hslash.
  assert (file_upload_at ("/file-upload/" +:+ id +:+ "/" +:+ fileName) = Some id) as Hat.
  { unfold file_upload_at. rewrite strip_prefix_append.
    rewrite line_of_one_line; [by apply before_last_slash_append|].
    by apply (one_line_slash id fileName). }
  by apply match_file_upload_at.
Qed.

Lemma match_file_upload_link_witness :
  one_line "a1/b2" ∧ one_line "cat.png" ∧ no_slash "cat.png" ∧
  match_file_upload "/file-upload/a1/b2/cat.png" = Some "a1/b2".
Proof.
  assert (one_line "a1/b2") as Hid by reflexivity.
  assert (one_line "cat.png") as Hname by reflexivity.
  assert (no_slash "cat.png") as Hslash by reflexivity.
  split; [exact Hid|]. split; [exact Hname|]. split; [exact Hslash|].
  exact (match_file_upload_link "a1/b2" "cat.png" Hid Hname Hslash).
Defined.

(** X5. Whatever the link, an extracted file id is what stands in the link
    between an occurrence of [/file-upload/] and a later [/]: the id is on
    one line (it holds none of LF, CR, U+2028, U+2029), and a link without
    [/file-upload/] followed by a [/] gives no id. *)
Theorem match_file_upload_sound (link id : string) :
  match_file_upload link = Some id →
  one_line id ∧
  ∃ before after, link = before +:+ "/file-upload/" +:+ id +:+ "/" +:+ after.
Proof.
  induction link as [|c link IH].
  - simpl. unfold file_upload_at. simpl. done.
  - cbn [match_file_upload].
    destruct (file_upload_at (String c link)) as [g|] eqn:Hat.
    + intros [= <-]. unfold file_upload_at in Hat.
      destruct (strip_prefix "/file-upload/" (String c link)) as [rest|] eqn:Hrest;
        [|done].
      apply strip_prefix_Some in Hrest.
      destruct (before_last_slash_Some _ _ Hat) as (name & Hline & _).
      destruct (line_of_prefix rest) as [tl Htl].
      split.
      * pose proof (line_of_is_one_line rest) as Hone. rewrite Hline in Hone.
        by apply one_line_prefix in Hone.
      * exists "", (name +:+ tl). rewrite Hrest, Htl, Hline.
        by rewrite !string_append_assoc.
    + intros Hrec. destruct (IH Hrec) as (Hone & before & after & ->).
      split; [done|]. by exists (String c before), after.
Qed.

Lemma match_file_upload_sound_witness :
  match_file_upload "https://chat.example/file-upload/f42/report.pdf" = Some "f42" ∧
  one_line "f42".
Proof.
  assert (match_file_upload "https://chat.example/file-upload/f42/report.pdf" = Some "f42")
    as Hmatch by reflexivity.
  split; [exact Hmatch|].
  exact (proj1 (match_file_upload_sound _ _ Hmatch)).
Defined.

(** ** File resolution: shapes and buffers *)

(** X6. Messages without attachments (none of them, or an empty list) go
    through file resolution as they are, markdown included and without any
    file entry; no collaborator is called for them, so the call cannot
    fail, whatever faults are pending, and it changes nothing, not even the
    log.  In particular the empty list of messages gives the empty list. *)
Theorem getFiles_plain (svc : Services) (user : string) (msgs : list Message) (w : World) :
  Forall without_attachments msgs →
  (getFiles svc user msgs w).1 = Ok (map plain msgs) ∧
  faults (getFiles svc user msgs w).2 = faults w ∧
  logs (getFiles svc user msgs w).2 = logs w ∧
  same_state w (getFiles svc user msgs w).2.
Proof.
  intros Hplain.
  pose proof (triple_promise_all_map
                (λ w', faults w' = faults w ∧ logs w' = logs w ∧ same_state w w')
                never (λ m r, r = plain m) (getFiles_message svc user) msgs) as Hall.
  rewrite Forall_forall in Hplain.
  specialize (Hall ltac:(done)). unfold getFiles.
  assert (∀ m, m ∈ msgs →
            triple (λ w', faults w' = faults w ∧ logs w' = logs w ∧ same_state w w')
              (getFiles_message svc user m) (λ r, r = plain m) never) as Hone.
  { intros m Hm. unfold getFiles_message.
    destruct (Hplain m Hm) as [-> | ->]; by apply triple_ret. }
  specialize (Hall Hone w ltac:(by repeat split)).
  destruct (promise_all (map (getFiles_message svc user) msgs) w) as [[out|e] w'];
    simpl; [|by destruct Hall].
  destruct Hall as ((Hfaults & Hlogs & Hsame) & Hout).
  apply Forall2_eq_map in Hout as ->. done.
Qed.

Lemma getFiles_plain_witness :
  Forall without_attachments [hello; closing] ∧
  (getFiles demo_services "agent-1" [hello; closing]
     (world_of pending_room [Some (mkError "down")] [1])).1
  = Ok [plain hello; plain closing].
Proof.
  assert (Forall without_attachments [hello; closing]) as Hplain
    by (repeat constructor; by left).
  split; [exact Hplain|].
  exact (proj1 (getFiles_plain demo_services "agent-1" [hello; closing]
                  (world_of pending_room [Some (mkError "down")] [1]) Hplain)).
Defined.

Lemma length_omap_le {A B} (f : A → option B) (l : list A) :
  length (omap f l) ≤ length l.
Proof. induction l as [|x l IH]; csimpl; [done|]. destruct (f x); simpl; lia. Qed.

Lemma getFiles_message_shaped (svc : Services) (user : string) (message : Message) :
  triple (λ _, True) (getFiles_message svc user message) (shaped message) (λ _, True).
Proof.
  unfold getFiles_message, shaped.
  destruct (attachments message) as [[|a atts]|] eqn:Hatts;
    cbn [absent orb length Nat.eqb]; try by apply triple_ret.
  eapply (triple_bind _ _ _ (λ l, length l = length (a :: atts))).
  - eapply triple_weaken;
      [apply (triple_promise_all_map (λ _, True) (λ _, True) (λ _ _, True)); [done|]|..].
    + intros a' _. by apply getFiles_attachment_triple.
    + intros l Hl. apply Forall2_length in Hl. by rewrite <- Hl.
    + done.
  - intros l Hl. apply triple_ret. cbn [mf_md mf_files]. split; [done|].
    pose proof (length_omap_le id l) as Hle. simpl in Hl |- *. lia.
Qed.

(** X7. Whenever file resolution returns, whatever the faults and the
    completion order: a message that has attachments comes back without its
    parsed markdown ([md]) and with at most one file entry per attachment;
    a message without attachments keeps its markdown and has no file
    entry. *)
Theorem getFiles_shapes (svc : Services) (user : string) (msgs : list Message)
    (w w' : World) (out : list MessageWithFiles) :
  getFiles svc user msgs w = (Ok out, w') → Forall2 shaped msgs out.
Proof.
  intros Hrun.
  pose proof (triple_promise_all_map (λ _, True) (λ _, True) shaped
                (getFiles_message svc user) msgs ltac:(done)
                (λ m _, getFiles_message_shaped svc user m) w I) as H.
  unfold getFiles in Hrun. rewrite Hrun in H. tauto.
Qed.

Lemma getFiles_shapes_witness :
  getFiles demo_services "agent-1" [photo; hello] (world_of pending_room [] [])
  = (Ok (map (resolved demo_services "agent-1" {[ "file-1" := file_1 ]}) [photo; hello]),
     (getFiles demo_services "agent-1" [photo; hello] (world_of pending_room [] [])).2) ∧
  Forall2 shaped [photo; hello]
    (map (resolved demo_services "agent-1" {[ "file-1" := file_1 ]}) [photo; hello]).
Proof.
  assert (getFiles demo_services "agent-1" [photo; hello] (world_of pending_room [] [])
          = (Ok (map (resolved demo_services "agent-1" {[ "file-1" := file_1 ]})
                     [photo; hello]),
             (getFiles demo_services "agent-1" [photo; hello]
                (world_of pending_room [] [])).2)) as Hrun by (by vm_compute).
  split; [exact Hrun|].
  exact (getFiles_shapes demo_services "agent-1" [photo; hello] _ _ _ Hrun).
Defined.

Lemma resolved_attachment_None (svc : Services) (user : string)
    (ups : gmap string Upload) (m : Message) (a : Attachment) :
  resolved_attachment svc user ups m a = None ↔ is_file_attachment a = false.
Proof.
  unfold resolved_attachment, is_file_attachment.
  destruct (bool_decide (type a = Some "file")); simpl; [|done].
  split; [|done].
  destruct (svc_isMimeTypeValid svc (image_type a)); simpl; [|done].
  destruct (locate_file m a) as [file|]; [|done].
  by destruct (ups !! file_id file).
Qed.

Lemma omap_filter {A B} (f : A → option B) (p : A → bool) (l : list A) :
  (∀ a, f a = None ↔ p a = false) →
  map Some (omap f l) = map f (List.filter p l).
Proof.
  intros Hfp. induction l as [|x l IH]; csimpl; [done|].
  destruct (f x) as [y|] eqn:Hx.
  - destruct (p x) eqn:Hp; [|apply Hfp in Hp; congruence].
    simpl. by rewrite Hx, IH.
  - apply Hfp in Hx. by rewrite Hx.
Qed.

(** X8. When no collaborator throws, and for every completion order, the
    file entries of a returned message are those of its attachments of
    type [file], one entry each and in the order of the attachments;
    attachments of any other type leave no entry. *)
Theorem getFiles_file_entries (svc : Services) (user : string) (msgs : list Message)
    (w : World) :
  calm w →
  ∃ out, (getFiles svc user msgs w).1 = Ok out ∧
    Forall2 (λ m r,
               length (mf_files r)
               = length (List.filter is_file_attachment (default [] (attachments m))) ∧
               map Some (mf_files r)
               = map (resolved_attachment svc user (uploads w) m)
                     (List.filter is_file_attachment (default [] (attachments m))))
            msgs out.
Proof.
  intros Hcalm. eexists. split; [by apply getFiles_completes|].
  apply Forall2_fmap_r, Forall_Forall2_diag, Forall_forall. intros m _.
  assert (map Some (mf_files (resolved svc user (uploads w) m))
          = map (resolved_attachment svc user (uploads w) m)
                (List.filter is_file_attachment (default [] (attachments m)))) as Hentries.
  { unfold resolved. destruct (attachments m) as [[|a atts]|]; try done.
    cbn [mf_files default]. apply omap_filter. intros a'.
    apply resolved_attachment_None. }
  split; [|done].
  apply (f_equal length) in Hentries. by rewrite !length_map in Hentries.
Qed.

Lemma getFiles_file_entries_witness :
  calm (world_of pending_room [] [2; 1]) ∧
  ∃ out, (getFiles demo_services "agent-1" [photo] (world_of pending_room [] [2; 1])).1
         = Ok out ∧
         map (λ r, length (mf_files r)) out = [3].
Proof.
  assert (calm (world_of pending_room [] [2; 1])) as Hcalm by (by vm_compute).
  split; [exact Hcalm|].
  destruct (getFiles_file_entries demo_services "agent-1" [photo]
              (world_of pending_room [] [2; 1]) Hcalm) as (out & Hout & Hall).
  exists out. split; [exact Hout|].
  inversion Hall as [|m r ms rs [Hlen _] Hrest]; subst.
  inversion Hrest; subst. simpl. by rewrite Hlen.
Defined.

(** X9. An attachment of type [file] with a valid mime type whose upload
    record exists is resolved to the bytes the upload service gives for
    that record (both calls answering).  The record is looked up under the
    id of the first file of the message whose name is the title of the
    attachment; only when there is none, under the non-empty id extracted
    from [title_link], the entry then being named by the title, or
    [upload] when the title is missing or empty. *)
Theorem getFiles_attachment_buffer (svc : Services) (user : string) (message : Message)
    (attachment : Attachment) (w : World) (uploaded : Upload) :
  type attachment = Some "file" →
  svc_isMimeTypeValid svc (image_type attachment) = true →
  calls_succeed 2 w →
  let r := (getFiles_attachment svc user message attachment w).1 in
  let by_title :=
    List.find (λ file, bool_decide (Some (file_name file) = title attachment))
              (default [] (files message)) in
  (∀ file, by_title = Some file → uploads w !! file_id file = Some uploaded →
     r = Ok (Some {| name := Some (file_name file);
                     buffer := Some (svc_getFileBuffer svc user uploaded) |})) ∧
  (∀ link fileId, by_title = None → title_link attachment = Some link →
     match_file_upload link = Some fileId → fileId ≠ "" →
     uploads w !! fileId = Some uploaded →
     r = Ok (Some {| name := Some (match title attachment with
                                   | Some t => if String.eqb t "" then "upload" else t
                                   | None => "upload"
                                   end);
                     buffer := Some (svc_getFileBuffer svc user uploaded) |})).
Proof.
  intros Htype Hmime Hcalls. cbv zeta. unfold getFiles_attachment.
  rewrite Htype, Hmime. rewrite bool_decide_eq_true_2 by done. cbn [negb].
  split.
  - intros file -> Hup. unfold_methods.
    call_ok Hcalls. world_simpl. rewrite Hup.
    call_ok Hcalls. done.
  - intros link fileId -> -> Hid Hne Hup. cbn [mbind option_bind]. rewrite Hid.
    assert (truthy (Some fileId) = true) as ->.
    { simpl. by destruct (String.eqb_spec fileId ""). }
    unfold_methods. cbn [negb].
    call_ok Hcalls. world_simpl. cbn [file_id file_name default from_option id].
    rewrite Hup. call_ok Hcalls.
    unfold or_else, truthy. destruct (title attachment) as [t|]; [|done].
    by destruct (String.eqb t "").
Qed.

Lemma getFiles_attachment_buffer_witness :
  type picture = Some "file" ∧
  svc_isMimeTypeValid demo_services (image_type picture) = true ∧
  calls_succeed 2 (world_of pending_room [] []) ∧
  (getFiles_attachment demo_services "agent-1" photo picture (world_of pending_room [] [])).1
  = Ok (Some {| name := Some "cat.png";
                buffer := Some [Byte.x89; Byte.x50; Byte.x4e; Byte.x47] |}).
Proof.
  assert (type picture = Some "file") as Htype by reflexivity.
  assert (svc_isMimeTypeValid demo_services (image_type picture) = true) as Hmime
    by reflexivity.
  assert (calls_succeed 2 (world_of pending_room [] [])) as Hcalls by (by vm_compute).
  split; [exact Htype|]. split; [exact Hmime|]. split; [exact Hcalls|].
  destruct (getFiles_attachment_buffer demo_services "agent-1" photo picture
              (world_of pending_room [] []) file_1 Htype Hmime Hcalls) as [Htitle _].
  exact (Htitle {| file_id := "file-1"; file_name := "cat.png" |} eq_refl eq_refl).
Defined.

(** ** Translations and time zone *)

Lemma getTranslations_exact (svc : Services) (I : World → Prop) (E : Error → Prop) :
  (∀ w, I w → I (set_faults tail w)) →
  (∀ n w, I w → I (set_picks (drop n) w)) →
  (∀ w e, I w → head (faults w) = Some (Some e) → E e) →
  triple I (getTranslations svc)
    (λ out, out = map (λ key, (key, svc_translateToServerLanguage svc key))
                      translation_keys) E.
Proof.
  intros Hfaults Hpicks Hthrow. unfold getTranslations.
  eapply triple_weaken;
    [apply (triple_promise_all_map I E
              (λ key r, r = (key, svc_translateToServerLanguage svc key)));
     [done|]|..].
  - intros key _. unfold translationService_translateToServerLanguage.
    eapply (triple_bind _ _ _ (λ r, r = svc_translateToServerLanguage svc key)).
    + eapply (triple_bind _ _ _ (λ _, True)); [by apply external_triple|].
      intros _ _. by apply triple_ret.
    + intros r ->. by apply triple_ret.
  - intros l Hl. by apply Forall2_eq_map.
  - done.
Qed.

(** X10. The translations handed to the renderer are the seven keys of the
    service, in the order the code lists them, each with its translation
    into the server language: whenever [getTranslations] returns its keys
    are these; when no collaborator throws it returns, for every
    completion order; and it is rejected only with an error that the
    translation service throws. *)
Theorem getTranslations_keys (svc : Services) (w : World) :
  (∀ out w', getTranslations svc w = (Ok out, w') →
     map fst out = ["Agent"; "Date"; "Customer"; "Omnichannel_Agent"; "Time";
                    "Chat_transcript"; "This_attachment_is_not_supported"]) ∧
  (calm w →
   (getTranslations svc w).1
   = Ok (map (λ key, (key, svc_translateToServerLanguage svc key)) translation_keys)) ∧
  (∀ e, (getTranslations svc w).1 = Err e → Some e ∈ faults w).
Proof.
  pose proof (getTranslations_exact svc) as Hgen.
  split; [|split].
  - intros out w' Hrun.
    pose proof (Hgen (λ _, True) (λ _, True) ltac:(done) ltac:(done) ltac:(done) w I) as H.
    rewrite Hrun in H. destruct H as [_ ->]. by rewrite map_map.
  - intros Hcalm.
    pose proof (Hgen calm never calm_tail ltac:(done) calm_head w Hcalm) as H.
    destruct (getTranslations svc w) as [[out|e] w']; simpl; [|by destruct H].
    by destruct H as [_ ->].
  - intros e.
    pose proof (Hgen (later_than w) (λ e, Some e ∈ faults w) (later_than_tail w)
                  (later_than_picks w) (later_than_head w) w (later_than_refl w)) as H.
    destruct (getTranslations svc w) as [[out|e'] w']; simpl; [done|].
    intros [= ->]. tauto.
Qed.

Lemma getTranslations_keys_witness :
  calm (world_of pending_room [] [3; 0; 5]) ∧
  map snd (match (getTranslations demo_services (world_of pending_room [] [3; 0; 5])).1 with
           | Ok out => out
           | Err _ => []
           end)
  = ["[Agent]"; "[Date]"; "[Customer]"; "[Omnichannel_Agent]"; "[Time]";
     "[Chat_transcript]"; "[This_attachment_is_not_supported]"].
Proof.
  assert (calm (world_of pending_room [] [3; 0; 5])) as Hcalm by (by vm_compute).
  split; [exact Hcalm|].
  destruct (getTranslations_keys demo_services (world_of pending_room [] [3; 0; 5]))
    as (_ & Hreturns & _).
  by rewrite (Hreturns Hcalm).
Defined.



(** ** The worker: what the [try] block does *)

(** Sequencing a method that keeps an invariant with whatever follows. *)
Lemma triple_then {A B} (I : World → Prop) (m : M A) (P : A → Prop) (E : Error → Prop)
    (k : A → M B) (Q : Result B → World → Prop) :
  triple I m P E →
  (∀ e w1, I w1 → E e → Q (Err e) w1) →
  (∀ a w1, I w1 → P a → Q (k a w1).1 (k a w1).2) →
  ∀ w, I w → Q (bind m k w).1 (bind m k w).2.
Proof.
  intros Hm Herr Hk w Hw. unfold bind. specialize (Hm w Hw).
  destruct (m w) as [[a|e] w1]; destruct Hm; simpl; auto.
Qed.

Lemma workOnPdf_body_frame (svc : Services) (template : string)
    (details : WorkDetailsWithSource) (w : World) :
  rooms (workOnPdf_body svc template details w).2 = rooms w ∧
  effects (workOnPdf_body svc template details w).2 = effects w ∧
  uploads (workOnPdf_body svc template details w).2 = uploads w ∧
  untouched w (workOnPdf_body svc template details w).2.
Proof.
  pose proof (workOnPdf_body_triple svc
                (λ w', rooms w' = rooms w ∧ effects w' = effects w ∧
                       uploads w' = uploads w ∧ untouched w w')
                (λ _, True) ltac:(done) ltac:(done) ltac:(done) ltac:(done) ltac:(done)
                I template details w ltac:(by repeat split)) as H.
  destruct (workOnPdf_body svc template details w) as [[[]|e] w']; simpl; tauto.
Qed.

Lemma workOnPdf_body_streams (svc : Services) (template : string)
    (details : WorkDetailsWithSource) (w : World) :
  match (workOnPdf_body svc template details w).1 with
  | Ok _ => ∃ stream, streams (workOnPdf_body svc template details w).2
                      = streams w ++ [stream] ∧ rs_details stream = details
  | Err _ => streams (workOnPdf_body svc template details w).2 = streams w
  end.
Proof.
  set (I := λ w' : World, streams w' = streams w).
  set (Q := λ (r : Result unit) (w' : World),
              match r with
              | Ok _ => ∃ stream, streams w' = streams w ++ [stream]
                                  ∧ rs_details stream = details
              | Err _ => streams w' = streams w
              end).
  change (Q (workOnPdf_body svc template details w).1
            (workOnPdf_body svc template details w).2).
  assert (∀ w, I w → I (set_faults tail w)) as Hfaults by done.
  assert (∀ n w, I w → I (set_picks (drop n) w)) as Hpicks by done.
  assert (∀ f w, I w → I (set_logs f w)) as Hlogs by done.
  assert (∀ (w : World) (e : Error), I w → head (faults w) = Some (Some e) → True)
    as Hthrow by done.
  assert (∀ (e : Error) (w1 : World), I w1 → True → Q (Err e) w1) as Herr by done.
  unfold workOnPdf_body.
  eapply (triple_then I _ (λ _, True) (λ _, True));
    [by apply LivechatRooms_findOneById_triple|exact Herr| |done].
  intros [room|] w1 Hw1 _; [|exact Hw1].
  eapply (triple_then I _ (λ _, True) (λ _, True));
    [by apply getMessagesFromRoom_triple|exact Herr| |done].
  intros msgs w2 Hw2 _.
  eapply (triple_then I _ (λ _, True) (λ _, True)); [|exact Herr| |exact Hw2].
  { destruct (v room); [by apply LivechatVisitors_findOneById_triple|by apply triple_ret]. }
  intros visitor w3 Hw3 _.
  eapply (triple_then I _ (λ _, True) (λ _, True)); [|exact Herr| |exact Hw3].
  { destruct (servedBy room); [by apply Users_findOneAgentById_triple|by apply triple_ret]. }
  intros agent w4 Hw4 _.
  eapply (triple_then I _ (λ _, True) (λ _, True)); [|exact Herr| |exact Hw4].
  { eapply triple_weaken; [by apply (getFiles_triple svc I (λ _, True))|done..]. }
  intros messagesFiles w5 Hw5 _.
  eapply (triple_then I _ (λ _, True) (λ _, True)); [|exact Herr| |exact Hw5].
  { eapply triple_weaken; [apply (triple_promise_all I (λ _, True) (λ _ _, True)); [done|]|done..].
    intros i task Hi.
    destruct i as [|[|[|[|[|i]]]]]; simpl in Hi; try done; injection Hi as <-.
    1-3: eapply (triple_bind _ _ _ (λ _, True));
           [by apply settingsService_get_triple|intros ? _; by apply triple_ret].
    - eapply (triple_bind _ _ _ (λ _, True));
        [by apply getTimezone_triple|intros ? _; by apply triple_ret].
    - eapply (triple_bind _ _ _ (λ _, True));
        [by apply getTranslations_triple|intros ? _; by apply triple_ret]. }
  intros settings w6 Hw6 _. unfold doRender.
  eapply (triple_then I _ (λ _, True) (λ _, True));
    [by apply translateToServerLanguage_triple|exact Herr| |exact Hw6].
  intros transcriptText w7 Hw7 _.
  eapply (triple_then I _ (λ _, True) (λ _, True));
    [by apply renderToStream_triple|exact Herr| |exact Hw7].
  intros chunks w8 Hw8 _. unfold Q, modify. cbn [fst snd]. world_simpl.
  eexists. split; [by rewrite Hw8|done].
Qed.

(** X12. The [try] block of [workOnPdf] only reads: whatever the faults and
    the completion order, it writes to no collection, calls no collaborator
    that changes anything (nothing is sent, enqueued, uploaded or flagged)
    and leaves the counters alone.  When it succeeds it has set up exactly
    one render stream, for the job's details; when it fails no stream has
    been set up. *)
Theorem workOnPdf_body_reads (svc : Services) (template : string)
    (details : WorkDetailsWithSource) (w : World) :
  let r := (workOnPdf_body svc template details w).1 in
  let w' := (workOnPdf_body svc template details w).2 in
  rooms w' = rooms w ∧ effects w' = effects w ∧ uploads w' = uploads w ∧
  untouched w w' ∧
  match r with
  | Ok _ => ∃ stream, streams w' = streams w ++ [stream] ∧ rs_details stream = details
  | Err _ => streams w' = streams w
  end.
Proof.
  cbv zeta.
  destruct (workOnPdf_body_frame svc template details w) as (Hrooms & Heffects & Hups & Hsame).
  repeat split; try done; try apply Hsame.
  apply workOnPdf_body_streams.
Qed.

(** X13. A job for a room that has been deleted since it was enqueued ends
    silently: the [try] block fails with [RoomNotFound], the failure path
    finds no room and notifies nobody, [workOnPdf] returns normally, and
    nothing has changed but the log, the counter included. *)
Theorem workOnPdf_room_deleted (svc : Services) (template : string)
    (details : WorkDetailsWithSource) (w : World) :
  (currentJobNumber w < maxNumberOfConcurrentJobs w)%Z →
  calls_succeed 2 w →
  rooms w !! rid details = None →
  (workOnPdf_body svc template details (admitted details w)).1 = Err RoomNotFound ∧
  (workOnPdf svc template details w).1 = Ok tt ∧
  same_state w (workOnPdf svc template details w).2.
Proof.
  intros Hfree Hcalls Hroom.
  assert (workOnPdf_body svc template details (admitted details w)
          = (Err RoomNotFound, set_faults tail (admitted details w))) as Hbody.
  { unfold workOnPdf_body. unfold_methods.
    apply calls_succeed_S in Hcalls as [Hcall _].
    rewrite external_ok by exact Hcall. cbn beta iota. unfold admitted. world_simpl.
    by rewrite Hroom. }
  rewrite Hbody. split; [done|].
  rewrite (workOnPdf_caught svc template details w _ _ Hfree Hbody).
  apply calls_succeed_S in Hcalls as [_ Hcalls].
  unfold pdfFailed. unfold_methods. unfold admitted in *.
  call_ok Hcalls. world_simpl. rewrite Hroom.
  cbn [absent]. unfold same_state. world_simpl. repeat split; try done. lia.
Qed.

Lemma workOnPdf_room_deleted_witness :
  (currentJobNumber (world_of pending_room [] []) <
   maxNumberOfConcurrentJobs (world_of pending_room [] []))%Z ∧
  calls_succeed 2 (world_of pending_room [] []) ∧
  (workOnPdf demo_services "omnichannel-transcript"
     {| rid := "room-9"; userId := "agent-1"; from := "omnichannel-transcript" |}
     (world_of pending_room [] [])).1 = Ok tt ∧
  effects (workOnPdf demo_services "omnichannel-transcript"
             {| rid := "room-9"; userId := "agent-1"; from := "omnichannel-transcript" |}
             (world_of pending_room [] [])).2 = [].
Proof.
  assert (currentJobNumber (world_of pending_room [] []) <
          maxNumberOfConcurrentJobs (world_of pending_room [] []))%Z as Hfree
    by (by vm_compute).
  assert (calls_succeed 2 (world_of pending_room [] [])) as Hcalls by (by vm_compute).
  split; [exact Hfree|]. split; [exact Hcalls|].
  destruct (workOnPdf_room_deleted demo_services "omnichannel-transcript"
              {| rid := "room-9"; userId := "agent-1"; from := "omnichannel-transcript" |}
              (world_of pending_room [] []) Hfree Hcalls eq_refl)
    as (_ & Hr & _ & _ & _ & _ & _ & _ & Heffects & _).
  split; [exact Hr|exact Heffects].
Defined.

(** ** The worker: the stream it sets up *)

Lemma triple_conj {A} (I1 I2 : World → Prop) (m : M A) (P1 P2 : A → Prop)
    (E1 E2 : Error → Prop) :
  triple I1 m P1 E1 → triple I2 m P2 E2 →
  triple (λ w, I1 w ∧ I2 w) m (λ a, P1 a ∧ P2 a) (λ e, E1 e ∧ E2 e).
Proof.
  intros H1 H2 w [Hw1 Hw2]. specialize (H1 w Hw1). specialize (H2 w Hw2).
  destruct (m w) as [[a|e] w']; tauto.
Qed.

Section Exact.

Context (svc : Services) (I : World → Prop) (E : Error → Prop).

Hypothesis I_faults : ∀ w, I w → I (set_faults tail w).
Hypothesis E_fault : ∀ w e, I w → head (faults w) = Some (Some e) → E e.

Lemma settingsService_get_exact key :
  triple I (settingsService_get svc key) (λ r, r = svc_settings svc key) E.
Proof.
  unfold settingsService_get. eapply (triple_bind _ _ _ (λ _, True));
    [by apply external_triple|intros _ _; by apply triple_ret].
Qed.

Lemma translateToServerLanguage_exact key :
  triple I (translationService_translateToServerLanguage svc key)
    (λ r, r = svc_translateToServerLanguage svc key) E.
Proof.
  unfold translationService_translateToServerLanguage.
  eapply (triple_bind _ _ _ (λ _, True));
    [by apply external_triple|intros _ _; by apply triple_ret].
Qed.

Lemma renderToStream_exact template data :
  triple I (worker_renderToStream svc template data)
    (λ r, r = svc_renderToStream svc template data) E.
Proof.
  unfold worker_renderToStream. eapply (triple_bind _ _ _ (λ _, True));
    [by apply external_triple|intros _ _; by apply triple_ret].
Qed.

Lemma getTimezone_exact user :
  triple I (getTimezone svc user) (λ r, r = expected_timezone svc user) E.
Proof.
  unfold getTimezone, expected_timezone.
  eapply triple_bind; [apply settingsService_get_exact|]. intros mode ->.
  destruct (String.eqb _ "custom"); [apply settingsService_get_exact|].
  destruct (String.eqb _ "user"); [|by apply triple_ret].
  destruct (user ≫= utcOffset) as [offset|]; [|by apply triple_ret].
  destruct (offset =? 0)%Z; by apply triple_ret.
Qed.

End Exact.

Section Steady.

Context (svc : Services) (w0 : World).

Lemma steady_faults w : steady w0 w → steady w0 (set_faults tail w).
Proof. intros [[Hcalm Hups] Hsame]. split; [split; [by apply calm_tail|done]|done]. Qed.

Lemma steady_picks n w : steady w0 w → steady w0 (set_picks (drop n) w).
Proof. by intros [[Hcalm Hups] Hsame]. Qed.

Lemma steady_logs f w : steady w0 w → steady w0 (set_logs f w).
Proof. by intros [[Hcalm Hups] Hsame]. Qed.

Lemma steady_fault w e : steady w0 w → head (faults w) = Some (Some e) → never e.
Proof. intros [[Hcalm _] _]. by apply calm_head. Qed.

Lemma steady_lookup {A} (f : World → A) :
  (∀ w, same_state w0 w → f w = f w0) →
  triple (steady w0) (external >> gets f) (λ r, r = f w0) never.
Proof.
  intros Hf. eapply (triple_bind _ _ _ (λ _, True)).
  - apply external_triple; [apply steady_faults|apply steady_fault].
  - intros _ _. apply triple_gets. intros w [_ Hsame]. by apply Hf.
Qed.

Lemma steady_getFiles user msgs :
  triple (steady w0) (getFiles svc user msgs)
    (λ out, out = map (resolved svc user (uploads w0)) msgs) never.
Proof.
  eapply triple_weaken.
  - apply (triple_conj (resolving (uploads w0)) (λ w, same_state w0 w)).
    + apply getFiles_resolved.
    + by apply (getFiles_triple svc (λ w, same_state w0 w) (λ _, True)).
  - by intros out [-> _].
  - by intros e [? _].
Qed.

Lemma steady_body template details room :
  rooms w0 !! rid details = Some room →
  ∀ w, steady w0 w →
    (workOnPdf_body svc template details w).1 = Ok tt ∧
    streams (workOnPdf_body svc template details w).2
    = streams w0 ++ [expected_stream svc template details w0 room].
Proof.
  intros Hroom.
  set (Q := λ (r : Result unit) (w' : World),
              r = Ok tt ∧
              streams w' = streams w0 ++ [expected_stream svc template details w0 room]).
  assert (∀ (e : Error) (w1 : World), steady w0 w1 → never e → Q (Err e) w1) as Herr
    by (by intros e w1 _ []).
  intros w Hw. change (Q (workOnPdf_body svc template details w).1
                         (workOnPdf_body svc template details w).2).
  revert w Hw. unfold workOnPdf_body.
  eapply (triple_then _ _ (λ r, r = rooms w0 !! rid details) never); [|exact Herr|].
  { apply (steady_lookup (λ w, rooms w !! rid details)). by intros w (-> & _). }
  intros r w1 Hw1 ->. rewrite Hroom. revert w1 Hw1.
  eapply (triple_then _ _
            (λ r, r = sort_by_ts (List.filter
                                    (is_livechat_message_without_closing (room_id room))
                                    (messages w0))) never); [|exact Herr|].
  { apply (steady_lookup (λ w, sort_by_ts (List.filter _ (messages w)))).
    by intros w (_ & _ & _ & -> & _). }
  intros msgs w2 Hw2 ->. revert w2 Hw2.
  eapply (triple_then _ _ (λ r, r = v room ≫= (λ id, visitors w0 !! id)) never);
    [|exact Herr|].
  { destruct (v room) as [id|]; [|by apply triple_ret].
    apply (steady_lookup (λ w, visitors w !! id)). by intros w (_ & _ & -> & _). }
  intros visitor w3 Hw3 ->. revert w3 Hw3.
  eapply (triple_then _ _ (λ r, r = servedBy room ≫= (λ id, users w0 !! id)) never);
    [|exact Herr|].
  { destruct (servedBy room) as [id|]; [|by apply triple_ret].
    apply (steady_lookup (λ w, users w !! id)). by intros w (_ & -> & _). }
  intros agent w4 Hw4 ->. revert w4 Hw4.
  eapply (triple_then _ _ _ never); [apply steady_getFiles|exact Herr|].
  intros messagesFiles w5 Hw5 ->. revert w5 Hw5.
  eapply (triple_then _ _
            (λ l, l = [SettingString (svc_settings svc "Site_Name");
                       SettingString (svc_settings svc "Message_DateFormat");
                       SettingString (svc_settings svc "Message_TimeAndDateFormat");
                       SettingString
                         (expected_timezone svc (servedBy room ≫= (λ id, users w0 !! id)));
                       SettingTranslations
                         (map (λ key, (key, svc_translateToServerLanguage svc key))
                              translation_keys)]) never); [|exact Herr|].
  { eapply triple_weaken;
      [apply (triple_promise_all (steady w0) never
                (λ i r, ∀ x, [SettingString (svc_settings svc "Site_Name");
                       SettingString (svc_settings svc "Message_DateFormat");
                       SettingString (svc_settings svc "Message_TimeAndDateFormat");
                       SettingString
                         (expected_timezone svc (servedBy room ≫= (λ id, users w0 !! id)));
                       SettingTranslations
                         (map (λ key, (key, svc_translateToServerLanguage svc key))
                              translation_keys)] !! i = Some x → r = x));
       [apply steady_picks|]|..].
    - intros i task Hi.
      destruct i as [|[|[|[|[|i]]]]]; simpl in Hi; try done; injection Hi as <-.
      1-3: eapply triple_bind;
             [apply settingsService_get_exact; [apply steady_faults|apply steady_fault]|];
             intros s ->; apply triple_ret; by intros x [= <-].
      + eapply triple_bind;
          [apply getTimezone_exact; [apply steady_faults|apply steady_fault]|].
        intros s ->. apply triple_ret. by intros x [= <-].
      + eapply triple_bind;
          [apply getTranslations_exact;
           [apply steady_faults|apply steady_picks|apply steady_fault]|].
        intros s ->. apply triple_ret. by intros x [= <-].
    - intros l Hl. simpl in Hl.
      repeat match goal with
             | H : Forall2 _ (_ :: _) _ |- _ =>
                 apply Forall2_cons_inv_l in H as (? & ? & ? & H & ->)
             | H : Forall2 _ [] _ |- _ => apply Forall2_nil_inv_l in H as ->
             end.
      repeat match goal with
             | H : ∀ x, _ !! _ = Some x → _ = x |- _ => rewrite (H _ eq_refl); clear H
             end.
      done.
    - done. }
  intros settings w6 Hw6 ->. cbn [lookup list_lookup setting_string setting_translations].
  fold (expected_data svc details w0 room). revert w6 Hw6. unfold doRender.
  eapply (triple_then _ _ _ never);
    [apply translateToServerLanguage_exact; [apply steady_faults|apply steady_fault]
    |exact Herr|].
  intros transcriptText w7 Hw7 ->. revert w7 Hw7.
  eapply (triple_then _ _ _ never);
    [apply renderToStream_exact; [apply steady_faults|apply steady_fault]|exact Herr|].
  intros chunks w8 [_ Hw8] ->. unfold Q, modify. cbn [fst snd]. world_simpl.
  split; [done|]. by destruct Hw8 as (_ & _ & _ & _ & _ & -> & _).
Qed.

End Steady.

(** X14. An admitted job on an existing room, when no collaborator throws
    and for every completion order, returns normally having set up exactly
    one render stream, whose payload holds the visitor and agent of the
    room as stored, the closing time, the messages of the room without the
    closing message, ascending by timestamp and each resolved, the three
    settings, the time zone and the seven translations.  Nothing has been
    written or sent yet, and the counter is already back at its value from
    before the call: the limit does not cover the upload and the
    delivery. *)
Theorem workOnPdf_sets_up_stream (svc : Services) (template : string)
    (details : WorkDetailsWithSource) (w : World) (room : Room) :
  (currentJobNumber w < maxNumberOfConcurrentJobs w)%Z →
  calm w →
  rooms w !! rid details = Some room →
  let w' := (workOnPdf svc template details w).2 in
  (workOnPdf svc template details w).1 = Ok tt ∧
  streams w' = streams w ++ [expected_stream svc template details w room] ∧
  effects w' = effects w ∧ rooms w' = rooms w ∧ uploads w' = uploads w ∧
  currentJobNumber w' = currentJobNumber w.
Proof.
  intros Hfree Hcalm Hroom. cbv zeta.
  pose proof (workOnPdf_releases svc template details w Hfree) as Hback.
  assert (steady (admitted details w) (admitted details w)) as Hsteady
    by (by repeat split).
  destruct (steady_body svc (admitted details w) template details room Hroom _ Hsteady)
    as [Hr Hstreams].
  destruct (workOnPdf_body_frame svc template details (admitted details w))
    as (Hrooms & Heffects & Hups & _).
  destruct (workOnPdf_body svc template details (admitted details w))
    as [r w1] eqn:Hbody. simpl in Hr. subst r.
  rewrite (workOnPdf_completed svc template details w w1 Hfree Hbody) in *.
  simpl in *. world_simpl. by repeat split.
Qed.

Lemma workOnPdf_sets_up_stream_witness :
  (currentJobNumber shuffled_world <
   maxNumberOfConcurrentJobs shuffled_world)%Z ∧
  calm shuffled_world ∧
  map mf_id
    (wd_messages
       (rs_data (default (stream_of job_1)
                   (head (streams (workOnPdf demo_services "omnichannel-transcript" job_1
                                     shuffled_world).2)))))
  = ["m1"; "m2"].
Proof.
  assert (currentJobNumber shuffled_world <
          maxNumberOfConcurrentJobs shuffled_world)%Z as Hfree
    by (by vm_compute).
  assert (calm shuffled_world) as Hcalm by (by vm_compute).
  split; [exact Hfree|]. split; [exact Hcalm|].
  destruct (workOnPdf_sets_up_stream demo_services "omnichannel-transcript" job_1
              shuffled_world pending_room Hfree Hcalm eq_refl)
    as (_ & Hstreams & _).
  rewrite Hstreams. by vm_compute.
Defined.

(** ** The success path: what is swallowed, what is kept *)




(** X16. The two deliveries of the success path do not depend on each
    other: when the delivery into the room throws and everything else
    answers, the file is still delivered into the direct conversation, the
    error is logged with its cause, the file reference stays on the room,
    and [pdfComplete] returns normally. *)
Theorem pdfComplete_partial_delivery (svc : Services) (details : WorkDetailsWithSource)
    (file : Upload) (w : World) (user : User) (e : Error) (fs : list (option Error)) :
  faults w = None :: None :: None :: None :: Some e :: None :: None :: fs →
  users w !! userId details = Some user →
  let w' := (pdfComplete svc details file w).2 in
  (pdfComplete svc details file w).1 = Ok tt ∧
  rooms w' = alter (room_with_fileId (upload_id file)) (rid details) (rooms w) ∧
  (∃ opening,
     opening ≡ₚ [SetPdfTranscriptFileIdById (rid details) (upload_id file);
                 CreateDirectMessage (userId details) "rocket.cat"] ∧
     effects w' = effects w ++ opening
                  ++ [SendFileMessage (svc_directRoomId svc (userId details) "rocket.cat")
                        "rocket.cat" file
                        (svc_translate svc "pdf_success_message" user)]) ∧
  last (logs w')
  = Some (LogErrorObj ("Transcript for room " +:+ rid details +:+ " by user "
                       +:+ userId details +:+ " - Failed to send message") e).
Proof.
  intros Hfaults Huser. cbv zeta.
  cut (∃ W, pdfComplete svc details file w = (Ok tt, W) ∧
            rooms W = alter (room_with_fileId (upload_id file)) (rid details) (rooms w) ∧
            (∃ opening,
               opening ≡ₚ [SetPdfTranscriptFileIdById (rid details) (upload_id file);
                           CreateDirectMessage (userId details) "rocket.cat"] ∧
               effects W = effects w ++ opening
                 ++ [SendFileMessage (svc_directRoomId svc (userId details) "rocket.cat")
                       "rocket.cat" file
                       (svc_translate svc "pdf_success_message" user)]) ∧
            last (logs W)
            = Some (LogErrorObj ("Transcript for room " +:+ rid details +:+ " by user "
                                 +:+ userId details +:+ " - Failed to send message") e)).
  { intros (W & -> & HW). split; [done|exact HW]. }
  unfold pdfComplete, promise_all2. unfold_methods.
  run_script Hfaults. rewrite Huser. cbn beta iota. world_simpl.
  destruct (Nat.even (hd 0 (picks w))); run_script Hfaults;
    cbn [List.find isPromiseRejectedResult]; world_simpl;
    (eexists; split; [reflexivity|]); world_simpl.
  - repeat split; try done.
    + eexists. split; [reflexivity|]. by rewrite <- !app_assoc.
    + by rewrite last_snoc.
  - repeat split; try done.
    + eexists. split; [apply Permutation_swap|]. by rewrite <- !app_assoc.
    + by rewrite last_snoc.
Qed.

Lemma pdfComplete_partial_delivery_witness :
  faults (world_of pending_room
            [None; None; None; None; Some (mkError "room archived"); None; None] [])
  = [None; None; None; None; Some (mkError "room archived"); None; None] ∧
  (pdfComplete demo_services job_1 (transcript_file demo_services (stream_of job_1))
     (world_of pending_room
        [None; None; None; None; Some (mkError "room archived"); None; None] [])).1
  = Ok tt.
Proof.
  split; [reflexivity|].
  exact (proj1 (pdfComplete_partial_delivery demo_services job_1
                  (transcript_file demo_services (stream_of job_1))
                  (world_of pending_room
                     [None; None; None; None; Some (mkError "room archived"); None; None]
                     [])
                  agent_1 (mkError "room archived") [] eq_refl eq_refl)).
Defined.

Lemma pdfComplete_lookup_throws (svc : Services) (details : WorkDetailsWithSource)
    (file : Upload) (w : World) (e : Error) :
  head (faults w) = Some (Some e) →
  pdfComplete svc details file w
  = (Err e,
     set_faults tail
       (set_logs (λ ls, ls ++ [LogLog ("Transcript for room " +:+ rid details
                                       +:+ " by user " +:+ userId details
                                       +:+ " - Complete")]) w)).
Proof.
  intros Hthrows. unfold pdfComplete, Users_findOneById.
  unfold bind at 1 2 3. unfold log_log at 1. unfold modify at 1. cbn beta iota.
  by rewrite (external_throws (set_logs _ w) e Hthrows).
Qed.

(** X17. An uploaded transcript can still end in the failure path: when
    the upload answers and the lookup of the requesting user in
    [pdfComplete] then throws, the end handler's catch hands that error to
    [pdfFailed].  With the room and the user in the store and the
    collaborators answering from then on, the uploaded file stays in the
    uploads collection, no file reference is set on the room, its pending
    flag is cleared, and the requester gets the error message. *)
Theorem doRender_end_late_failure (svc : Services) (stream : RenderStream) (w : World)
    (room : Room) (user : User) (e : Error) (fs : list (option Error)) :
  faults w = None :: Some e :: fs →
  Forall (λ f, f = None) (take 6 fs) →
  rooms w !! rid (rs_details stream) = Some room →
  users w !! userId (rs_details stream) = Some user →
  let w' := (doRender_end svc stream w).2 in
  (doRender_end svc stream w).1 = Ok tt ∧
  uploads w' !! upload_id (transcript_file svc stream) = Some (transcript_file svc stream) ∧
  rooms w' !! rid (rs_details stream) = Some (room_with_requested false room) ∧
  times_file_id_set (rid (rs_details stream)) w'
  = times_file_id_set (rid (rs_details stream)) w ∧
  effects w' = effects w
               ++ [UploadFile (userId (rs_details stream)) (concat (rs_chunks stream))
                     (transcript_details svc stream)]
               ++ error_notice svc (rs_details stream) user e.
Proof.
  intros Hfaults Hrest Hroom Huser. cbv zeta.
  assert (calls_succeed 1 w) as Hupload.
  { unfold calls_succeed. rewrite Hfaults. simpl. by constructor. }
  rewrite doRender_end_uploaded by done. unfold try_catch.
  rewrite (pdfComplete_lookup_throws svc _ _ (after_upload svc stream w) e);
    [|unfold after_upload; world_simpl; by rewrite Hfaults].
  set (w1 := set_faults tail (set_logs _ (after_upload svc stream w))).
  assert (calls_succeed 6 w1) as Hcalls.
  { unfold calls_succeed, w1, after_upload. world_simpl. by rewrite Hfaults. }
  destruct (pdfFailed_notifies svc (rs_details stream) e w1 room user Hcalls Hroom Huser)
    as (Hr & Hrooms & Heffects & Hups & _).
  split; [exact Hr|]. split; [|split; [|split]].
  - rewrite Hups. unfold w1, after_upload. world_simpl. apply lookup_insert_eq.
  - rewrite Hrooms. unfold w1, after_upload. world_simpl.
    by rewrite lookup_alter_eq, Hroom.
  - unfold times_file_id_set. rewrite Heffects. unfold w1, after_upload. world_simpl.
    rewrite !sets_file_id_count. simpl. lia.
  - rewrite Heffects. unfold w1, after_upload. world_simpl. by rewrite <- app_assoc.
Qed.

Lemma doRender_end_late_failure_witness :
  faults (world_of pending_room [None; Some (mkError "mongo timeout")] [])
  = [None; Some (mkError "mongo timeout")] ∧
  rooms (doRender_end demo_services (stream_of job_1)
           (world_of pending_room [None; Some (mkError "mongo timeout")] [])).2 !! "room-1"
  = Some closed_room.
Proof.
  split; [reflexivity|].
  destruct (doRender_end_late_failure demo_services (stream_of job_1)
              (world_of pending_room [None; Some (mkError "mongo timeout")] [])
              pending_room agent_1 (mkError "mongo timeout") [] eq_refl
              ltac:(by vm_compute) eq_refl eq_refl) as (_ & _ & Hroom & _).
  exact Hroom.
Defined.

Lemma doRender_end_success (svc : Services) (stream : RenderStream) (w : World)
    (user : User) :
  calls_succeed 8 w →
  users w !! userId (rs_details stream) = Some user →
  (doRender_end svc stream w).1 = Ok tt ∧
  rooms (doRender_end svc stream w).2
  = alter (room_with_fileId (upload_id (transcript_file svc stream)))
          (rid (rs_details stream)) (rooms w) ∧
  uploads (doRender_end svc stream w).2
  = <[upload_id (transcript_file svc stream) := transcript_file svc stream]> (uploads w) ∧
  (∃ opening,
     opening ≡ₚ [SetPdfTranscriptFileIdById (rid (rs_details stream))
                   (upload_id (transcript_file svc stream));
                 CreateDirectMessage (userId (rs_details stream)) "rocket.cat"] ∧
     effects (doRender_end svc stream w).2
     = effects w
       ++ [UploadFile (userId (rs_details stream)) (concat (rs_chunks stream))
             (transcript_details svc stream)]
       ++ opening
       ++ success_deliveries svc (rs_details stream) user (transcript_file svc stream)) ∧
  untouched w (doRender_end svc stream w).2.
Proof.
  intros Hcalls Huser.
  apply calls_succeed_S in Hcalls as [Hupload Hcalls].
  rewrite doRender_end_uploaded by done.
  destruct (pdfComplete_delivers svc (rs_details stream) (transcript_file svc stream)
              (after_upload svc stream w) user Hcalls Huser)
    as (Hr & Hrooms & _ & (opening & Hperm & Heffects) & Hups & Hsame).
  unfold try_catch.
  destruct (pdfComplete svc (rs_details stream) (transcript_file svc stream)
              (after_upload svc stream w)) as [[[]|e] w2]; simpl in *; [|done].
  split; [done|]. split; [exact Hrooms|]. split; [exact Hups|].
  split; [|exact Hsame].
  exists opening. split; [exact Hperm|].
  rewrite Heffects. unfold after_upload. world_simpl. by rewrite <- app_assoc.
Qed.

(** X18. After a delivered transcript the file reference of the room names
    an upload that exists.  The end handler calls the upload service
    exactly once, with the chunks of the stream concatenated in the order
    the stream gave them and the details built from the stream; the record
    answered by that call is a PDF of the room, attributed to
    [rocket.cat] and sized as the concatenated chunks; it is stored under
    its id, that id is the file reference of the room, and this same
    record is what both deliveries carry.  Between the upload and the
    deliveries only the file reference is set and the direct conversation
    opened, in either order. *)
Theorem delivered_file_exists (svc : Services) (stream : RenderStream) (w : World)
    (user : User) (room : Room) :
  calls_succeed 8 w →
  users w !! userId (rs_details stream) = Some user →
  rooms w !! rid (rs_details stream) = Some room →
  let w' := (doRender_end svc stream w).2 in
  let file := transcript_file svc stream in
  (∃ room', rooms w' !! rid (rs_details stream) = Some room' ∧
            pdfTranscriptFileId room' = Some (upload_id file)) ∧
  uploads w' = <[upload_id file := file]> (uploads w) ∧
  uploads w' !! upload_id file = Some file ∧
  upload_id file = svc_uploadId svc (userId (rs_details stream))
                     (transcript_details svc stream) ∧
  upload_name file = ud_name (transcript_details svc stream) ∧
  upload_rid file = rid (rs_details stream) ∧
  upload_type file = "application/pdf" ∧
  upload_userId file = "rocket.cat" ∧
  upload_size file = length (concat (rs_chunks stream)) ∧
  ∃ opening,
    opening ≡ₚ [SetPdfTranscriptFileIdById (rid (rs_details stream)) (upload_id file);
                CreateDirectMessage (userId (rs_details stream)) "rocket.cat"] ∧
    effects w' = effects w
                 ++ [UploadFile (userId (rs_details stream)) (concat (rs_chunks stream))
                       (transcript_details svc stream)]
                 ++ opening ++ success_deliveries svc (rs_details stream) user file.
Proof.
  intros Hcalls Huser Hroom. cbv zeta.
  destruct (doRender_end_success svc stream w user Hcalls Huser)
    as (_ & Hrooms & Hups & (opening & Hperm & Heffects) & _).
  split.
  { exists (room_with_fileId (upload_id (transcript_file svc stream)) room).
    split; [|done]. by rewrite Hrooms, lookup_alter_eq, Hroom. }
  split; [exact Hups|]. split; [rewrite Hups; apply lookup_insert_eq|].
  do 6 (split; [done|]). by exists opening.
Qed.

Lemma delivered_file_exists_witness :
  calls_succeed 8 (world_of pending_room [] []) ∧
  uploads (doRender_end demo_services (stream_of job_1) (world_of pending_room [] [])).2
    !! upload_id (transcript_file demo_services (stream_of job_1))
  = Some (transcript_file demo_services (stream_of job_1)) ∧
  ∃ room',
    rooms (doRender_end demo_services (stream_of job_1) (world_of pending_room [] [])).2
      !! "room-1" = Some room' ∧
    pdfTranscriptFileId room'
    = Some (upload_id (transcript_file demo_services (stream_of job_1))).
Proof.
  assert (calls_succeed 8 (world_of pending_room [] [])) as Hcalls by (by vm_compute).
  split; [exact Hcalls|].
  destruct (delivered_file_exists demo_services (stream_of job_1)
              (world_of pending_room [] []) agent_1 pending_room Hcalls eq_refl eq_refl)
    as ((room' & Hroom & Hid) & _ & Hup & _).
  split; [exact Hup|]. exists room'. split; [exact Hroom|exact Hid].
Defined.

(** ** Requests after a terminal outcome *)

Lemma pdfFailed_calm (svc : Services) (details : WorkDetailsWithSource) (e : Error)
    (w : World) :
  calm w → calm (pdfFailed svc details e w).2.
Proof.
  intros Hcalm.
  pose proof (pdfFailed_triple svc calm never calm_tail ltac:(done) ltac:(done)
                ltac:(done) calm_head details e w Hcalm) as H.
  destruct (pdfFailed svc details e w) as [[[]|e'] w']; simpl; tauto.
Qed.

Lemma doRender_end_calm (svc : Services) (stream : RenderStream) (w : World) :
  calm w → calm (doRender_end svc stream w).2.
Proof.
  intros Hcalm.
  pose proof (doRender_end_triple svc calm never calm_tail ltac:(done) ltac:(done)
                ltac:(done) ltac:(done) ltac:(done) calm_head stream w Hcalm) as H.
  destruct (doRender_end svc stream w) as [[[]|e'] w']; simpl; tauto.
Qed.

(** X19. A failed job makes the room requestable again: after the failure
    path has run for an existing room and user (no collaborator throwing),
    a new request for that room is accepted as a fresh one: the room is
    flagged again and one work item is enqueued. *)
Theorem request_after_failure (svc : Services) (details : WorkDetailsWithSource)
    (e : Error) (w : World) (room : Room) (user : User) (again : WorkDetails) :
  calm w →
  rooms w !! rid details = Some room → requestable room →
  users w !! userId details = Some user →
  wd_rid again = rid details →
  let w1 := (pdfFailed svc details e w).2 in
  (requestTranscript again w1).1 = Ok tt ∧
  effects (requestTranscript again w1).2
  = effects w1 ++ [SetTranscriptRequestedPdfById (rid details); work_item again] ∧
  ∃ flagged, rooms (requestTranscript again w1).2 !! rid details = Some flagged ∧
             pdfTranscriptRequested flagged = true.
Proof.
  intros Hcalm Hroom Hok Huser Hrid. cbv zeta.
  pose proof (pdfFailed_calm svc details e w Hcalm) as Hcalm1.
  destruct (pdfFailed_notifies svc details e w room user
              (calm_calls_succeed 6 w Hcalm) Hroom Huser) as (_ & Hrooms & _).
  set (w1 := (pdfFailed svc details e w).2) in *.
  assert (rooms w1 !! wd_rid again = Some (room_with_requested false room)) as Hroom1
    by (by rewrite Hrid, Hrooms, lookup_alter_eq, Hroom).
  assert (requestable (room_with_requested false room)) as Hok1 by exact Hok.
  pose proof (calm_calls_succeed 3 w1 Hcalm1) as Hcalls.
  rewrite (requestTranscript_accepted again w1 _
             (calls_succeed_le 3 1 w1 ltac:(lia) Hcalls) Hroom1 Hok1 eq_refl).
  apply calls_succeed_S in Hcalls as [_ Hcalls].
  unfold_methods. do 2 call_ok Hcalls. world_simpl.
  rewrite <- app_assoc, <- Hrid. repeat split; try done.
  exists (room_with_requested true (room_with_requested false room)).
  by rewrite lookup_alter_eq, Hroom1.
Qed.

Lemma request_after_failure_witness :
  calm (world_of pending_room [] []) ∧
  (requestTranscript request_1
     (pdfFailed demo_services job_1 (mkError "timeout") (world_of pending_room [] [])).2).1
  = Ok tt.
Proof.
  assert (calm (world_of pending_room [] [])) as Hcalm by (by vm_compute).
  split; [exact Hcalm|].
  destruct (request_after_failure demo_services job_1 (mkError "timeout")
              (world_of pending_room [] []) pending_room agent_1 request_1 Hcalm eq_refl)
    as (Hr & _).
  { repeat split; by eexists. }
  { reflexivity. }
  { reflexivity. }
  exact Hr.
Defined.

(** X20. A delivered transcript closes the room for further requests: the
    success path sets the file reference and leaves the pending flag set,
    so every later request for the room is the silent no-op of a pending
    room (no collaborator throwing). *)
Theorem request_after_delivery (svc : Services) (stream : RenderStream) (w : World)
    (user : User) (room : Room) (again : WorkDetails) :
  calm w →
  users w !! userId (rs_details stream) = Some user →
  rooms w !! rid (rs_details stream) = Some room → requestable room →
  pdfTranscriptRequested room = true →
  wd_rid again = rid (rs_details stream) →
  let w1 := (doRender_end svc stream w).2 in
  (∃ delivered, rooms w1 !! rid (rs_details stream) = Some delivered ∧
                is_Some (pdfTranscriptFileId delivered) ∧
                pdfTranscriptRequested delivered = true) ∧
  (requestTranscript again w1).1 = Ok tt ∧
  same_state w1 (requestTranscript again w1).2.
Proof.
  intros Hcalm Huser Hroom (Hclosed & Hagent & Hvisitor) Hpending Hrid. cbv zeta.
  pose proof (doRender_end_calm svc stream w Hcalm) as Hcalm1.
  destruct (doRender_end_delivers svc stream w user (calm_calls_succeed 8 w Hcalm) Huser)
    as (_ & Hrooms & _).
  set (w1 := (doRender_end svc stream w).2) in *.
  assert (rooms w1 !! rid (rs_details stream)
          = Some (room_with_fileId (upload_id (transcript_file svc stream)) room))
    as Hroom1 by (by rewrite Hrooms, lookup_alter_eq, Hroom).
  split.
  - eexists. split; [exact Hroom1|]. split; [by eexists|exact Hpending].
  - rewrite <- Hrid in Hroom1.
    by apply (requestTranscript_pending again w1 _ (calm_calls_succeed 1 w1 Hcalm1) Hroom1).
Qed.

Lemma request_after_delivery_witness :
  calm (world_of pending_room [] []) ∧
  (requestTranscript request_1
     (doRender_end demo_services (stream_of job_1) (world_of pending_room [] [])).2).1
  = Ok tt ∧
  effects (requestTranscript request_1
             (doRender_end demo_services (stream_of job_1)
                (world_of pending_room [] [])).2).2
  = effects (doRender_end demo_services (stream_of job_1) (world_of pending_room [] [])).2.
Proof.
  assert (calm (world_of pending_room [] [])) as Hcalm by (by vm_compute).
  split; [exact Hcalm|].
  destruct (request_after_delivery demo_services (stream_of job_1)
              (world_of pending_room [] []) agent_1 pending_room request_1 Hcalm
              eq_refl eq_refl) as (_ & Hr & Hsame).
  { repeat split; by eexists. }
  { reflexivity. }
  { reflexivity. }
  split; [exact Hr|]. by destruct Hsame as (_ & _ & _ & _ & _ & _ & -> & _).
Defined.

(** X21. The end handler of the stream never touches the job counters nor
    the list of streams, whatever the faults and the completion order: the
    upload and the notifications run outside the admission limit. *)
Theorem doRender_end_counters (svc : Services) (stream : RenderStream) (w : World) :
  currentJobNumber (doRender_end svc stream w).2 = currentJobNumber w ∧
  maxNumberOfConcurrentJobs (doRender_end svc stream w).2 = maxNumberOfConcurrentJobs w ∧
  streams (doRender_end svc stream w).2 = streams w.
Proof.
  pose proof (doRender_end_triple svc
                (λ w', currentJobNumber w' = currentJobNumber w ∧
                       maxNumberOfConcurrentJobs w' = maxNumberOfConcurrentJobs w ∧
                       streams w' = streams w)
                (λ _, True) ltac:(done) ltac:(done) ltac:(done) ltac:(done) ltac:(done)
                ltac:(done) ltac:(done) stream w ltac:(done)) as H.
  destruct (doRender_end svc stream w) as [[[]|e] w']; simpl; tauto.
Qed.

(** ** A job from the queue to the delivery *)

Lemma workOnPdf_body_calm (svc : Services) (template : string)
    (details : WorkDetailsWithSource) (w : World) :
  calm w → calm (workOnPdf_body svc template details w).2.
Proof.
  intros Hcalm.
  pose proof (workOnPdf_body_triple svc calm (λ _, True) calm_tail ltac:(done)
                ltac:(done) ltac:(done) ltac:(done) I template details w Hcalm) as H.
  destruct (workOnPdf_body svc template details w) as [[[]|e'] w']; simpl; tauto.
Qed.

(** X22. A job from the queue to the delivery.  For an existing room and
    requester, a free slot and no collaborator throwing, [workOnPdf]
    returns normally and leaves one render stream; when the [end] handler
    then runs on that stream, the bytes the renderer gave for the data of
    the room are uploaded once, the room gets the id of that upload as its
    file reference, the file is delivered into the room and into the
    direct conversation with the requester, and the counter is at its
    value from before the job.  No other room and no other upload is
    changed. *)
Theorem transcript_job_delivers (svc : Services) (template : string)
    (details : WorkDetailsWithSource) (w : World) (room : Room) (user : User) :
  (currentJobNumber w < maxNumberOfConcurrentJobs w)%Z →
  calm w →
  rooms w !! rid details = Some room →
  users w !! userId details = Some user →
  let stream := expected_stream svc template details w room in
  let file := transcript_file svc stream in
  let w1 := (workOnPdf svc template details w).2 in
  let w2 := (doRender_end svc stream w1).2 in
  (workOnPdf svc template details w).1 = Ok tt ∧
  last (streams w1) = Some stream ∧
  (doRender_end svc stream w1).1 = Ok tt ∧
  rooms w2 = <[rid details := room_with_fileId (upload_id file) room]> (rooms w) ∧
  uploads w2 = <[upload_id file := file]> (uploads w) ∧
  (∃ opening,
     opening ≡ₚ [SetPdfTranscriptFileIdById (rid details) (upload_id file);
                 CreateDirectMessage (userId details) "rocket.cat"] ∧
     effects w2
     = effects w
       ++ [UploadFile (userId details)
             (concat (svc_renderToStream svc template (expected_data svc details w room)))
             (transcript_details svc stream)]
       ++ opening ++ success_deliveries svc details user file) ∧
  currentJobNumber w2 = currentJobNumber w.
Proof.
  intros Hfree Hcalm Hroom Huser. cbv zeta.
  change (expected_stream svc template details w room)
    with (expected_stream svc template details (admitted details w) room).
  assert (steady (admitted details w) (admitted details w)) as Hsteady
    by (by repeat split).
  destruct (steady_body svc (admitted details w) template details room Hroom _ Hsteady)
    as [Hr Hstreams].
  destruct (workOnPdf_body_frame svc template details (admitted details w))
    as (Hrooms & Heffects & Hups & Husers & _ & _ & _ & Hcount).
  pose proof (workOnPdf_body_calm svc template details (admitted details w) Hcalm)
    as Hcalm1.
  destruct (workOnPdf_body svc template details (admitted details w))
    as [r w1] eqn:Hbody. simpl in Hr. subst r.
  rewrite (workOnPdf_completed svc template details w w1 Hfree Hbody).
  cbn [fst snd] in *.
  set (stream := expected_stream svc template details (admitted details w) room) in *.
  set (w1' := set_currentJobNumber (λ n : Z, (n - 1)%Z) w1).
  assert (calm w1') as Hcalm1' by exact Hcalm1.
  assert (users w1' !! userId (rs_details stream) = Some user) as Huser1.
  { unfold w1', stream. world_simpl. rewrite Husers. unfold admitted. by world_simpl. }
  destruct (doRender_end_success svc stream w1' user
              (calm_calls_succeed 8 w1' Hcalm1') Huser1)
    as (Hr2 & Hrooms2 & Hups2 & (opening & Hperm & Heffects2) & Hsame2).
  change (rs_details stream) with details in *.
  split; [done|]. split.
  { unfold w1'. world_simpl. rewrite Hstreams. by rewrite last_snoc. }
  split; [exact Hr2|]. split.
  { rewrite Hrooms2. unfold w1'. world_simpl. rewrite Hrooms. unfold admitted. world_simpl.
    apply map_eq. intros k. destruct (decide (k = rid details)) as [->|Hk].
    - by rewrite lookup_alter_eq, lookup_insert_eq, Hroom.
    - by rewrite lookup_alter_ne, lookup_insert_ne. }
  split.
  { rewrite Hups2. unfold w1'. world_simpl. rewrite Hups. unfold admitted. by world_simpl. }
  split.
  { exists opening. split; [exact Hperm|]. rewrite Heffects2. unfold w1'. world_simpl.
    rewrite Heffects. unfold admitted. by world_simpl. }
  destruct Hsame2 as (_ & _ & _ & _ & ->). unfold w1'. world_simpl.
  rewrite Hcount. unfold admitted. world_simpl. lia.
Qed.

Lemma transcript_job_delivers_witness :
  (currentJobNumber shuffled_world < maxNumberOfConcurrentJobs shuffled_world)%Z ∧
  calm shuffled_world ∧
  ∃ stream,
    (doRender_end demo_services stream
       (workOnPdf demo_services "omnichannel-transcript" job_1 shuffled_world).2).1 = Ok tt.
Proof.
  assert (currentJobNumber shuffled_world <
          maxNumberOfConcurrentJobs shuffled_world)%Z as Hfree
    by (by vm_compute).
  assert (calm shuffled_world) as Hcalm by (by vm_compute).
  split; [exact Hfree|]. split; [exact Hcalm|].
  destruct (transcript_job_delivers demo_services "omnichannel-transcript" job_1
              shuffled_world pending_room agent_1 Hfree Hcalm eq_refl eq_refl)
    as (_ & _ & Hr & _).
  eexists. exact Hr.
Defined.
